(** * Soybean crush spread back-test: a shallow embedding of [get_data.py]

    The development embeds [calculate_hurst] and [backtest_crush_spread]
    (src/get_data.py, lines 110-265) and proves properties of the columns the
    back-test computes and of the effects of a call.  The mock prices of
    the example (lines 270-287) are embedded as well.

    Numbers.  A pandas/numpy cell is a float64.  Here a cell is an exact
    rational extended with the three special values of IEEE arithmetic
    (NaN and the two infinities); the operations follow the IEEE rules for
    the special values and are exact on finite values (every result is
    stored as a reduced fraction).  Rounding and signed zeros are not
    modelled.  The square root and the logarithm, which do
    not stay inside the rationals, are parameters of the development. *)

From Stdlib Require Import QArith Qabs Lqa Lia ZArith.
From stdpp Require Import base list gmap strings.

Local Open Scope Q_scope.

(* ================================================================== *)
(** ** Cells: extended rationals *)

Inductive float : Type :=
  | NaN
  | PInf
  | NInf
  | Fin (q : Q).

Definition is_nan (x : float) : bool :=
  match x with NaN => true | _ => false end.

Definition is_fin (x : float) : bool :=
  match x with Fin _ => true | _ => false end.

(** Equality of cells up to the representation of a rational. *)
Definition feq (x y : float) : Prop :=
  match x, y with
  | NaN, NaN | PInf, PInf | NInf, NInf => True
  | Fin a, Fin b => a == b
  | _, _ => False
  end.

Definition feqb (x y : float) : bool :=
  match x, y with
  | NaN, NaN | PInf, PInf | NInf, NInf => true
  | Fin a, Fin b => Qeq_bool a b
  | _, _ => false
  end.

(** An infinity (or NaN) from a sign. *)
Definition inf_of (c : comparison) : float :=
  match c with Gt => PInf | Lt => NInf | Eq => NaN end.

Definition sign_mul (c d : comparison) : comparison :=
  match c, d with
  | Eq, _ | _, Eq => Eq
  | Gt, Gt | Lt, Lt => Gt
  | _, _ => Lt
  end.

(** The sign of a cell that is not NaN. *)
Definition fsgn (x : float) : comparison :=
  match x with
  | NaN => Eq
  | PInf => Gt
  | NInf => Lt
  | Fin q => q ?= 0
  end.

Definition fneg (x : float) : float :=
  match x with
  | NaN => NaN
  | PInf => NInf
  | NInf => PInf
  | Fin q => Fin (- q)
  end.

Definition fadd (x y : float) : float :=
  match x, y with
  | NaN, _ | _, NaN => NaN
  | PInf, NInf | NInf, PInf => NaN
  | PInf, _ | _, PInf => PInf
  | NInf, _ | _, NInf => NInf
  | Fin a, Fin b => Fin (Qred (a + b))
  end.

Definition fsub (x y : float) : float := fadd x (fneg y).

Definition fmul (x y : float) : float :=
  match x, y with
  | NaN, _ | _, NaN => NaN
  | Fin a, Fin b => Fin (Qred (a * b))
  | _, _ => inf_of (sign_mul (fsgn x) (fsgn y))
  end.

(** Division never raises: a zero divisor gives an infinity, and NaN for
    0/0 (numpy semantics, which pandas columns follow). *)
Definition fdiv (x y : float) : float :=
  match x, y with
  | NaN, _ | _, NaN => NaN
  | Fin a, Fin b =>
      match b ?= 0 with
      | Eq => inf_of (a ?= 0)
      | _ => Fin (Qred (a / b))
      end
  | Fin _, _ => Fin 0
  | _, Fin b =>
      match b ?= 0 with
      | Lt => fneg x
      | _ => x
      end
  | _, _ => NaN
  end.

Definition fabs (x : float) : float :=
  match x with
  | NaN => NaN
  | PInf | NInf => PInf
  | Fin q => Fin (Qabs q)
  end.

(** [np.sign]: 1, -1 or 0, and NaN for NaN. *)
Definition fsign (x : float) : float :=
  match x with
  | NaN => NaN
  | PInf => Fin 1
  | NInf => Fin (-1)
  | Fin q =>
      match q ?= 0 with
      | Gt => Fin 1
      | Lt => Fin (-1)
      | Eq => Fin 0
      end
  end.

(** Comparisons: every comparison with NaN is false, except [!=]. *)
Definition fltb (x y : float) : bool :=
  match x, y with
  | NaN, _ | _, NaN => false
  | _, NInf => false
  | PInf, _ => false
  | NInf, _ => true
  | _, PInf => true
  | Fin a, Fin b => match a ?= b with Lt => true | _ => false end
  end.

Definition fgtb (x y : float) : bool := fltb y x.

Definition fneb (x y : float) : bool := negb (feqb x y) || is_nan x.

Definition fmax (x y : float) : float :=
  match x, y with
  | NaN, _ | _, NaN => NaN
  | _, _ => if fltb x y then y else x
  end.

Definition fmin (x y : float) : float :=
  match x, y with
  | NaN, _ | _, NaN => NaN
  | _, _ => if fltb y x then y else x
  end.

Definition of_nat (n : nat) : float := Fin (inject_Z (Z.of_nat n)).

(* ================================================================== *)
(** ** Column operations of pandas and numpy *)

Abbreviation column := (list float).

Definition fsum (l : column) : float := foldl fadd (Fin 0) l.

(** Element-wise operations on two columns with the same index. *)
Definition col_sub : column -> column -> column := zip_with fsub.
Definition col_mul : column -> column -> column := zip_with fmul.
Definition col_div : column -> column -> column := zip_with fdiv.
Definition col_add : column -> column -> column := zip_with fadd.

Definition col_gt (c : column) (v : float) : list bool := map (fun x => fgtb x v) c.
Definition col_lt (c : column) (v : float) : list bool := map (fun x => fltb x v) c.

(** [c.shift(1)]: every value moves one row down, NaN enters at row 0. *)
Definition shift (c : column) : column := take (length c) (NaN :: c).

(** [c.diff()]. *)
Definition diff (c : column) : column := col_sub c (shift c).

(** [data.loc[mask, col] = v]. *)
Definition loc_set (mask : list bool) (v : float) (c : column) : column :=
  zip_with (fun (m : bool) x => if m then v else x) mask c.

(** [c.ffill()]: a NaN takes the last value that is not NaN above it. *)
Fixpoint ffill_from (last : float) (c : column) : column :=
  match c with
  | [] => []
  | x :: r =>
      let v := if is_nan x then last else x in
      v :: ffill_from v r
  end.

Definition ffill (c : column) : column := ffill_from NaN c.

Definition fillna (v : float) (c : column) : column :=
  map (fun x => if is_nan x then v else x) c.

(** The observations of a window or of a column: its values but NaN. *)
Definition dropna (c : column) : column :=
  filter (fun x => is_nan x = false) c.

Definition mean_obs (obs : column) : float :=
  match obs with
  | [] => NaN
  | _ => fdiv (fsum obs) (of_nat (length obs))
  end.

Definition fsqr (x : float) : float := fmul x x.

(** Sum of squared deviations from the mean, over [n - ddof]. *)
Definition var_obs (ddof : nat) (obs : column) : float :=
  if decide (length obs <= ddof)%nat then NaN
  else
    let m := mean_obs obs in
    fdiv (fsum (map (fun x => fsqr (fsub x m)) obs))
         (of_nat (length obs - ddof)).

(** The rows [i-n+1 .. i] of a column (fewer at the start). *)
Definition window (n i : nat) (c : column) : column :=
  drop (S i - n) (take (S i) c).

(** [c.rolling(window=n).agg()]: with the default [min_periods = n] the
    result is NaN unless the window holds [n] observations. *)
Definition rolling (n : nat) (agg : column -> float) (c : column) : column :=
  imap (fun i _ =>
          let obs := dropna (window n i c) in
          if decide (length obs < n)%nat then NaN else agg obs) c.

(** [np.cumsum]. *)
Fixpoint accumulate_from (f : float -> float -> float) (acc : float) (c : column) : column :=
  match c with
  | [] => []
  | x :: r => let a := f acc x in a :: accumulate_from f a r
  end.

Definition accumulate (f : float -> float -> float) (c : column) : column :=
  match c with
  | [] => []
  | x :: r => x :: accumulate_from f x r
  end.

(** [c.cumsum()] and [c.cummax()] skip NaN: pandas replaces NaN by the
    neutral element, accumulates, and puts NaN back at the same rows. *)
Definition restore_nan (c acc : column) : column :=
  zip_with (fun x a => if is_nan x then NaN else a) c acc.

Definition cumsum (c : column) : column :=
  restore_nan c (accumulate fadd (fillna (Fin 0) c)).

Definition cummax (c : column) : column :=
  restore_nan c (accumulate fmax (fillna NInf c)).

(** Reductions of a Series skip NaN. *)
Definition series_sum (c : column) : float := fsum (dropna c).
Definition series_mean (c : column) : float := mean_obs (dropna c).
Definition series_min (c : column) : float :=
  match dropna c with
  | [] => NaN
  | x :: r => foldl fmin x r
  end.

(** [sort_index]: an insertion sort of the row numbers by their index
    value; a missing index value (NaN) sorts last.  Rows with the same
    index value keep their order here; pandas promises no order for them. *)
Definition index_le (x y : float) : bool :=
  match x, y with
  | _, NaN => true
  | NaN, _ => false
  | _, _ => negb (fltb y x)
  end.

Fixpoint insert_row (x : float * nat) (l : list (float * nat)) : list (float * nat) :=
  match l with
  | [] => [x]
  | y :: r => if index_le (fst x) (fst y) then x :: l else y :: insert_row x r
  end.

Definition argsort (keys : column) : list nat :=
  map snd (foldr insert_row [] (zip keys (seq 0 (length keys)))).

(** The rows of a column in the order [p]; [p] comes from [argsort] on the
    index of the same frame, so each of its entries is a row of the column. *)
Definition reindex (p : list nat) (c : column) : column :=
  map (fun i => default NaN (c !! i)) p.

(* ================================================================== *)
(** ** The libraries behind the program

    numpy's square root and logarithm on finite positive values, the
    Dickey-Fuller test of statsmodels and numpy's [polyfit] of degree 1 are
    not part of the repository: they are parameters.  A library function
    that raises answers [None]. *)

Record library : Type := {
  np_sqrt : Q -> Q;
  np_log : Q -> Q;
  adfuller : column -> option (float * float);
  polyfit : column -> column -> option (float * float)
}.

Section Numerics.

Variable lib : library.

Definition fsqrt (x : float) : float :=
  match x with
  | NaN | NInf => NaN
  | PInf => PInf
  | Fin q => match q ?= 0 with Lt => NaN | _ => Fin (Qred (np_sqrt lib q)) end
  end.

(** [np.log]: minus infinity at zero, NaN below. *)
Definition flog (x : float) : float :=
  match x with
  | NaN | NInf => NaN
  | PInf => PInf
  | Fin q =>
      match q ?= 0 with
      | Lt => NaN
      | Eq => NInf
      | Gt => Fin (Qred (np_log lib q))
      end
  end.

(** [Series.std()] and the rolling [std()]: sample deviation, [ddof=1]. *)
Definition std_obs (obs : column) : float := fsqrt (var_obs 1 obs).

(** [np.std]: population deviation; NaN is not skipped. *)
Definition np_std (c : column) : float :=
  match c with
  | [] => NaN
  | _ => fsqrt (var_obs 0 c)
  end.

End Numerics.

(* ================================================================== *)
(** ** The columns of the back-test

    The columns that [backtest_crush_spread] adds to its frame (lines
    166-214), as functions of the spread column in date order and of the
    strategy parameters. *)

Section Columns.

Variable lib : library.
Variable series : column.
Variable lookback : nat.
Variables entry_z cost_per_trade : float.

(* line 166 *)
Definition mean_col : column := rolling lookback mean_obs series.
(* line 167 *)
Definition std_col : column := rolling lookback (std_obs lib) series.
(* line 170 *)
Definition z_score : column := col_div (col_sub series mean_col) std_col.
(* line 178 *)
Definition signal_init : column := replicate (length series) NaN.
(* line 181 *)
Definition signal_short : column :=
  loc_set (col_gt z_score entry_z) (Fin (-1)) signal_init.
(* line 182 *)
Definition signal_entry : column :=
  loc_set (col_lt z_score (fneg entry_z)) (Fin 1) signal_short.
(* line 187 *)
Definition z_sign : column := map fsign z_score.
(* line 188 *)
Definition cross_zero : list bool :=
  col_lt (col_mul z_sign (shift z_sign)) (Fin 0).
(* line 189 *)
Definition signal : column := loc_set cross_zero (Fin 0) signal_entry.
(* line 192 *)
Definition position : column := fillna (Fin 0) (ffill signal).
(* line 199 *)
Definition price_change : column := diff series.
(* line 203 *)
Definition gross_pnl : column := col_mul (shift position) price_change.
(* line 207 *)
Definition trades : column := map fabs (diff position).
(* line 210 *)
Definition costs : column := map (fun t => fmul t cost_per_trade) trades.
(* line 213 *)
Definition net_pnl : column := col_sub gross_pnl costs.
(* line 214 *)
Definition cumulative_pnl : column := cumsum net_pnl.

End Columns.

(** The metrics of lines 221-238, from the columns they read. *)
Definition sharpe_of (lib : library) (net : column) : float :=
  let daily_mean := series_mean net in
  let daily_std := std_obs lib (dropna net) in
  if fneb daily_std (Fin 0)
  then fmul (fdiv daily_mean daily_std) (fsqrt lib (Fin 252))
  else Fin 0.

Definition max_drawdown_of (cum : column) : float :=
  series_min (col_sub cum (cummax cum)).

(** Line 221: [data['cumulative_pnl'].iloc[-1]]; there is no last row in an
    empty column. *)
Definition total_return (lib : library) (series : column) (lookback : nat)
    (entry_z cost_per_trade : float) : option float :=
  last (cumulative_pnl lib series lookback entry_z cost_per_trade).

(* ================================================================== *)
(** ** Frames, the store and effects

    Every cell of a frame is a float: a date is its count since the epoch
    (as pandas stores a datetime64), a missing date is NaN.  A frame is an
    object of the store; [df.copy()] and [set_index] make new objects, the
    column assignments and [sort_index(inplace=True)] change one in place.
    The order of the columns of a frame is not modelled. *)

Record DataFrame : Type := {
  index : column;
  cols : gmap string column
}.

Definition ref := nat.

(** What a call writes to the console and draws.  The layout calls of
    matplotlib (figure, subplot, title, legend, grid, ylabel,
    tight_layout) read no data and are left out; number formats are not
    modelled. *)
Inductive event : Type :=
  | Text (line : string)
  | Value (label : string) (v : float)
  | Count (label : string) (n : Z)
  | Plot (label : string) (x y : column)
  | FillBetween (x y : column) (base : float)
  | ShowFigure.

(** The exceptions of the program (Python's own and the libraries'),
    followed by the three classes of the specification's taxonomy. *)
Inductive exn : Type :=
  | KeyError (key : string)
  | IndexError
  | ValueError
  | OverflowError
  | ReferenceError
  | LibraryError (fn : string)
  | InvalidParameterError
  | InsufficientDataError
  | NumericDegeneracyError.

Inductive result (A : Type) : Type :=
  | Ok (a : A)
  | Raise (e : exn).
Arguments Ok {A} a.
Arguments Raise {A} e.

Record state : Type := {
  heap : gmap ref DataFrame;
  out : list event
}.

Definition M (A : Type) : Type := state -> result A * state.

Definition ret {A} (a : A) : M A := fun st => (Ok a, st).

Definition raise {A} (e : exn) : M A := fun st => (Raise e, st).

Definition bind {A B} (m : M A) (k : A -> M B) : M B :=
  fun st =>
    match m st with
    | (Ok a, st') => k a st'
    | (Raise e, st') => (Raise e, st')
    end.

Notation "x <- c1 ;; c2" := (bind c1 (fun x => c2))
  (at level 100, c1 at next level, right associativity).
Notation "c1 ;; c2" := (bind c1 (fun _ => c2))
  (at level 100, right associativity).

Definition get_frame (r : ref) : M DataFrame :=
  fun st =>
    match heap st !! r with
    | Some F => (Ok F, st)
    | None => (Raise ReferenceError, st)
    end.

Definition put_frame (r : ref) (F : DataFrame) : M unit :=
  fun st => (Ok tt, {| heap := <[r := F]> (heap st); out := out st |}).

Definition alloc (F : DataFrame) : M ref :=
  fun st =>
    let r := fresh (dom (heap st)) in
    (Ok r, {| heap := <[r := F]> (heap st); out := out st |}).

Definition emit (e : event) : M unit :=
  fun st => (Ok tt, {| heap := heap st; out := out st ++ [e] |}).

(** A call into a library: its exception is not one of the program's. *)
Definition call {A} (fn : string) (answer : option A) : M A :=
  match answer with
  | Some a => ret a
  | None => raise (LibraryError fn)
  end.

(** [df.copy()]: a new frame with the same cells. *)
Definition df_copy (r : ref) : M ref :=
  F <- get_frame r ;; alloc F.

(** [df.set_index(key)]: a new frame, the column [key] becomes its index. *)
Definition set_index (r : ref) (key : string) : M ref :=
  F <- get_frame r ;;
  match cols F !! key with
  | None => raise (KeyError key)
  | Some c => alloc {| index := c; cols := delete key (cols F) |}
  end.

Definition sort_frame (F : DataFrame) : DataFrame :=
  let p := argsort (index F) in
  {| index := reindex p (index F); cols := reindex p <$> cols F |}.

(** [data.sort_index(inplace=True)]. *)
Definition sort_index (r : ref) : M unit :=
  F <- get_frame r ;; put_frame r (sort_frame F).

(** [data[key]]. *)
Definition getitem (r : ref) (key : string) : M column :=
  F <- get_frame r ;;
  match cols F !! key with
  | Some c => ret c
  | None => raise (KeyError key)
  end.

Definition set_col (F : DataFrame) (key : string) (c : column) : DataFrame :=
  {| index := index F; cols := <[key := c]> (cols F) |}.

(** [data[key] = c]; every column assigned by the program has the length
    of the frame, so the length check of pandas is left out. *)
Definition setitem (r : ref) (key : string) (c : column) : M unit :=
  F <- get_frame r ;; put_frame r (set_col F key c).

(** [data[key] = v] for a scalar [v]. *)
Definition setitem_scalar (r : ref) (key : string) (v : float) : M unit :=
  F <- get_frame r ;; put_frame r (set_col F key (replicate (length (index F)) v)).

(** [data.loc[mask, key] = v]. *)
Definition loc_setitem (r : ref) (mask : list bool) (key : string) (v : float) : M unit :=
  c <- getitem r key ;; setitem r key (loc_set mask v c).

(** [data.index]. *)
Definition index_of (r : ref) : M column :=
  F <- get_frame r ;; ret (index F).

(** [c.iloc[-1]]. *)
Definition iloc_last (c : column) : M float :=
  match last c with
  | Some v => ret v
  | None => raise IndexError
  end.

(** [int(x)], truncating toward zero. *)
Definition truncate (q : Q) : Z := Z.quot (Qnum q) (Z.pos (Qden q)).

Definition to_int (x : float) : M Z :=
  match x with
  | Fin q => ret (truncate q)
  | NaN => raise ValueError
  | _ => raise OverflowError
  end.

(** [rolling(window=n)]: pandas refuses a negative window. *)
Definition rolling_window (n : Z) : M nat :=
  if (n <? 0)%Z then raise ValueError else ret (Z.to_nat n).

Section Program.

Variable lib : library.

(** [range(2, 100)]. *)
Definition lags : list nat := seq 2 98.

(** Line 118: [series[lag:]] less [series[:-lag]], both empty when the
    lag reaches the length. *)
Definition lagged_diff (series : column) (lag : nat) : column :=
  col_sub (drop lag series) (take (length series - lag) series).

Definition tau (series : column) : column :=
  map (fun lag => fsqrt lib (np_std lib (lagged_diff series lag))) lags.

(* lines 110-120 *)
Definition calculate_hurst (series : column) : M float :=
  poly <- call "polyfit" (polyfit lib (map (fun lag => flog lib (of_nat lag)) lags)
                                      (map (flog lib) (tau series))) ;;
  ret (fmul (fst poly) (Fin 2)).

(* lines 122-265 *)
Definition backtest_crush_spread (df : ref) (spread_col : string) (lookback : Z)
    (entry_z cost_per_trade : float) : M ref :=
  (* 134 *)
  copy <- df_copy df ;;
  data <- set_index copy "Date" ;;
  (* 135 *)
  sort_index data ;;
  (* 140-151 *)
  emit (Text "--- 1. STATISTICAL VALIDATION ---") ;;
  s <- getitem data spread_col ;;
  adf_result <- call "adfuller" (adfuller lib s) ;;
  let p_value := snd adf_result in
  emit (Value "ADF Statistic" (fst adf_result)) ;;
  emit (Value "P-Value" p_value) ;;
  (if fltb p_value (Fin (5 # 100))
   then emit (Text ">> RESULT: Spread is STATIONARY (Good for StatArb)")
   else emit (Text ">> RESULT: Spread is NON-STATIONARY (Risk of drift)")) ;;
  (* 154-159 *)
  s <- getitem data spread_col ;;
  h_value <- calculate_hurst s ;;
  emit (Value "Hurst Exponent" h_value) ;;
  (if fltb h_value (Fin (1 # 2))
   then emit (Text ">> RESULT: Series is MEAN REVERTING")
   else emit (Text ">> RESULT: Series is Trending or Random Walk")) ;;
  (* 166 *)
  s <- getitem data spread_col ;;
  w <- rolling_window lookback ;;
  setitem data "mean" (rolling w mean_obs s) ;;
  (* 167 *)
  s <- getitem data spread_col ;;
  w <- rolling_window lookback ;;
  setitem data "std" (rolling w (std_obs lib) s) ;;
  (* 170 *)
  s <- getitem data spread_col ;;
  m <- getitem data "mean" ;;
  sd <- getitem data "std" ;;
  setitem data "z_score" (col_div (col_sub s m) sd) ;;
  (* 178 *)
  setitem_scalar data "signal" NaN ;;
  (* 181 *)
  z <- getitem data "z_score" ;;
  loc_setitem data (col_gt z entry_z) "signal" (Fin (-1)) ;;
  (* 182 *)
  z <- getitem data "z_score" ;;
  loc_setitem data (col_lt z (fneg entry_z)) "signal" (Fin 1) ;;
  (* 187-189 *)
  z <- getitem data "z_score" ;;
  let z_sign := map fsign z in
  let cross_zero := col_lt (col_mul z_sign (shift z_sign)) (Fin 0) in
  loc_setitem data cross_zero "signal" (Fin 0) ;;
  (* 192 *)
  sg <- getitem data "signal" ;;
  setitem data "position" (fillna (Fin 0) (ffill sg)) ;;
  (* 199 *)
  s <- getitem data spread_col ;;
  setitem data "price_change" (diff s) ;;
  (* 203 *)
  p <- getitem data "position" ;;
  pc <- getitem data "price_change" ;;
  setitem data "gross_pnl" (col_mul (shift p) pc) ;;
  (* 207 *)
  p <- getitem data "position" ;;
  setitem data "trades" (map fabs (diff p)) ;;
  (* 210 *)
  t <- getitem data "trades" ;;
  setitem data "costs" (map (fun x => fmul x cost_per_trade) t) ;;
  (* 213 *)
  g <- getitem data "gross_pnl" ;;
  c <- getitem data "costs" ;;
  setitem data "net_pnl" (col_sub g c) ;;
  (* 214 *)
  n <- getitem data "net_pnl" ;;
  setitem data "cumulative_pnl" (cumsum n) ;;
  (* 219-221 *)
  emit (Text "--- 3. PERFORMANCE METRICS ---") ;;
  cum <- getitem data "cumulative_pnl" ;;
  total_return <- iloc_last cum ;;
  (* 226-228 *)
  n <- getitem data "net_pnl" ;;
  let sharpe := sharpe_of lib n in
  (* 231-233 *)
  cum <- getitem data "cumulative_pnl" ;;
  let max_drawdown := max_drawdown_of cum in
  (* 235-238 *)
  emit (Value "Total Return ($)" total_return) ;;
  emit (Value "Sharpe Ratio" sharpe) ;;
  emit (Value "Max Drawdown ($)" max_drawdown) ;;
  t <- getitem data "trades" ;;
  total_trades <- to_int (series_sum t) ;;
  emit (Count "Total Trades" total_trades) ;;
  (* 247-249 *)
  idx <- index_of data ;;
  s <- getitem data spread_col ;;
  emit (Plot "Spread" idx s) ;;
  m <- getitem data "mean" ;;
  sd <- getitem data "std" ;;
  emit (Plot "Upper Band" idx (col_add m (map (fmul entry_z) sd))) ;;
  m <- getitem data "mean" ;;
  sd <- getitem data "std" ;;
  emit (Plot "Lower Band" idx (col_sub m (map (fmul entry_z) sd))) ;;
  (* 256-263 *)
  cum <- getitem data "cumulative_pnl" ;;
  emit (Plot "" idx cum) ;;
  emit (FillBetween idx cum (Fin 0)) ;;
  emit ShowFigure ;;
  (* 265 *)
  ret data.

End Program.

(* ================================================================== *)
(** ** Specification-side definitions *)

(** The value one row above row [i]; NaN above row 0. *)
Definition before (c : column) (i : nat) : float :=
  match i with
  | O => NaN
  | S j => default NaN (c !! j)
  end.

(** The most recent value at or before row [i] that is not NaN. *)
Fixpoint last_defined (c : column) (i : nat) : option float :=
  let earlier := match i with O => None | S j => last_defined c j end in
  match c !! i with
  | Some x => if is_nan x then earlier else Some x
  | None => earlier
  end.

Definition is_zero (x : float) : Prop :=
  match x with Fin q => q == 0 | _ => False end.

(** An index in time order: no row is dated after the next one. *)
Definition time_ordered (keys : column) : Prop :=
  forall i x y, keys !! i = Some x -> keys !! S i = Some y -> index_le x y = true.

(** The values a held position can take, and the sizes of a trade. *)
Definition in_positions (x : float) : Prop :=
  x = Fin (-1) \/ x = Fin 0 \/ x = Fin 1.

Definition in_trades (x : float) : Prop :=
  x = Fin 0 \/ x = Fin 1 \/ x = Fin 2.

(** The exceptions a call can end with: the three classes of the
    specification exist nowhere in the program or its libraries. *)
Definition raised_by_program (e : exn) : Prop :=
  match e with
  | InvalidParameterError | InsufficientDataError | NumericDegeneracyError => False
  | _ => True
  end.

(** A computation that leaves the objects of [h0] as they are, returns
    only values that satisfy [Q], and raises only exceptions of the
    program. *)
Definition keeps (h0 : gmap ref DataFrame) {A} (m : M A) (Q : A -> Prop) : Prop :=
  forall st, h0 ⊆ heap st ->
    match m st with
    | (Ok a, st') => h0 ⊆ heap st' /\ Q a
    | (Raise e, st') => h0 ⊆ heap st' /\ raised_by_program e
    end.

(** The columns the program adds to its frame. *)
Definition derived_columns : list string :=
  ["mean"; "std"; "z_score"; "signal"; "position"; "price_change";
   "gross_pnl"; "trades"; "costs"; "net_pnl"; "cumulative_pnl"]%string.


(** The frame a successful call returns and what it writes, from the
    frame [F] it was given: the rows in date order, the columns of [F]
    but 'Date', and the eleven columns of the back-test. *)
Section Outcome.

Variable lib : library.
Variable F : DataFrame.
Variable spread_col : string.
Variable lookback : nat.
Variables entry_z cost_per_trade : float.

Definition date_order : list nat := argsort (default [] (cols F !! "Date"%string)).

Definition sorted_series : column :=
  reindex date_order (default [] (cols F !! spread_col)).

Definition sorted_frame : DataFrame :=
  {| index := reindex date_order (default [] (cols F !! "Date"%string));
     cols := reindex date_order <$> delete "Date"%string (cols F) |}.

Definition result_frame : DataFrame :=
  let s := sorted_series in
  set_col (set_col (set_col (set_col (set_col (set_col (set_col (set_col
  (set_col (set_col (set_col sorted_frame
    "mean" (mean_col s lookback))
    "std" (std_col lib s lookback))
    "z_score" (z_score lib s lookback))
    "signal" (signal lib s lookback entry_z))
    "position" (position lib s lookback entry_z))
    "price_change" (price_change s))
    "gross_pnl" (gross_pnl lib s lookback entry_z))
    "trades" (trades lib s lookback entry_z))
    "costs" (costs lib s lookback entry_z cost_per_trade))
    "net_pnl" (net_pnl lib s lookback entry_z cost_per_trade))
    "cumulative_pnl" (cumulative_pnl lib s lookback entry_z cost_per_trade).

(** The three metrics that are floats, and the count of trades. *)
Definition sharpe : float :=
  sharpe_of lib (net_pnl lib sorted_series lookback entry_z cost_per_trade).

Definition max_drawdown : float :=
  max_drawdown_of (cumulative_pnl lib sorted_series lookback entry_z cost_per_trade).

Definition total_trades : float :=
  series_sum (trades lib sorted_series lookback entry_z).

(** The lines of the validation block, for the answers [adf] and
    [hurst] of the library. *)
Definition validation_report (adf : float * float) (hurst : float) : list event :=
  [ Text "--- 1. STATISTICAL VALIDATION ---";
    Value "ADF Statistic" (fst adf);
    Value "P-Value" (snd adf);
    (if fltb (snd adf) (Fin (5 # 100))
     then Text ">> RESULT: Spread is STATIONARY (Good for StatArb)"
     else Text ">> RESULT: Spread is NON-STATIONARY (Risk of drift)");
    Value "Hurst Exponent" hurst;
    (if fltb hurst (Fin (1 # 2))
     then Text ">> RESULT: Series is MEAN REVERTING"
     else Text ">> RESULT: Series is Trending or Random Walk") ]%string.

Definition metrics_report (total : float) (n_trades : Z) : list event :=
  [ Text "--- 3. PERFORMANCE METRICS ---";
    Value "Total Return ($)" total;
    Value "Sharpe Ratio" sharpe;
    Value "Max Drawdown ($)" max_drawdown;
    Count "Total Trades" n_trades ]%string.

Definition plots : list event :=
  let s := sorted_series in
  let idx := index sorted_frame in
  let m := mean_col s lookback in
  let sd := std_col lib s lookback in
  let cum := cumulative_pnl lib s lookback entry_z cost_per_trade in
  [ Plot "Spread" idx s;
    Plot "Upper Band" idx (col_add m (map (fmul entry_z) sd));
    Plot "Lower Band" idx (col_sub m (map (fmul entry_z) sd));
    Plot "" idx cum;
    FillBetween idx cum (Fin 0);
    ShowFigure ]%string.

End Outcome.

(* ================================================================== *)
(** ** A reference library and sample inputs for concrete runs *)

(** A square root that is exact on squares of rationals and otherwise
    rounds down (to a multiple of 2^-20 over the denominator). *)
Definition sqrt_floor (q : Q) : Q :=
  Z.sqrt (Qnum q * Z.pos (Qden q) * 4 ^ 20) # (Qden q * 2 ^ 20).

(** A logarithm rounded down to sixteenths of a binary digit. *)
Definition log_floor (q : Q) : Q :=
  ((Z.log2 (Qnum q ^ 16 * 2 ^ 64 / Z.pos (Qden q) ^ 16) - 64) * 43321698 # 1000000000).

(** Least squares for a line, in column arithmetic: slope and intercept. *)
Definition least_squares (x y : column) : option (float * float) :=
  let mx := mean_obs x in
  let my := mean_obs y in
  let sxx := fsum (map (fun a => fsqr (fsub a mx)) x) in
  let sxy := fsum (zip_with (fun a b => fmul (fsub a mx) (fsub b my)) x y) in
  let slope := fdiv sxy sxx in
  Some (slope, fsub my (fmul slope mx)).

(** The series that the Dickey-Fuller test of statsmodels refuses with
    an exception: fewer than four rows (none among them), and a series
    whose values are all the same. *)
Definition all_equal (s : column) : bool :=
  match s with
  | [] => true
  | x :: r => forallb (feqb x) r
  end.

Definition adf_refuses (s : column) : bool := (length s <? 4)%nat || all_equal s.

(** The Dickey-Fuller test is not implemented: the reference library
    refuses the series above, and for every other series it answers NaN
    for the statistic and the p-value, which only reach the printed
    diagnostics. *)
Definition ref_lib : library := {|
  np_sqrt := sqrt_floor;
  np_log := log_floor;
  adfuller := fun s => if adf_refuses s then None else Some (NaN, NaN);
  polyfit := least_squares
|}.

Definition floats (l : list Q) : column := map Fin l.

(** A store with one frame [df], as the caller of the example hands it
    over: columns 'Date' and 'Spread', default integer index. *)
Definition frame_of (dates spread : list Q) : DataFrame := {|
  index := map of_nat (seq 0 (length dates));
  cols := <["Date"%string := floats dates]> (<["Spread"%string := floats spread]> ∅)
|}.

Definition store_of (F : DataFrame) : state :=
  {| heap := <[0%nat := F]> ∅; out := [] |}.

(** The series of the specification's concrete scenario (section 8). *)
Definition scenario : list Q :=
  [1; 12 # 10; 8 # 10; 15 # 10; 5 # 10; 11 # 10; 1; 13 # 10; 9 # 10; 1].

(** A z-score that jumps from below zero to above the entry threshold. *)
Definition spike : list Q := [2; 0; 0; 0; 2].

(** A flat stretch: the window of three rows ending at row 2 has zero
    deviation. *)
Definition flat : list Q := [1; 1; 1; 2; 0; 3; 3].

(** Six prices that start with a rise, which a window of two rows turns
    into a short entry at row 1. *)
Definition rise : list Q := [1; 12 # 10; 8 # 10; 15 # 10; 5 # 10; 11 # 10].

(** Three prices too small for their squared deviations to be numbers
    of float64, then three ordinary ones. *)
Definition tiny : list Q := [0; 1 # 10 ^ 200; 2 # 10 ^ 200; 1; 2; 3].

(** Three stores: the scenario on ten consecutive days, six rows out of
    date order, and the five rows of [spike]. *)
Definition scenario_store : state :=
  store_of (frame_of [1; 2; 3; 4; 5; 6; 7; 8; 9; 10] scenario).

Definition unordered_store : state :=
  store_of (frame_of [3; 1; 2; 6; 4; 5] [8 # 10; 1; 12 # 10; 11 # 10; 15 # 10; 5 # 10]).

(** A frame without rows. *)
Definition empty_store : state := store_of (frame_of [] []).

(** The prices of [flat] in a column named 'std'. *)
Definition std_named_store : state :=
  store_of {| index := map of_nat (seq 0 7);
              cols := <["Date"%string := floats [1; 2; 3; 4; 5; 6; 7]]>
                      (<["std"%string := floats flat]> ∅) |}.

Definition spike_store : state := store_of (frame_of [1; 2; 3; 4; 5] spike).

(** A library whose Dickey-Fuller test refuses every series. *)
Definition strict_lib : library := {|
  np_sqrt := sqrt_floor;
  np_log := log_floor;
  adfuller := fun _ => None;
  polyfit := least_squares
|}.

(** A library with the same square root whose tests report a
    stationary, mean-reverting series whenever they answer. *)
Definition keen_lib : library := {|
  np_sqrt := sqrt_floor;
  np_log := fun _ => 0;
  adfuller := fun s => if adf_refuses s then None else Some (Fin (-4), Fin (1 # 100));
  polyfit := fun _ _ => Some (Fin (1 # 5), Fin 0)
|}.

(** A square root for which a value below the least positive number of
    float64, 2^-1074, is zero, as it is for the float64 that holds it. *)
Definition sqrt_underflow (q : Q) : Q :=
  if Qle_bool (1 # 2 ^ 1074) q then sqrt_floor q else 0.

Definition underflow_lib : library := {|
  np_sqrt := sqrt_underflow;
  np_log := log_floor;
  adfuller := fun s => if adf_refuses s then None else Some (NaN, NaN);
  polyfit := least_squares
|}.

(* ================================================================== *)
(** ** The mock data of the example (lines 270-287)

    The draws of [np.random.normal()] are a parameter: [normal k] is the
    draw of round [k] of the loop. *)

Definition mu : float := Fin (3 # 2).
Definition theta : float := Fin (1 # 10).
Definition sigma : float := Fin (1 # 20).

(* line 282: prices[-1] + theta*(mu - prices[-1]) + sigma*np.random.normal() *)
Definition next_price (last eps : float) : float :=
  fadd (fadd last (fmul theta (fsub mu last))) (fmul sigma eps).

(** The prices appended after [last], one for each draw. *)
Fixpoint append_prices (last : float) (draws : column) : column :=
  match draws with
  | [] => []
  | eps :: r => let p := next_price last eps in p :: append_prices p r
  end.

(* lines 279-282; [range(len(dates)-1)] is empty for no date and for one *)
Definition mock_prices (n_dates : nat) (normal : nat -> float) : column :=
  Fin (3 # 2) :: append_prices (Fin (3 # 2)) (map normal (seq 0 (n_dates - 1))).

(* line 284: the constructor refuses columns of different lengths *)
Definition df_mock (dates : column) (normal : nat -> float) : result DataFrame :=
  let prices := mock_prices (length dates) normal in
  if decide (length prices = length dates)
  then Ok {| index := map of_nat (seq 0 (length dates));
             cols := <["Date"%string := dates]> (<["Spread"%string := prices]> ∅) |}
  else Raise ValueError.

(** Draws that alternate between 1 and -1. *)
Definition alternating (k : nat) : float := if Nat.even k then Fin 1 else Fin (-1).

(* ================================================================== *)
(** * Properties *)

(** ** Cells *)

Lemma feq_refl x : feq x x.
Proof. destruct x; simpl; auto. reflexivity. Qed.

Lemma feq_sym x y : feq x y -> feq y x.
Proof. destruct x, y; simpl; auto. intros H; now symmetry. Qed.

Lemma feq_trans x y z : feq x y -> feq y z -> feq x z.
Proof.
  destruct x, y, z; simpl; auto; try contradiction.
  intros H1 H2. now rewrite H1.
Qed.

Lemma fltb_nan_r x : fltb x NaN = false.
Proof. now destruct x. Qed.

Lemma fmul_nan_r x : fmul x NaN = NaN.
Proof. now destruct x. Qed.

Lemma fdiv_nan_r x : fdiv x NaN = NaN.
Proof. now destruct x. Qed.

Lemma fadd_nan_r x : fadd x NaN = NaN.
Proof. now destruct x. Qed.

Lemma fsub_nan_r x : fsub x NaN = NaN.
Proof. now destruct x. Qed.

Lemma fadd_zero_l x : feq (fadd (Fin 0) x) x.
Proof.
  destruct x; simpl; auto. rewrite Qred_correct. ring.
Qed.


Lemma fadd_fin x y : is_fin (fadd x y) = true -> is_fin x = true /\ is_fin y = true.
Proof. destruct x, y; simpl; auto. Qed.

Lemma fmul_fin x y : is_fin (fmul x y) = true -> is_fin x = true /\ is_fin y = true.
Proof.
  destruct x, y; simpl; auto; try discriminate;
    unfold inf_of, sign_mul; simpl;
    try (destruct (q ?= 0); simpl; discriminate).
Qed.

Lemma fneg_fin x : is_fin (fneg x) = is_fin x.
Proof. now destruct x. Qed.

Lemma fsub_fin x y : is_fin (fsub x y) = true -> is_fin x = true /\ is_fin y = true.
Proof.
  unfold fsub. intros H. apply fadd_fin in H. now rewrite fneg_fin in H.
Qed.

(** ** Columns: lengths and rows *)

Lemma length_shift c : length (shift c) = length c.
Proof. unfold shift. rewrite length_take. simpl. lia. Qed.

Lemma shift_lookup c i : (i < length c)%nat -> shift c !! i = Some (before c i).
Proof.
  intros Hi. unfold shift. rewrite lookup_take_lt by done.
  destruct i as [|j]; simpl; [done|].
  destruct (lookup_lt_is_Some_2 c j) as [x Hx]; [lia|]. now rewrite Hx.
Qed.

Lemma before_fmap (f : float -> float) c i :
  f NaN = NaN -> before (map f c) i = f (before c i).
Proof.
  intros Hf. destruct i as [|j]; simpl; [done|].
  change (map f c) with (f <$> c). rewrite list_lookup_fmap.
  now destruct (c !! j).
Qed.

Lemma length_diff c : length (diff c) = length c.
Proof.
  unfold diff, col_sub. rewrite length_zip_with, length_shift. lia.
Qed.

Lemma diff_lookup c i x :
  c !! i = Some x -> diff c !! i = Some (fsub x (before c i)).
Proof.
  intros Hx. unfold diff, col_sub. rewrite lookup_zip_with, Hx. simpl.
  rewrite shift_lookup by (eapply lookup_lt_Some; eauto). done.
Qed.

Lemma length_loc_set mask v c :
  length mask = length c -> length (loc_set mask v c) = length c.
Proof. intros H. unfold loc_set. rewrite length_zip_with. lia. Qed.

Lemma loc_set_lookup mask v c i (m : bool) x :
  mask !! i = Some m -> c !! i = Some x ->
  loc_set mask v c !! i = Some (if m then v else x).
Proof.
  intros Hm Hx. unfold loc_set. rewrite lookup_zip_with, Hm. simpl.
  now rewrite Hx.
Qed.

Lemma col_lt_lookup c v i x : c !! i = Some x -> col_lt c v !! i = Some (fltb x v).
Proof.
  intros Hx. unfold col_lt. change (map ?f c) with (f <$> c).
  now rewrite list_lookup_fmap, Hx.
Qed.

Lemma col_gt_lookup c v i x : c !! i = Some x -> col_gt c v !! i = Some (fgtb x v).
Proof.
  intros Hx. unfold col_gt. change (map ?f c) with (f <$> c).
  now rewrite list_lookup_fmap, Hx.
Qed.

Lemma length_col_lt c v : length (col_lt c v) = length c.
Proof. unfold col_lt. apply length_map. Qed.

Lemma length_col_gt c v : length (col_gt c v) = length c.
Proof. unfold col_gt. apply length_map. Qed.

Lemma length_ffill_from a c : length (ffill_from a c) = length c.
Proof. revert a. induction c as [|x c IH]; intros a; simpl; [done|]. now rewrite IH. Qed.

Lemma length_fillna v c : length (fillna v c) = length c.
Proof. unfold fillna. apply length_map. Qed.

Lemma length_rolling n agg c : length (rolling n agg c) = length c.
Proof. unfold rolling. apply length_imap. Qed.

Lemma length_accumulate_from f a c : length (accumulate_from f a c) = length c.
Proof. revert a. induction c as [|x c IH]; intros a; simpl; [done|]. now rewrite IH. Qed.

Lemma length_accumulate f c : length (accumulate f c) = length c.
Proof. destruct c; simpl; [done|]. now rewrite length_accumulate_from. Qed.

Lemma length_cumsum c : length (cumsum c) = length c.
Proof.
  unfold cumsum, restore_nan.
  rewrite length_zip_with, length_accumulate, length_fillna. lia.
Qed.

(** [ffill] and the most recent defined value. *)

Lemma last_defined_cons x r j :
  last_defined (x :: r) (S j) =
    match last_defined r j with
    | Some y => Some y
    | None => if is_nan x then None else Some x
    end.
Proof.
  induction j as [|k IH].
  - simpl. destruct (r !! 0%nat) as [y|]; [destruct (is_nan y)|]; reflexivity.
  - change (last_defined (x :: r) (S (S k)))
      with (match r !! S k with
            | Some y => if is_nan y then last_defined (x :: r) (S k) else Some y
            | None => last_defined (x :: r) (S k)
            end).
    rewrite IH. simpl.
    destruct (r !! S k) as [y|]; [destruct (is_nan y)|]; reflexivity.
Qed.

Lemma ffill_from_lookup a c i :
  (i < length c)%nat ->
  ffill_from a c !! i = Some (default a (last_defined c i)).
Proof.
  revert a i. induction c as [|x r IH]; intros a i Hi; simpl in Hi; [lia|].
  destruct i as [|j].
  - simpl. now destruct (is_nan x).
  - simpl ffill_from. rewrite lookup_cons_ne_0 by done. simpl pred.
    rewrite IH by lia. rewrite last_defined_cons.
    destruct (last_defined r j); [done|]. now destruct (is_nan x).
Qed.

(** [last_defined] finds a row at or before [i] that is not NaN and has
    only NaN between itself and [i]; it finds none when all rows up to [i]
    are NaN. *)
Lemma last_defined_Some c i x :
  last_defined c i = Some x <->
  exists j, (j <= i)%nat /\ c !! j = Some x /\ is_nan x = false /\
            forall k y, (j < k <= i)%nat -> c !! k = Some y -> is_nan y = true.
Proof.
  induction i as [|i IH].
  - simpl. split.
    + destruct (c !! 0%nat) as [y|] eqn:Hy; [|done].
      destruct (is_nan y) eqn:Hn; [done|]. intros [= <-].
      exists 0%nat. repeat split; auto. intros; lia.
    + intros (j & Hj & Hx & Hn & _). assert (j = 0)%nat as -> by lia.
      now rewrite Hx, Hn.
  - change (last_defined c (S i))
      with (match c !! S i with
            | Some y => if is_nan y then last_defined c i else Some y
            | None => last_defined c i
            end).
    split.
    + destruct (c !! S i) as [y|] eqn:Hy; [destruct (is_nan y) eqn:Hn|].
      * intros H. apply IH in H as (j & Hj & Hx & Hnx & Hbetween).
        exists j. repeat split; auto. intros k y' Hk Hy'.
        destruct (decide (k = S i)) as [->|]; [congruence|].
        apply (Hbetween k); auto. lia.
      * intros [= <-]. exists (S i). repeat split; auto. intros; lia.
      * intros H. apply IH in H as (j & Hj & Hx & Hnx & Hbetween).
        exists j. repeat split; auto. intros k y' Hk Hy'.
        destruct (decide (k = S i)) as [->|]; [congruence|].
        apply (Hbetween k); auto. lia.
    + intros (j & Hj & Hx & Hnx & Hbetween).
      destruct (decide (j = S i)) as [->|Hne].
      * now rewrite Hx, Hnx.
      * assert (Hl : last_defined c i = Some x).
        { apply IH. exists j. repeat split; auto; [lia|].
          intros k y Hk. apply Hbetween. lia. }
        destruct (c !! S i) as [y|] eqn:Hy; [|done].
        rewrite (Hbetween (S i) y); auto. lia.
Qed.

Lemma last_defined_None c i :
  last_defined c i = None <->
  forall k y, (k <= i)%nat -> c !! k = Some y -> is_nan y = true.
Proof.
  induction i as [|i IH].
  - simpl. split.
    + intros H k y Hk Hy. assert (k = 0)%nat as -> by lia. rewrite Hy in H.
      destruct (is_nan y); [done|discriminate].
    + intros H. destruct (c !! 0%nat) as [y|] eqn:Hy; [|done].
      now rewrite (H 0%nat y).
  - change (last_defined c (S i))
      with (match c !! S i with
            | Some y => if is_nan y then last_defined c i else Some y
            | None => last_defined c i
            end).
    split.
    + intros H k y Hk Hy.
      destruct (decide (k = S i)) as [->|Hne].
      * rewrite Hy in H. destruct (is_nan y); [done|discriminate].
      * assert (Hl : last_defined c i = None).
        { destruct (c !! S i) as [y'|]; [destruct (is_nan y')|]; done. }
        apply (proj1 IH Hl k y); [lia | exact Hy].
    + intros H.
      assert (Hl : last_defined c i = None).
      { apply IH. intros k y Hk. apply H. lia. }
      destruct (c !! S i) as [y|] eqn:Hy; [|done].
      now rewrite (H (S i) y).
Qed.

(** [np.cumsum] and the like, row by row. *)

Lemma accumulate_from_lookup f a c i :
  accumulate_from f a c !! i =
    match i with
    | O => f a <$> c !! 0%nat
    | S j => accumulate_from f a c !! j ≫= fun b => f b <$> c !! S j
    end.
Proof.
  revert a i. induction c as [|x r IH]; intros a i.
  - destruct i; reflexivity.
  - destruct i as [|j]; [reflexivity|].
    simpl accumulate_from. rewrite lookup_cons_ne_0 by done. simpl pred.
    rewrite IH. destruct j as [|k]; [reflexivity|].
    rewrite (lookup_cons_ne_0 _ _ (S k)) by done. now simpl pred.
Qed.

Lemma accumulate_lookup_S f c i a x :
  accumulate f c !! i = Some a -> c !! S i = Some x ->
  accumulate f c !! S i = Some (f a x).
Proof.
  destruct c as [|x0 r]; [done|]. simpl. intros Ha Hx.
  rewrite accumulate_from_lookup.
  destruct i as [|j]; simpl in Ha.
  - injection Ha as <-. now rewrite Hx.
  - now rewrite Ha; simpl; rewrite Hx.
Qed.

Lemma accumulate_lookup_0 f c : accumulate f c !! 0%nat = c !! 0%nat.
Proof. now destruct c. Qed.

Lemma fillna_lookup v c i x :
  c !! i = Some x -> fillna v c !! i = Some (if is_nan x then v else x).
Proof.
  intros Hx. unfold fillna. change (map ?f c) with (f <$> c).
  now rewrite list_lookup_fmap, Hx.
Qed.

Lemma cumsum_lookup c i x a :
  c !! i = Some x ->
  accumulate fadd (fillna (Fin 0) c) !! i = Some a ->
  cumsum c !! i = Some (if is_nan x then NaN else a).
Proof.
  intros Hx Ha. unfold cumsum, restore_nan.
  now rewrite lookup_zip_with, Hx; simpl; rewrite Ha.
Qed.

Lemma cumsum_lookup_0 c : cumsum c !! 0%nat = c !! 0%nat.
Proof.
  destruct c as [|x r]; [done|]. simpl. now destruct x.
Qed.

(** After a row that is not NaN the running total grows by the next row. *)
Lemma cumsum_lookup_S c i a b s :
  c !! i = Some a -> is_nan a = false -> c !! S i = Some b ->
  cumsum c !! i = Some s ->
  cumsum c !! S i = Some (fadd s b).
Proof.
  intros Ha Hna Hb Hs.
  destruct (lookup_lt_is_Some_2 (accumulate fadd (fillna (Fin 0) c)) i) as [t Ht].
  { rewrite length_accumulate, length_fillna. eapply lookup_lt_Some; eauto. }
  rewrite (cumsum_lookup c i a t Ha Ht), Hna in Hs. injection Hs as ->.
  erewrite cumsum_lookup; [| exact Hb |].
  2:{ eapply accumulate_lookup_S; [exact Ht|]. apply fillna_lookup. exact Hb. }
  destruct (is_nan b) eqn:Hnb; [|done].
  destruct b; try discriminate. now rewrite fadd_nan_r.
Qed.

(** After a first row that is NaN the running total restarts at zero. *)
Lemma cumsum_lookup_1 c b :
  c !! 0%nat = Some NaN -> c !! 1%nat = Some b ->
  cumsum c !! 1%nat = Some (fadd (Fin 0) b).
Proof.
  intros H0 Hb.
  erewrite cumsum_lookup; [| exact Hb |].
  2:{ eapply accumulate_lookup_S.
      - rewrite accumulate_lookup_0. apply fillna_lookup. exact H0.
      - apply fillna_lookup. exact Hb. }
  simpl. destruct b; reflexivity.
Qed.

Lemma length_window n i c :
  (length (window n i c) <= n)%nat /\ (length (window n i c) <= S i)%nat.
Proof. unfold window. rewrite length_drop, length_take. lia. Qed.

Lemma length_dropna c : (length (dropna c) <= length c)%nat.
Proof. unfold dropna. apply length_filter. Qed.

Lemma rolling_lookup n agg c i x :
  c !! i = Some x ->
  rolling n agg c !! i =
    Some (if decide (length (dropna (window n i c)) < n)%nat then NaN
          else agg (dropna (window n i c))).
Proof. intros Hx. unfold rolling. now rewrite list_lookup_imap, Hx. Qed.

Lemma std_obs_short lib obs : (length obs <= 1)%nat -> std_obs lib obs = NaN.
Proof.
  intros H. unfold std_obs, var_obs. now destruct (decide _).
Qed.

Section ColumnFacts.

Variable lib : library.
Variable series : column.
Variable lookback : nat.
Variables entry_z cost_per_trade : float.

Lemma length_z_score : length (z_score lib series lookback) = length series.
Proof.
  unfold z_score, col_div, col_sub, mean_col, std_col.
  rewrite !length_zip_with, !length_rolling. lia.
Qed.

Lemma length_cross_zero : length (cross_zero lib series lookback) = length series.
Proof.
  unfold cross_zero, z_sign, col_mul.
  rewrite length_col_lt, length_zip_with, length_shift, length_map, length_z_score. lia.
Qed.

Lemma length_signal_short :
  length (signal_short lib series lookback entry_z) = length series.
Proof.
  unfold signal_short, signal_init.
  rewrite length_loc_set; rewrite length_replicate; [done|].
  now rewrite length_col_gt, length_z_score.
Qed.

Lemma length_signal_entry :
  length (signal_entry lib series lookback entry_z) = length series.
Proof.
  unfold signal_entry.
  rewrite length_loc_set; rewrite length_signal_short; [done|].
  now rewrite length_col_lt, length_z_score.
Qed.

Lemma length_signal : length (signal lib series lookback entry_z) = length series.
Proof.
  unfold signal.
  rewrite length_loc_set; rewrite length_signal_entry; [done|].
  now rewrite length_cross_zero.
Qed.

Lemma length_position : length (position lib series lookback entry_z) = length series.
Proof.
  unfold position, ffill. now rewrite length_fillna, length_ffill_from, length_signal.
Qed.

Lemma length_gross_pnl : length (gross_pnl lib series lookback entry_z) = length series.
Proof.
  unfold gross_pnl, col_mul, price_change.
  rewrite length_zip_with, length_shift, length_diff, length_position. lia.
Qed.

Lemma length_trades : length (trades lib series lookback entry_z) = length series.
Proof.
  unfold trades. now rewrite length_map, length_diff, length_position.
Qed.

Lemma length_costs :
  length (costs lib series lookback entry_z cost_per_trade) = length series.
Proof. unfold costs. now rewrite length_map, length_trades. Qed.

Lemma length_net_pnl :
  length (net_pnl lib series lookback entry_z cost_per_trade) = length series.
Proof.
  unfold net_pnl, col_sub.
  rewrite length_zip_with, length_gross_pnl, length_costs. lia.
Qed.

Lemma length_cumulative_pnl :
  length (cumulative_pnl lib series lookback entry_z cost_per_trade) = length series.
Proof. unfold cumulative_pnl. now rewrite length_cumsum, length_net_pnl. Qed.

(** The raw signal of a row, from its z-score and the one above. *)
Lemma signal_lookup i z :
  z_score lib series lookback !! i = Some z ->
  signal lib series lookback entry_z !! i =
    Some (if fltb (fmul (fsign z) (fsign (before (z_score lib series lookback) i))) (Fin 0)
          then Fin 0
          else if fltb z (fneg entry_z) then Fin 1
          else if fgtb z entry_z then Fin (-1)
          else NaN).
Proof.
  intros Hz.
  assert (Hi : (i < length series)%nat).
  { rewrite <- length_z_score. eapply lookup_lt_Some; eauto. }
  assert (Hc : cross_zero lib series lookback !! i =
               Some (fltb (fmul (fsign z) (fsign (before (z_score lib series lookback) i)))
                          (Fin 0))).
  { unfold cross_zero. apply col_lt_lookup.
    unfold col_mul. rewrite lookup_zip_with.
    unfold z_sign. change (map fsign ?l) with (fsign <$> l).
    rewrite list_lookup_fmap, Hz. simpl.
    rewrite shift_lookup by (rewrite length_fmap, length_z_score; done).
    simpl. f_equal. f_equal. apply (before_fmap fsign). done. }
  unfold signal.
  erewrite loc_set_lookup; [| exact Hc |]; [reflexivity|].
  unfold signal_entry.
  erewrite loc_set_lookup; [| apply col_lt_lookup; exact Hz |]; [reflexivity|].
  unfold signal_short.
  erewrite loc_set_lookup; [| apply col_gt_lookup; exact Hz |]; [reflexivity|].
  unfold signal_init. now apply lookup_replicate_2.
Qed.

Lemma signal_values i x :
  signal lib series lookback entry_z !! i = Some x -> x = NaN \/ in_positions x.
Proof.
  intros Hx.
  destruct (lookup_lt_is_Some_2 (z_score lib series lookback) i) as [z Hz].
  { rewrite length_z_score, <- length_signal. eapply lookup_lt_Some; eauto. }
  rewrite (signal_lookup i z Hz) in Hx. injection Hx as <-.
  unfold in_positions.
  repeat match goal with |- context [if ?b then _ else _] => destruct b end; auto.
Qed.

Lemma position_lookup i :
  (i < length series)%nat ->
  position lib series lookback entry_z !! i =
    Some (default (Fin 0) (last_defined (signal lib series lookback entry_z) i)).
Proof.
  intros Hi. unfold position, ffill.
  erewrite fillna_lookup;
    [| apply ffill_from_lookup; rewrite length_signal; exact Hi].
  destruct (last_defined _ i) as [x|] eqn:Hl; [|reflexivity].
  apply last_defined_Some in Hl as (j & _ & _ & Hn & _). simpl. now rewrite Hn.
Qed.

Lemma position_values i p :
  position lib series lookback entry_z !! i = Some p -> in_positions p.
Proof.
  intros Hp.
  assert (Hi : (i < length series)%nat).
  { rewrite <- length_position. eapply lookup_lt_Some; eauto. }
  rewrite position_lookup in Hp by done. injection Hp as <-.
  destruct (last_defined _ i) as [x|] eqn:Hl; simpl.
  - apply last_defined_Some in Hl as (j & _ & Hx & Hn & _).
    destruct (signal_values j x Hx) as [->|]; [discriminate|done].
  - right; left; reflexivity.
Qed.

Lemma z_score_lookup_0 x :
  series !! 0%nat = Some x -> z_score lib series lookback !! 0%nat = Some NaN.
Proof.
  intros Hx. unfold z_score, col_div, col_sub, mean_col, std_col.
  rewrite !lookup_zip_with, !(rolling_lookup _ _ _ _ _ Hx), Hx. simpl.
  destruct (decide _) as [|Hn]; [apply f_equal, fdiv_nan_r|].
  rewrite std_obs_short; [apply f_equal, fdiv_nan_r|].
  pose proof (length_window lookback 0 series).
  pose proof (length_dropna (window lookback 0 series)). lia.
Qed.

Lemma position_lookup_0 x :
  series !! 0%nat = Some x ->
  position lib series lookback entry_z !! 0%nat = Some (Fin 0).
Proof.
  intros Hx.
  assert (H0 : (0 < length series)%nat) by (eapply lookup_lt_Some; eauto).
  rewrite position_lookup by done.
  assert (Hs : signal lib series lookback entry_z !! 0%nat = Some NaN).
  { rewrite (signal_lookup 0 NaN (z_score_lookup_0 x Hx)). simpl.
    unfold fgtb. now rewrite fltb_nan_r. }
  simpl. now rewrite Hs.
Qed.

Lemma trades_lookup_S i p0 p1 :
  position lib series lookback entry_z !! i = Some p0 ->
  position lib series lookback entry_z !! S i = Some p1 ->
  trades lib series lookback entry_z !! S i = Some (fabs (fsub p1 p0)).
Proof.
  intros H0 H1. unfold trades. change (map fabs ?l) with (fabs <$> l).
  rewrite list_lookup_fmap, (diff_lookup _ _ _ H1). simpl. now rewrite H0.
Qed.

Lemma trades_lookup_0 x :
  series !! 0%nat = Some x ->
  trades lib series lookback entry_z !! 0%nat = Some NaN.
Proof.
  intros Hx. unfold trades. change (map fabs ?l) with (fabs <$> l).
  rewrite list_lookup_fmap, (diff_lookup _ _ _ (position_lookup_0 x Hx)).
  reflexivity.
Qed.

Lemma in_trades_flip p0 p1 :
  in_positions p0 -> in_positions p1 -> in_trades (fabs (fsub p1 p0)).
Proof.
  unfold in_positions, in_trades.
  intros [->|[->| ->]] [->|[->| ->]]; vm_compute; auto.
Qed.

Lemma costs_lookup i t :
  trades lib series lookback entry_z !! i = Some t ->
  costs lib series lookback entry_z cost_per_trade !! i = Some (fmul t cost_per_trade).
Proof.
  intros Ht. unfold costs. change (map ?f ?l) with (f <$> l).
  now rewrite list_lookup_fmap, Ht.
Qed.


Lemma gross_pnl_lookup_0 x :
  series !! 0%nat = Some x ->
  gross_pnl lib series lookback entry_z !! 0%nat = Some NaN.
Proof.
  intros Hx. unfold gross_pnl, col_mul, price_change.
  rewrite lookup_zip_with, (diff_lookup _ _ _ Hx).
  rewrite shift_lookup.
  2:{ rewrite length_position. eapply lookup_lt_Some; eauto. }
  reflexivity.
Qed.

Lemma net_pnl_lookup i g c :
  gross_pnl lib series lookback entry_z !! i = Some g ->
  costs lib series lookback entry_z cost_per_trade !! i = Some c ->
  net_pnl lib series lookback entry_z cost_per_trade !! i = Some (fsub g c).
Proof.
  intros Hg Hc. unfold net_pnl, col_sub.
  now rewrite lookup_zip_with, Hg; simpl; rewrite Hc.
Qed.

Lemma net_pnl_lookup_0 x :
  series !! 0%nat = Some x ->
  net_pnl lib series lookback entry_z cost_per_trade !! 0%nat = Some NaN.
Proof.
  intros Hx.
  erewrite net_pnl_lookup;
    [| apply (gross_pnl_lookup_0 x Hx)
     | apply costs_lookup, (trades_lookup_0 x Hx)].
  reflexivity.
Qed.

End ColumnFacts.

(** ** Causality: the first rows of a result come from the first rows of
    the input *)

Lemma take_map (f : float -> float) k c : take k (map f c) = map f (take k c).
Proof. symmetry. apply (fmap_take f). Qed.

Lemma take_col_lt k c v : take k (col_lt c v) = col_lt (take k c) v.
Proof. unfold col_lt. symmetry. apply (fmap_take (fun x => fltb x v)). Qed.

Lemma take_col_gt k c v : take k (col_gt c v) = col_gt (take k c) v.
Proof. unfold col_gt. symmetry. apply (fmap_take (fun x => fgtb x v)). Qed.

Lemma take_shift k c : take k (shift c) = shift (take k c).
Proof.
  unfold shift. rewrite take_take, length_take.
  destruct (k `min` length c)%nat as [|m] eqn:Hm; [done|].
  simpl. f_equal. rewrite take_take. f_equal. lia.
Qed.

Lemma take_diff k c : take k (diff c) = diff (take k c).
Proof. unfold diff, col_sub. now rewrite zip_with_take, take_shift. Qed.

Lemma take_loc_set k mask v c :
  take k (loc_set mask v c) = loc_set (take k mask) v (take k c).
Proof. unfold loc_set. apply zip_with_take. Qed.

Lemma take_ffill_from k a c : take k (ffill_from a c) = ffill_from a (take k c).
Proof.
  revert k a. induction c as [|x r IH]; intros k a; [now destruct k|].
  destruct k as [|k]; [done|]. simpl. now rewrite IH.
Qed.

Lemma take_fillna k v c : take k (fillna v c) = fillna v (take k c).
Proof. unfold fillna. apply take_map. Qed.

Lemma take_rolling k n agg c : take k (rolling n agg c) = rolling n agg (take k c).
Proof.
  apply list_eq. intros i. unfold rolling.
  rewrite lookup_take, !list_lookup_imap, lookup_take.
  destruct (decide (i < k)%nat) as [Hi|]; [|done].
  unfold window. rewrite take_take. now replace (S i `min` k)%nat with (S i) by lia.
Qed.

Lemma take_accumulate_from k f a c :
  take k (accumulate_from f a c) = accumulate_from f a (take k c).
Proof.
  revert k a. induction c as [|x r IH]; intros k a; [now destruct k|].
  destruct k as [|k]; [done|]. simpl. now rewrite IH.
Qed.

Lemma take_accumulate k f c : take k (accumulate f c) = accumulate f (take k c).
Proof.
  destruct c as [|x r]; [now destruct k|].
  destruct k as [|k]; [done|]. simpl. now rewrite take_accumulate_from.
Qed.

Lemma take_cumsum k c : take k (cumsum c) = cumsum (take k c).
Proof.
  unfold cumsum, restore_nan. now rewrite zip_with_take, take_accumulate, take_fillna.
Qed.

Section Causality.

Variable lib : library.
Variable series : column.
Variable lookback : nat.
Variables entry_z cost_per_trade : float.
Variable k : nat.

Lemma take_z_score :
  take k (z_score lib series lookback) = z_score lib (take k series) lookback.
Proof.
  unfold z_score, col_div, col_sub, mean_col, std_col.
  now rewrite !zip_with_take, !take_rolling.
Qed.

Lemma take_signal :
  take k (signal lib series lookback entry_z) = signal lib (take k series) lookback entry_z.
Proof.
  unfold signal, signal_entry, signal_short, signal_init, cross_zero, z_sign, col_mul.
  rewrite !take_loc_set, !take_col_lt, take_col_gt, zip_with_take, take_shift,
    !take_map, !take_z_score, take_replicate, length_take.
  reflexivity.
Qed.

Lemma take_position :
  take k (position lib series lookback entry_z)
  = position lib (take k series) lookback entry_z.
Proof.
  unfold position, ffill. now rewrite take_fillna, take_ffill_from, take_signal.
Qed.

Lemma take_gross_pnl :
  take k (gross_pnl lib series lookback entry_z)
  = gross_pnl lib (take k series) lookback entry_z.
Proof.
  unfold gross_pnl, col_mul, price_change.
  now rewrite zip_with_take, take_shift, take_diff, take_position.
Qed.

Lemma take_trades :
  take k (trades lib series lookback entry_z)
  = trades lib (take k series) lookback entry_z.
Proof. unfold trades. now rewrite take_map, take_diff, take_position. Qed.

Lemma take_net_pnl :
  take k (net_pnl lib series lookback entry_z cost_per_trade)
  = net_pnl lib (take k series) lookback entry_z cost_per_trade.
Proof.
  unfold net_pnl, col_sub, costs.
  now rewrite zip_with_take, take_gross_pnl, take_map, take_trades.
Qed.

Lemma take_cumulative_pnl :
  take k (cumulative_pnl lib series lookback entry_z cost_per_trade)
  = cumulative_pnl lib (take k series) lookback entry_z cost_per_trade.
Proof. unfold cumulative_pnl. now rewrite take_cumsum, take_net_pnl. Qed.

End Causality.

(** A row of a column is decided by the rows of the input up to it. *)
Lemma prefix_determines (col : column -> column) (s1 s2 : column) i :
  (forall k s, take k (col s) = col (take k s)) ->
  take (S i) s1 = take (S i) s2 ->
  col s1 !! i = col s2 !! i.
Proof.
  intros Hcol Heq.
  rewrite <- (lookup_take_lt (col s1) (S i) i) by lia.
  rewrite <- (lookup_take_lt (col s2) (S i) i) by lia.
  now rewrite !Hcol, Heq.
Qed.

(** ** Counts as cells *)

Lemma of_nat_positive k : (0 < k)%nat -> (inject_Z (Z.of_nat k) ?= 0) = Gt.
Proof.
  intros Hk. apply Qgt_alt. change 0 with (inject_Z 0).
  rewrite <- Zlt_Qlt. lia.
Qed.

(* ================================================================== *)
(** ** Effects of a call: what every path preserves *)

Section Keeps.

Variable h0 : gmap ref DataFrame.

Lemma keeps_ret {A} (a : A) (Q : A -> Prop) : Q a -> keeps h0 (ret a) Q.
Proof. intros Ha st Hst. simpl. auto. Qed.

Lemma keeps_raise {A} e (Q : A -> Prop) : raised_by_program e -> keeps h0 (raise e) Q.
Proof. intros He st Hst. simpl. auto. Qed.

Lemma keeps_bind {A B} (m : M A) (k : A -> M B) (Q : A -> Prop) (R : B -> Prop) :
  keeps h0 m Q -> (forall a, Q a -> keeps h0 (k a) R) -> keeps h0 (bind m k) R.
Proof.
  intros Hm Hk st Hst. unfold bind. specialize (Hm st Hst).
  destruct (m st) as [[a|e] st']; [|exact Hm].
  destruct Hm as [Hst' Ha]. exact (Hk a Ha st' Hst').
Qed.

Lemma keeps_if {A} (b : bool) (m1 m2 : M A) Q :
  keeps h0 m1 Q -> keeps h0 m2 Q -> keeps h0 (if b then m1 else m2) Q.
Proof. now destruct b. Qed.

Lemma keeps_get_frame r : keeps h0 (get_frame r) (fun _ => True).
Proof.
  intros st Hst. unfold get_frame. destruct (heap st !! r); simpl; auto.
Qed.

Lemma keeps_put_frame r F :
  h0 !! r = None -> keeps h0 (put_frame r F) (fun _ => True).
Proof.
  intros Hr st Hst. simpl. split; [|done]. now apply insert_subseteq_r.
Qed.

Lemma keeps_alloc F : keeps h0 (alloc F) (fun r => h0 !! r = None).
Proof.
  intros st Hst. simpl.
  assert (Hfresh : h0 !! fresh (dom (heap st)) = None).
  { destruct (h0 !! fresh (dom (heap st))) as [G|] eqn:HG; [|done].
    exfalso. apply (is_fresh (dom (heap st))).
    apply elem_of_dom. exists G. eapply lookup_weaken; eauto. }
  split; [|done]. now apply insert_subseteq_r.
Qed.

Lemma keeps_emit e : keeps h0 (emit e) (fun _ => True).
Proof. intros st Hst. simpl. auto. Qed.

Lemma keeps_call {A} fn (answer : option A) : keeps h0 (call fn answer) (fun _ => True).
Proof.
  destruct answer; simpl; [now apply keeps_ret|now apply keeps_raise].
Qed.

Lemma keeps_df_copy r : keeps h0 (df_copy r) (fun r' => h0 !! r' = None).
Proof.
  unfold df_copy. eapply keeps_bind; [apply keeps_get_frame|].
  intros F _. apply keeps_alloc.
Qed.

Lemma keeps_set_index r key : keeps h0 (set_index r key) (fun r' => h0 !! r' = None).
Proof.
  unfold set_index. eapply keeps_bind; [apply keeps_get_frame|].
  intros F _. destruct (cols F !! key); [apply keeps_alloc|now apply keeps_raise].
Qed.

Lemma keeps_sort_index r : h0 !! r = None -> keeps h0 (sort_index r) (fun _ => True).
Proof.
  intros Hr. unfold sort_index. eapply keeps_bind; [apply keeps_get_frame|].
  intros F _. now apply keeps_put_frame.
Qed.

Lemma keeps_getitem r key : keeps h0 (getitem r key) (fun _ => True).
Proof.
  unfold getitem. eapply keeps_bind; [apply keeps_get_frame|].
  intros F _. destruct (cols F !! key); [now apply keeps_ret|now apply keeps_raise].
Qed.

Lemma keeps_setitem r key c : h0 !! r = None -> keeps h0 (setitem r key c) (fun _ => True).
Proof.
  intros Hr. unfold setitem. eapply keeps_bind; [apply keeps_get_frame|].
  intros F _. now apply keeps_put_frame.
Qed.

Lemma keeps_setitem_scalar r key v :
  h0 !! r = None -> keeps h0 (setitem_scalar r key v) (fun _ => True).
Proof.
  intros Hr. unfold setitem_scalar. eapply keeps_bind; [apply keeps_get_frame|].
  intros F _. now apply keeps_put_frame.
Qed.

Lemma keeps_loc_setitem r mask key v :
  h0 !! r = None -> keeps h0 (loc_setitem r mask key v) (fun _ => True).
Proof.
  intros Hr. unfold loc_setitem. eapply keeps_bind; [apply keeps_getitem|].
  intros c _. now apply keeps_setitem.
Qed.

Lemma keeps_index_of r : keeps h0 (index_of r) (fun _ => True).
Proof.
  unfold index_of. eapply keeps_bind; [apply keeps_get_frame|].
  intros F _. now apply keeps_ret.
Qed.

Lemma keeps_iloc_last c : keeps h0 (iloc_last c) (fun _ => True).
Proof.
  unfold iloc_last. destruct (last c); [now apply keeps_ret|now apply keeps_raise].
Qed.

Lemma keeps_to_int x : keeps h0 (to_int x) (fun _ => True).
Proof.
  destruct x; simpl; (now apply keeps_ret) || (now apply keeps_raise).
Qed.

Lemma keeps_rolling_window n : keeps h0 (rolling_window n) (fun _ => True).
Proof.
  unfold rolling_window. destruct (n <? 0)%Z; [now apply keeps_raise|now apply keeps_ret].
Qed.

Lemma keeps_calculate_hurst lib series :
  keeps h0 (calculate_hurst lib series) (fun _ => True).
Proof.
  unfold calculate_hurst. eapply keeps_bind; [apply keeps_call|].
  intros p _. now apply keeps_ret.
Qed.

End Keeps.

Create HintDb keeps.
#[local] Hint Resolve keeps_get_frame keeps_emit keeps_call keeps_df_copy keeps_set_index
  keeps_sort_index keeps_getitem keeps_setitem keeps_setitem_scalar keeps_loc_setitem
  keeps_index_of keeps_iloc_last keeps_to_int keeps_rolling_window
  keeps_calculate_hurst keeps_if : keeps.

Ltac keeps_step :=
  lazymatch goal with
  | |- keeps _ (bind _ _) _ =>
      eapply keeps_bind; [solve [eauto with keeps] | intros ? ?]
  | |- keeps _ (ret _) _ => apply keeps_ret
  end.

(** Whatever the frame, the parameters and the answers of the libraries,
    a call touches no object that existed before it, returns a new
    object, and raises none of the exceptions of the specification. *)
Lemma backtest_keeps lib h0 df spread_col lookback entry_z cost_per_trade :
  keeps h0 (backtest_crush_spread lib df spread_col lookback entry_z cost_per_trade)
        (fun data => h0 !! data = None).
Proof.
  unfold backtest_crush_spread.
  repeat keeps_step. assumption.
Qed.

(* ================================================================== *)
(** ** Effects of a call: the path that returns *)

Lemma bind_ok {A B} (m : M A) (k : A -> M B) st a st' :
  m st = (Ok a, st') -> bind m k st = k a st'.
Proof. intros H. unfold bind. now rewrite H. Qed.

Section Steps.

Variable h : gmap ref DataFrame.
Variable data : ref.
Variable G : DataFrame.
Variable o : list event.

Lemma run_getitem key c :
  cols G !! key = Some c ->
  getitem data key {| heap := <[data := G]> h; out := o |}
  = (Ok c, {| heap := <[data := G]> h; out := o |}).
Proof.
  intros Hc. unfold getitem, bind, get_frame. cbn [heap out].
  now rewrite lookup_insert_eq, Hc.
Qed.

Lemma run_setitem key c :
  setitem data key c {| heap := <[data := G]> h; out := o |}
  = (Ok tt, {| heap := <[data := set_col G key c]> h; out := o |}).
Proof.
  unfold setitem, bind, get_frame, put_frame. cbn [heap out].
  rewrite lookup_insert_eq. cbn [heap out]. now rewrite insert_insert_eq.
Qed.

Lemma run_setitem_scalar key v :
  setitem_scalar data key v {| heap := <[data := G]> h; out := o |}
  = (Ok tt, {| heap := <[data := set_col G key (replicate (length (index G)) v)]> h;
               out := o |}).
Proof.
  unfold setitem_scalar, bind, get_frame, put_frame. cbn [heap out].
  rewrite lookup_insert_eq. cbn [heap out]. now rewrite insert_insert_eq.
Qed.

Lemma run_loc_setitem mask key v c :
  cols G !! key = Some c ->
  loc_setitem data mask key v {| heap := <[data := G]> h; out := o |}
  = (Ok tt, {| heap := <[data := set_col G key (loc_set mask v c)]> h; out := o |}).
Proof.
  intros Hc. unfold loc_setitem.
  erewrite bind_ok; [|apply run_getitem, Hc]. apply run_setitem.
Qed.

Lemma run_sort_index :
  sort_index data {| heap := <[data := G]> h; out := o |}
  = (Ok tt, {| heap := <[data := sort_frame G]> h; out := o |}).
Proof.
  unfold sort_index, bind, get_frame, put_frame. cbn [heap out].
  rewrite lookup_insert_eq. cbn [heap out]. now rewrite insert_insert_eq.
Qed.

Lemma run_index_of :
  index_of data {| heap := <[data := G]> h; out := o |}
  = (Ok (index G), {| heap := <[data := G]> h; out := o |}).
Proof.
  unfold index_of, bind, get_frame. cbn [heap out]. now rewrite lookup_insert_eq.
Qed.

Lemma run_emit e :
  emit e {| heap := <[data := G]> h; out := o |}
  = (Ok tt, {| heap := <[data := G]> h; out := o ++ [e] |}).
Proof. reflexivity. Qed.

End Steps.

Lemma run_rolling_window n st :
  (0 <= n)%Z -> rolling_window n st = (Ok (Z.to_nat n), st).
Proof.
  intros Hn. unfold rolling_window.
  now destruct (Z.ltb_spec n 0); [lia|].
Qed.

Lemma set_col_twice F key c1 c2 :
  set_col (set_col F key c1) key c2 = set_col F key c2.
Proof. unfold set_col. simpl. now rewrite insert_insert_eq. Qed.

Lemma cols_set_col_eq F key c : cols (set_col F key c) !! key = Some c.
Proof. apply lookup_insert_eq. Qed.

Lemma cols_set_col_ne F key key' c :
  key <> key' -> cols (set_col F key c) !! key' = cols F !! key'.
Proof. intros H. now apply lookup_insert_ne. Qed.

(** The trades of a run add up to a finite number, so [int] does not
    raise on their sum. *)
Lemma fsum_in_trades_fin a l :
  Forall in_trades l -> exists q, foldl fadd (Fin a) l = Fin q.
Proof.
  revert a. induction l as [|x r IH]; intros a Hl; simpl; [eauto|].
  inversion Hl as [|? ? Hx Hr]; subst.
  destruct Hx as [->|[->| ->]]; simpl; apply IH, Hr.
Qed.

Lemma total_trades_fin lib F spread_col lookback entry_z :
  exists q, total_trades lib F spread_col lookback entry_z = Fin q.
Proof.
  unfold total_trades, series_sum, fsum. apply fsum_in_trades_fin.
  apply Forall_forall. intros t Ht.
  unfold dropna in Ht. apply list_elem_of_filter in Ht as [Hn Ht].
  apply list_elem_of_lookup in Ht as [i Hi].
  assert (Hlen : (i < length (sorted_series F spread_col))%nat).
  { rewrite <- (length_trades lib _ lookback entry_z). eapply lookup_lt_Some; eauto. }
  destruct (lookup_lt_is_Some_2 _ _ Hlen) as [x Hx].
  destruct i as [|j].
  - rewrite (trades_lookup_0 _ _ _ _ _ Hx) in Hi. injection Hi as <-. discriminate.
  - destruct (lookup_lt_is_Some_2 (position lib (sorted_series F spread_col) lookback entry_z) j)
      as [p0 Hp0]; [rewrite length_position; lia|].
    destruct (lookup_lt_is_Some_2 (position lib (sorted_series F spread_col) lookback entry_z) (S j))
      as [p1 Hp1]; [rewrite length_position; lia|].
    rewrite (trades_lookup_S _ _ _ _ _ _ _ Hp0 Hp1) in Hi. injection Hi as <-.
    apply in_trades_flip; eapply position_values; eauto.
Qed.

Lemma length_reindex p c : length (reindex p c) = length p.
Proof. unfold reindex. apply length_map. Qed.

Lemma bind_raise {A B} (m : M A) (k : A -> M B) st e st' :
  m st = (Raise e, st') -> bind m k st = (Raise e, st').
Proof. intros H. unfold bind. now rewrite H. Qed.

Lemma index_set_col F key c : index (set_col F key c) = index F.
Proof. reflexivity. Qed.

Lemma run_emit_if (b : bool) e1 e2 h data G o :
  (if b then emit e1 else emit e2) {| heap := <[data := G]> h; out := o |}
  = (Ok tt, {| heap := <[data := G]> h; out := o ++ [if b then e1 else e2] |}).
Proof. now destruct b. Qed.

Ltac solve_col :=
  repeat first
    [ rewrite cols_set_col_eq
    | rewrite cols_set_col_ne by (done || congruence) ];
  try reflexivity.

Ltac run_step :=
  erewrite bind_ok;
  [| first
       [ apply run_getitem; solve_col; eassumption
       | apply run_setitem
       | apply run_setitem_scalar
       | apply run_loc_setitem; solve_col; eassumption
       | apply run_emit
       | apply run_emit_if
       | apply run_index_of ] ].

Ltac fold_columns lib s n entry_z cost_per_trade :=
  try change (rolling n mean_obs s) with (mean_col s n);
  try change (rolling n (std_obs lib) s) with (std_col lib s n);
  try change (col_div (col_sub s (mean_col s n)) (std_col lib s n))
        with (z_score lib s n);
  try change (replicate (length s) NaN) with (signal_init s);
  try change (loc_set (col_gt (z_score lib s n) entry_z) (Fin (-1)) (signal_init s))
        with (signal_short lib s n entry_z);
  try change (loc_set (col_lt (z_score lib s n) (fneg entry_z)) (Fin 1)
                (signal_short lib s n entry_z))
        with (signal_entry lib s n entry_z);
  try change (loc_set (col_lt (col_mul (map fsign (z_score lib s n))
                                 (shift (map fsign (z_score lib s n)))) (Fin 0))
                (Fin 0) (signal_entry lib s n entry_z))
        with (signal lib s n entry_z);
  try change (fillna (Fin 0) (ffill (signal lib s n entry_z)))
        with (position lib s n entry_z);
  try change (diff s) with (price_change s);
  try change (col_mul (shift (position lib s n entry_z)) (price_change s))
        with (gross_pnl lib s n entry_z);
  try change (map fabs (diff (position lib s n entry_z)))
        with (trades lib s n entry_z);
  try change (map (fun x => fmul x cost_per_trade) (trades lib s n entry_z))
        with (costs lib s n entry_z cost_per_trade);
  try change (col_sub (gross_pnl lib s n entry_z) (costs lib s n entry_z cost_per_trade))
        with (net_pnl lib s n entry_z cost_per_trade);
  try change (cumsum (net_pnl lib s n entry_z cost_per_trade))
        with (cumulative_pnl lib s n entry_z cost_per_trade).

(** What a call does when the frame has its two columns and the library
    calls answer: a negative window raises [ValueError] after the
    validation block was printed; an empty frame raises [IndexError] at
    [iloc[-1]], after all columns were computed; otherwise the call
    returns a new frame [result_frame] and appends the three blocks of
    output. *)
Lemma backtest_run lib df spread_col lookback entry_z cost_per_trade st F dates spread
    adf pf :
  heap st !! df = Some F ->
  cols F !! "Date"%string = Some dates ->
  cols F !! spread_col = Some spread ->
  spread_col <> "Date"%string ->
  spread_col ∉ derived_columns ->
  adfuller lib (sorted_series F spread_col) = Some adf ->
  polyfit lib (map (fun lag => flog lib (of_nat lag)) lags)
              (map (flog lib) (tau lib (sorted_series F spread_col))) = Some pf ->
  exists n_trades,
    total_trades lib F spread_col (Z.to_nat lookback) entry_z = Fin n_trades /\
    let copy := fresh (dom (heap st)) in
    let data := fresh (dom (<[copy := F]> (heap st))) in
    let n := Z.to_nat lookback in
    let validation := validation_report adf (fmul (fst pf) (Fin 2)) in
    backtest_crush_spread lib df spread_col lookback entry_z cost_per_trade st
    = if (lookback <? 0)%Z
      then (Raise ValueError,
            {| heap := <[data := sorted_frame F]> (<[copy := F]> (heap st));
               out := out st ++ validation |})
      else
        match total_return lib (sorted_series F spread_col) n entry_z cost_per_trade with
        | None =>
            (Raise IndexError,
             {| heap := <[data := result_frame lib F spread_col n entry_z cost_per_trade]>
                          (<[copy := F]> (heap st));
                out := out st ++ validation ++ [Text "--- 3. PERFORMANCE METRICS ---"] |})
        | Some total =>
            (Ok data,
             {| heap := <[data := result_frame lib F spread_col n entry_z cost_per_trade]>
                          (<[copy := F]> (heap st));
                out := out st ++ validation
                       ++ metrics_report lib F spread_col n entry_z cost_per_trade
                            total (truncate n_trades)
                       ++ plots lib F spread_col n entry_z cost_per_trade |})
        end.
Proof.
  intros Hdf Hdates Hspread Hne Hfresh Hadf Hpf.
  destruct (total_trades_fin lib F spread_col (Z.to_nat lookback) entry_z) as [q Hq].
  exists q. split; [exact Hq|]. intros copy data n validation.
  unfold derived_columns in Hfresh. rewrite !not_elem_of_cons in Hfresh.
  destruct Hfresh as (N1 & N2 & N3 & N4 & N5 & N6 & N7 & N8 & N9 & N10 & N11 & _).
  assert (Hsorted : cols (sorted_frame F) !! spread_col = Some (sorted_series F spread_col)).
  { unfold sorted_frame, sorted_series. simpl.
    rewrite lookup_fmap, lookup_delete_ne by done. now rewrite Hspread. }
  assert (Hrows : length (index (sorted_frame F)) = length (sorted_series F spread_col)).
  { unfold sorted_frame, sorted_series, date_order. simpl. rewrite Hdates, Hspread. simpl.
    now rewrite !length_reindex. }
  unfold backtest_crush_spread.
  (* 134-135 *)
  erewrite bind_ok.
  2:{ unfold df_copy, bind, get_frame, alloc. rewrite Hdf. reflexivity. }
  fold copy.
  erewrite bind_ok.
  2:{ unfold set_index, bind, get_frame, alloc. cbn [heap out].
      rewrite lookup_insert_eq, Hdates. cbn [heap out]. reflexivity. }
  fold data.
  erewrite bind_ok; [|apply run_sort_index].
  replace (sort_frame _) with (sorted_frame F).
  2:{ unfold sort_frame, sorted_frame, date_order. simpl. now rewrite Hdates. }
  set (s := sorted_series F spread_col) in *.
  (* 140-151 *)
  repeat run_step.
  erewrite bind_ok; [|rewrite Hadf; reflexivity].
  (* 154-159 *)
  repeat run_step.
  erewrite bind_ok; [|unfold calculate_hurst; rewrite Hpf; reflexivity].
  repeat run_step.
  (* 166: the window *)
  destruct (Z.ltb_spec lookback 0) as [Hneg|Hpos].
  { erewrite bind_raise;
      [|unfold rolling_window; now destruct (Z.ltb_spec lookback 0); [|lia]].
    unfold validation, validation_report. rewrite <- !app_assoc. reflexivity. }
  assert (Hwin : forall st', rolling_window lookback st' = (Ok n, st')).
  { intros st'. now apply run_rolling_window. }
  (* 166-214 *)
  repeat
    (first [run_step | erewrite bind_ok; [|apply Hwin]];
     rewrite ?index_set_col, ?Hrows, ?set_col_twice;
     fold_columns lib s n entry_z cost_per_trade).
  (* 219-221 *)
  unfold total_return.
  destruct (last (cumulative_pnl lib s n entry_z cost_per_trade)) as [total|] eqn:Htotal.
  2:{ erewrite bind_raise; [|unfold iloc_last; now rewrite Htotal].
      unfold validation, validation_report. rewrite <- !app_assoc. reflexivity. }
  erewrite bind_ok; [|unfold iloc_last; rewrite Htotal; reflexivity].
  (* 226-238 *)
  repeat run_step.
  erewrite bind_ok.
  2:{ change (series_sum _)
        with (total_trades lib F spread_col (Z.to_nat lookback) entry_z).
      rewrite Hq. reflexivity. }
  (* 247-263 *)
  repeat run_step.
  unfold ret. rewrite !index_set_col.
  f_equal. f_equal.
  unfold validation, validation_report, metrics_report, plots.
  rewrite <- !app_assoc. reflexivity.
Qed.

(* ================================================================== *)
(** * The claims *)

(** ** Raw signal, held position, trades *)

(** C1 (as the code has it).  Line 189 runs after lines 181-182, so at a
    row where the z-score crosses zero the raw signal is the exit 0, also
    when an entry condition holds at that row.  Entries are recorded at
    the rows without a crossing: +1 below [-entry_z], otherwise -1 above
    [entry_z], otherwise no signal. *)
Theorem signal_exit_overrides_entry lib series lookback entry_z i z :
  z_score lib series lookback !! i = Some z ->
  let crossing :=
    fltb (fmul (fsign z) (fsign (before (z_score lib series lookback) i))) (Fin 0) in
  cross_zero lib series lookback !! i = Some crossing /\
  signal lib series lookback entry_z !! i =
    Some (if crossing then Fin 0
          else if fltb z (fneg entry_z) then Fin 1
          else if fgtb z entry_z then Fin (-1)
          else NaN) /\
  (crossing = true -> signal lib series lookback entry_z !! i = Some (Fin 0)).
Proof.
  intros Hz crossing.
  pose proof (signal_lookup lib series lookback entry_z i z Hz) as Hs.
  fold crossing in Hs. split; [|split; [exact Hs|]].
  - unfold cross_zero. apply col_lt_lookup.
    unfold col_mul. rewrite lookup_zip_with.
    unfold z_sign. change (map fsign ?l) with (fsign <$> l).
    rewrite list_lookup_fmap, Hz. simpl.
    rewrite shift_lookup.
    + simpl. do 2 f_equal. now apply (before_fmap fsign).
    + rewrite length_fmap. eapply lookup_lt_Some; eauto.
  - intros Hc. now rewrite Hs, Hc.
Qed.


(** C6.  The held position of a row is the most recent raw signal at or
    before it that is not NaN, and 0 when there is none; it is -1, 0 or 1. *)
Theorem position_holds_last_signal lib series lookback entry_z i :
  (i < length series)%nat ->
  position lib series lookback entry_z !! i
    = Some (default (Fin 0) (last_defined (signal lib series lookback entry_z) i)) /\
  (forall j x,
     (j <= i)%nat -> signal lib series lookback entry_z !! j = Some x ->
     is_nan x = false ->
     (forall k y, (j < k <= i)%nat ->
        signal lib series lookback entry_z !! k = Some y -> is_nan y = true) ->
     position lib series lookback entry_z !! i = Some x) /\
  ((forall k y, (k <= i)%nat ->
      signal lib series lookback entry_z !! k = Some y -> is_nan y = true) ->
   position lib series lookback entry_z !! i = Some (Fin 0)) /\
  (exists p, position lib series lookback entry_z !! i = Some p /\ in_positions p).
Proof.
  intros Hi. pose proof (position_lookup lib series lookback entry_z i Hi) as Hp.
  split; [exact Hp|]. split; [|split].
  - intros j x Hj Hx Hn Hbetween. rewrite Hp.
    assert (Hl : last_defined (signal lib series lookback entry_z) i = Some x).
    { apply last_defined_Some. exists j. auto. }
    now rewrite Hl.
  - intros Hnone. rewrite Hp.
    assert (Hl : last_defined (signal lib series lookback entry_z) i = None).
    { now apply last_defined_None. }
    now rewrite Hl.
  - eexists. split; [exact Hp|]. eapply position_values. exact Hp.
Qed.

(** C7 (as the code has it).  The trade of row 0 is NaN; below row 0 it
    is the absolute change of the position, one of 0, 1 and 2; the cost of
    a row is its trade times [cost_per_trade]. *)
Theorem trades_and_costs lib series lookback entry_z cost_per_trade :
  (forall x, series !! 0%nat = Some x ->
     trades lib series lookback entry_z !! 0%nat = Some NaN) /\
  (forall i p0 p1,
     position lib series lookback entry_z !! i = Some p0 ->
     position lib series lookback entry_z !! S i = Some p1 ->
     trades lib series lookback entry_z !! S i = Some (fabs (fsub p1 p0)) /\
     in_trades (fabs (fsub p1 p0))) /\
  (forall i t,
     trades lib series lookback entry_z !! i = Some t ->
     costs lib series lookback entry_z cost_per_trade !! i = Some (fmul t cost_per_trade)).
Proof.
  split; [|split].
  - intros x. apply trades_lookup_0.
  - intros i p0 p1 H0 H1. split; [now apply trades_lookup_S|].
    apply in_trades_flip; eapply position_values; eauto.
  - intros i t. apply costs_lookup.
Qed.

(** C8 (as the code has it).  Net PnL is gross PnL less cost.  The
    cumulative PnL starts as the net PnL of row 0, which is NaN; [cumsum]
    skips NaN, so row 1 holds the net PnL of row 1 and not NaN plus it;
    after a row whose net PnL is a number, the cumulative PnL grows by the
    net PnL of the next row.  The total return is the last cumulative
    PnL. *)
Theorem net_and_cumulative_pnl lib series lookback entry_z cost_per_trade :
  let net := net_pnl lib series lookback entry_z cost_per_trade in
  let cum := cumulative_pnl lib series lookback entry_z cost_per_trade in
  (forall i g c,
     gross_pnl lib series lookback entry_z !! i = Some g ->
     costs lib series lookback entry_z cost_per_trade !! i = Some c ->
     net !! i = Some (fsub g c)) /\
  cum !! 0%nat = net !! 0%nat /\
  (forall x, series !! 0%nat = Some x -> net !! 0%nat = Some NaN) /\
  (forall b, net !! 1%nat = Some b ->
     cum !! 1%nat = Some (fadd (Fin 0) b) /\ feq (fadd (Fin 0) b) b) /\
  (forall i a b s,
     net !! i = Some a -> is_nan a = false -> net !! S i = Some b ->
     cum !! i = Some s -> cum !! S i = Some (fadd s b)) /\
  total_return lib series lookback entry_z cost_per_trade
    = cum !! pred (length series).
Proof.
  intros net cum. repeat split.
  - intros i g c. apply net_pnl_lookup.
  - apply cumsum_lookup_0.
  - intros x. apply net_pnl_lookup_0.
  - apply cumsum_lookup_1; [|exact H].
    destruct (lookup_lt_is_Some_2 series 0) as [x Hx].
    { apply lookup_lt_Some in H. unfold net in H. rewrite length_net_pnl in H. lia. }
    now apply (net_pnl_lookup_0 lib series lookback entry_z cost_per_trade x).
  - apply fadd_zero_l.
  - intros i a b s. apply cumsum_lookup_S.
  - unfold total_return. rewrite last_lookup. fold cum. unfold cum.
    now rewrite length_cumulative_pnl.
Qed.

(** A signal that is not NaN is the position of its row. *)
Lemma position_of_signal lib series lookback entry_z i v :
  signal lib series lookback entry_z !! i = Some v -> is_nan v = false ->
  position lib series lookback entry_z !! i = Some v.
Proof.
  intros Hv Hn.
  assert (Hi : (i < length series)%nat).
  { rewrite <- (length_signal lib series lookback entry_z). eapply lookup_lt_Some; eauto. }
  rewrite position_lookup by done.
  assert (Hl : last_defined (signal lib series lookback entry_z) i = Some v).
  { apply last_defined_Some. exists i. split; [lia|]. split; [exact Hv|].
    split; [exact Hn|]. intros k y Hk. lia. }
  now rewrite Hl.
Qed.

(** C9 (as the code has it).  At a row where the rolling deviation is
    zero nothing is raised, and the z-score is the deviation of the price
    from the rolling mean divided by zero.  It is NaN only when that
    deviation is zero as well: then the row has no raw signal and the
    position of the row above is held.  When the deviation is above zero
    the z-score is plus infinity and the row records a signal, the exit 0
    at a crossing and the short entry -1 otherwise, which is the position
    of the row; below zero it is minus infinity, with the long entry +1. *)
Theorem zero_std_divides_the_deviation lib series lookback entry_z i x m s :
  series !! i = Some x ->
  mean_col series lookback !! i = Some m ->
  std_col lib series lookback !! i = Some s ->
  is_zero s ->
  let z := fdiv (fsub x m) s in
  let crossing :=
    fltb (fmul (fsign z) (fsign (before (z_score lib series lookback) i))) (Fin 0) in
  z_score lib series lookback !! i = Some z /\
  (is_zero (fsub x m) ->
     z = NaN /\
     signal lib series lookback entry_z !! i = Some NaN /\
     exists j, i = S j /\
       position lib series lookback entry_z !! i
       = position lib series lookback entry_z !! j) /\
  (forall q e, fsub x m = Fin q -> 0 < q -> entry_z = Fin e ->
     z = PInf /\
     signal lib series lookback entry_z !! i = Some (if crossing then Fin 0 else Fin (-1)) /\
     position lib series lookback entry_z !! i
     = Some (if crossing then Fin 0 else Fin (-1))) /\
  (forall q e, fsub x m = Fin q -> q < 0 -> entry_z = Fin e ->
     z = NInf /\
     signal lib series lookback entry_z !! i = Some (if crossing then Fin 0 else Fin 1) /\
     position lib series lookback entry_z !! i
     = Some (if crossing then Fin 0 else Fin 1)).
Proof.
  intros Hx Hm Hstd Hs z crossing.
  assert (Hz : z_score lib series lookback !! i = Some z).
  { unfold z_score, col_div, col_sub. rewrite !lookup_zip_with, Hx. simpl.
    rewrite Hm. simpl. now rewrite Hstd. }
  pose proof (signal_lookup lib series lookback entry_z i z Hz) as Hsig.
  fold crossing in Hsig.
  destruct s as [| | |s']; try contradiction. simpl in Hs.
  assert (Hcmp : (s' ?= 0) = Eq) by now apply Qeq_alt.
  split; [exact Hz|]. split; [|split].
  - intros Hd. destruct (fsub x m) as [| | |q] eqn:Hq; try contradiction. simpl in Hd.
    assert (Hnan : z = NaN).
    { assert (Hc : (q ?= 0) = Eq) by (apply Qeq_alt; exact Hd).
      unfold z, fdiv. now rewrite Hcmp, Hc. }
    assert (Hnone : signal lib series lookback entry_z !! i = Some NaN).
    { rewrite Hsig. unfold crossing. rewrite Hnan. simpl.
      unfold fgtb. now rewrite fltb_nan_r. }
    split; [exact Hnan|]. split; [exact Hnone|].
    assert (Hi : (i < length series)%nat) by (eapply lookup_lt_Some; eauto).
    destruct i as [|j].
    + exfalso. unfold std_col in Hstd. rewrite (rolling_lookup _ _ _ _ _ Hx) in Hstd.
      destruct (decide _); [discriminate|].
      rewrite std_obs_short in Hstd; [discriminate|].
      pose proof (length_window lookback 0 series).
      pose proof (length_dropna (window lookback 0 series)). lia.
    + exists j. split; [done|].
      rewrite !position_lookup by lia. do 2 f_equal.
      change (last_defined (signal lib series lookback entry_z) (S j))
        with (match signal lib series lookback entry_z !! S j with
              | Some y => if is_nan y then last_defined (signal lib series lookback entry_z) j
                          else Some y
              | None => last_defined (signal lib series lookback entry_z) j
              end).
      now rewrite Hnone.
  - intros q e Hq Hpos ->.
    assert (Hinf : z = PInf).
    { assert (Hc : (q ?= 0) = Gt) by (apply Qgt_alt; exact Hpos).
      unfold z. rewrite Hq. unfold fdiv. now rewrite Hcmp, Hc. }
    assert (Hv : signal lib series lookback (Fin e) !! i
                 = Some (if crossing then Fin 0 else Fin (-1))).
    { rewrite Hsig, Hinf. reflexivity. }
    split; [exact Hinf|]. split; [exact Hv|].
    apply position_of_signal; [exact Hv|]. now destruct crossing.
  - intros q e Hq Hneg ->.
    assert (Hinf : z = NInf).
    { assert (Hc : (q ?= 0) = Lt) by (apply Qlt_alt; exact Hneg).
      unfold z. rewrite Hq. unfold fdiv. now rewrite Hcmp, Hc. }
    assert (Hv : signal lib series lookback (Fin e) !! i
                 = Some (if crossing then Fin 0 else Fin 1)).
    { rewrite Hsig, Hinf. reflexivity. }
    split; [exact Hinf|]. split; [exact Hv|].
    apply position_of_signal; [exact Hv|]. now destruct crossing.
Qed.

(** *** Concrete runs of the columns *)

(** C1, counterexample.  With a window of 4 on the series 2, 0, 0, 0, 2
    the z-score goes from -1/2 at row 3 to 3/2 at row 4: an entry (above
    [entry_z] = 1) and a crossing at the same row.  The raw signal of row
    4 is 0, not -1. *)
Lemma entry_and_exit_at_one_row :
  z_score ref_lib (floats spike) 4 !! 3%nat = Some (Fin (-1 # 2)) /\
  z_score ref_lib (floats spike) 4 !! 4%nat = Some (Fin (3 # 2)) /\
  fgtb (Fin (3 # 2)) (Fin 1) = true /\
  cross_zero ref_lib (floats spike) 4 !! 4%nat = Some true /\
  signal ref_lib (floats spike) 4 (Fin 1) !! 4%nat = Some (Fin 0) /\
  Fin 0 <> Fin (-1) /\ Fin 0 <> Fin 1.
Proof. repeat split; try (vm_compute; reflexivity); discriminate. Qed.

Lemma signal_exit_overrides_entry_witness :
  z_score ref_lib (floats spike) 4 !! 4%nat = Some (Fin (3 # 2)) /\
  signal ref_lib (floats spike) 4 (Fin 1) !! 4%nat = Some (Fin 0).
Proof.
  assert (Hz : z_score ref_lib (floats spike) 4 !! 4%nat = Some (Fin (3 # 2)))
    by (vm_compute; reflexivity).
  split; [exact Hz|].
  destruct (signal_exit_overrides_entry ref_lib (floats spike) 4 (Fin 1) 4 (Fin (3 # 2)) Hz)
    as (_ & _ & H).
  apply H. vm_compute. reflexivity.
Defined.


Lemma position_holds_last_signal_witness :
  (7 < length (floats scenario))%nat /\
  signal ref_lib (floats scenario) 3 (Fin 1) !! 7%nat = Some (Fin (-1)) /\
  position ref_lib (floats scenario) 3 (Fin 1) !! 7%nat = Some (Fin (-1)) /\
  position ref_lib (floats scenario) 3 (Fin 1) !! 1%nat = Some (Fin 0).
Proof.
  assert (H7 : (7 < length (floats scenario))%nat) by (vm_compute; lia).
  assert (H1 : (1 < length (floats scenario))%nat) by (vm_compute; lia).
  assert (Hs : signal ref_lib (floats scenario) 3 (Fin 1) !! 7%nat = Some (Fin (-1)))
    by (vm_compute; reflexivity).
  split; [exact H7|]. split; [exact Hs|]. split.
  - destruct (position_holds_last_signal ref_lib (floats scenario) 3 (Fin 1) 7 H7)
      as (_ & Hlast & _ & _).
    apply (Hlast 7%nat); [lia | exact Hs | reflexivity | intros; lia].
  - destruct (position_holds_last_signal ref_lib (floats scenario) 3 (Fin 1) 1 H1)
      as (Hp & _ & _ & _).
    rewrite Hp. vm_compute. reflexivity.
Defined.

(** C7, counterexample.  The trade of row 0 is NaN, which is none of 0,
    1 and 2. *)
Lemma trade_of_first_row :
  trades ref_lib (floats scenario) 3 (Fin 1) !! 0%nat = Some NaN /\
  ~ in_trades NaN.
Proof.
  split; [vm_compute; reflexivity|].
  intros [H|[H|H]]; discriminate.
Qed.

Lemma trades_and_costs_witness :
  trades ref_lib (floats scenario) 3 (Fin 1) !! 0%nat = Some NaN /\
  trades ref_lib (floats scenario) 3 (Fin 1) !! 8%nat = Some (Fin 1) /\
  costs ref_lib (floats scenario) 3 (Fin 1) (Fin (1 # 50)) !! 8%nat = Some (Fin (1 # 50)).
Proof.
  destruct (trades_and_costs ref_lib (floats scenario) 3 (Fin 1) (Fin (1 # 50)))
    as (H0 & Hrow & Hcost).
  assert (Ht : trades ref_lib (floats scenario) 3 (Fin 1) !! 8%nat = Some (Fin 1)).
  { destruct (Hrow 7%nat (Fin (-1)) (Fin 0)) as [Ht _];
      [vm_compute; reflexivity | vm_compute; reflexivity | exact Ht]. }
  split; [apply (H0 (Fin 1)); reflexivity|]. split; [exact Ht|].
  rewrite (Hcost 8%nat (Fin 1) Ht). vm_compute. reflexivity.
Defined.

(** C8, counterexample.  On the six prices 1, 1.2, 0.8, 1.5, 0.5, 1.1
    with a window of 2, [entry_z] = 1/2 and a cost of 1/50, the cumulative
    PnL is NaN at row 0 and -1/50 at row 1, while NaN plus the net PnL of
    row 1 is NaN. *)
Lemma cumulative_pnl_restarts :
  cumulative_pnl ref_lib (floats rise) 2 (Fin (1 # 2)) (Fin (1 # 50)) !! 0%nat = Some NaN /\
  net_pnl ref_lib (floats rise) 2 (Fin (1 # 2)) (Fin (1 # 50)) !! 1%nat
    = Some (Fin (-1 # 50)) /\
  cumulative_pnl ref_lib (floats rise) 2 (Fin (1 # 2)) (Fin (1 # 50)) !! 1%nat
    = Some (Fin (-1 # 50)) /\
  fadd NaN (Fin (-1 # 50)) = NaN /\
  Fin (-1 # 50) <> NaN.
Proof. repeat split; try (vm_compute; reflexivity); discriminate. Qed.

Lemma net_and_cumulative_pnl_witness :
  cumulative_pnl ref_lib (floats scenario) 3 (Fin 1) (Fin (1 # 50)) !! 8%nat
    = Some (fadd (Fin (-1 # 50)) (Fin (19 # 50))) /\
  total_return ref_lib (floats scenario) 3 (Fin 1) (Fin (1 # 50)) = Some (Fin (9 # 25)).
Proof.
  destruct (net_and_cumulative_pnl ref_lib (floats scenario) 3 (Fin 1) (Fin (1 # 50)))
    as (_ & _ & _ & _ & Hstep & Htotal).
  split.
  - apply (Hstep 7%nat (Fin (-1 # 50)) (Fin (19 # 50)) (Fin (-1 # 50)));
      [vm_compute; reflexivity | reflexivity | vm_compute; reflexivity
      | vm_compute; reflexivity].
  - rewrite Htotal. vm_compute. reflexivity.
Defined.

(** C9, counterexample.  The window 0, 1e-200, 2e-200 has a variance
    of 1e-400, which is zero to a square root of float64: the deviation
    of row 2 is zero, its z-score is plus infinity and the row records a
    short entry.  And with the prices in a column named 'std', line 167
    overwrites them: at row 2 of the flat series the 'std' column is
    zero, the z-score is [(0 - 1) / 0], minus infinity, and the row
    records a long entry. *)
Lemma zero_std_records_an_entry :
  let run := backtest_crush_spread ref_lib 0%nat "std" 3 (Fin 1) (Fin (1 # 50))
               std_named_store in
  let column key := heap (snd run) !! 2%nat ≫= fun G => cols G !! key ≫= fun c => c !! 2%nat in
  std_col underflow_lib (floats tiny) 3 !! 2%nat = Some (Fin 0) /\
  z_score underflow_lib (floats tiny) 3 !! 2%nat = Some PInf /\
  signal underflow_lib (floats tiny) 3 (Fin 1) !! 2%nat = Some (Fin (-1)) /\
  position underflow_lib (floats tiny) 3 (Fin 1) !! 2%nat = Some (Fin (-1)) /\
  fst run = Ok 2%nat /\
  column "std"%string = Some (Fin 0) /\
  column "z_score"%string = Some NInf /\
  column "signal"%string = Some (Fin 1) /\
  column "position"%string = Some (Fin 1).
Proof. intros run column. repeat split; vm_compute; reflexivity. Qed.

Lemma zero_std_divides_the_deviation_witness :
  z_score ref_lib (floats flat) 3 !! 2%nat = Some NaN /\
  signal ref_lib (floats flat) 3 (Fin 1) !! 2%nat = Some NaN /\
  position ref_lib (floats flat) 3 (Fin 1) !! 2%nat
  = position ref_lib (floats flat) 3 (Fin 1) !! 1%nat.
Proof.
  destruct (zero_std_divides_the_deviation ref_lib (floats flat) 3 (Fin 1) 2
              (Fin 1) (Fin 1) (Fin 0)) as (Hz & Hzero & _);
    [ reflexivity | vm_compute; reflexivity | vm_compute; reflexivity | reflexivity | ].
  destruct Hzero as (Hnan & Hsig & j & Hj & Hpos); [vm_compute; reflexivity|].
  injection Hj as <-.
  split; [rewrite Hz; f_equal; exact Hnan|]. split; [exact Hsig | exact Hpos].
Defined.

(** ** A call as a whole *)

Lemma length_insert_row x l : length (insert_row x l) = S (length l).
Proof.
  induction l as [|y r IH]; simpl; [done|].
  destruct (index_le x.1 y.1); simpl; [done|]. now rewrite IH.
Qed.

Lemma length_argsort keys : length (argsort keys) = length keys.
Proof.
  unfold argsort. rewrite length_map.
  assert (H : forall l : list (float * nat), length (foldr insert_row [] l) = length l).
  { induction l as [|x l IH]; simpl; [done|]. now rewrite length_insert_row, IH. }
  rewrite H, length_zip, length_seq. lia.
Qed.

(** On an index in time order [sort_index] moves no row. *)
Lemma time_ordered_tail x keys : time_ordered (x :: keys) -> time_ordered keys.
Proof. intros H i a b Ha Hb. exact (H (S i) a b Ha Hb). Qed.

Lemma sort_rows_ordered keys k :
  time_ordered keys ->
  foldr insert_row [] (zip keys (seq k (length keys))) = zip keys (seq k (length keys)).
Proof.
  revert k. induction keys as [|x r IH]; intros k Hord; [done|].
  simpl. rewrite (IH (S k) (time_ordered_tail _ _ Hord)).
  destruct r as [|y r']; [done|]. simpl.
  now rewrite (Hord 0%nat x y eq_refl eq_refl).
Qed.

Lemma argsort_ordered keys : time_ordered keys -> argsort keys = seq 0 (length keys).
Proof.
  intros Hord. unfold argsort. rewrite (sort_rows_ordered keys 0 Hord).
  change (map snd ?l) with (snd <$> l). apply snd_zip. rewrite length_seq. lia.
Qed.

Lemma reindex_seq c : reindex (seq 0 (length c)) c = c.
Proof.
  apply list_eq. intros i. unfold reindex.
  change (map ?f ?l) with (f <$> l). rewrite list_lookup_fmap.
  destruct (c !! i) as [x|] eqn:Hx.
  - rewrite (lookup_seq_lt 0 (length c) i); [|eapply lookup_lt_Some; eauto].
    simpl. now rewrite Hx.
  - rewrite lookup_seq_ge; [done|]. now apply lookup_ge_None.
Qed.

Lemma sorted_series_ordered F spread_col dates spread :
  cols F !! "Date"%string = Some dates ->
  cols F !! spread_col = Some spread ->
  length spread = length dates ->
  time_ordered dates ->
  sorted_series F spread_col = spread.
Proof.
  intros Hd Hs Hlen Hord. unfold sorted_series, date_order. rewrite Hd, Hs. simpl.
  rewrite (argsort_ordered dates Hord), <- Hlen. apply reindex_seq.
Qed.

Lemma sorted_series_empty F spread_col dates :
  cols F !! "Date"%string = Some dates ->
  sorted_series F spread_col = [] <-> dates = [].
Proof.
  intros Hd. unfold sorted_series, date_order. rewrite Hd. simpl.
  rewrite <- !length_zero_iff_nil, length_reindex, length_argsort. done.
Qed.

Lemma total_return_None lib series lookback entry_z cost_per_trade :
  total_return lib series lookback entry_z cost_per_trade = None <-> series = [].
Proof.
  unfold total_return. rewrite last_None, <- !length_zero_iff_nil.
  now rewrite length_cumulative_pnl.
Qed.

Lemma dom_result_frame lib F spread_col lookback entry_z cost_per_trade :
  dom (cols (result_frame lib F spread_col lookback entry_z cost_per_trade))
  = dom (cols F) ∖ {["Date"%string]} ∪ list_to_set derived_columns.
Proof.
  unfold result_frame, set_col, sorted_frame. cbn [cols].
  rewrite !dom_insert_L, dom_fmap_L, dom_delete_L. unfold derived_columns.
  cbn [list_to_set foldr]. apply set_eq. intros x.
  rewrite !elem_of_union, !elem_of_singleton, elem_of_empty. tauto.
Qed.

(** Each of the eleven columns has one value per row of the frame: the
    assignments of the program fit, as the length check of pandas asks. *)
Lemma derived_columns_fit lib F spread_col lookback entry_z cost_per_trade key c :
  key ∈ derived_columns ->
  cols (result_frame lib F spread_col lookback entry_z cost_per_trade) !! key = Some c ->
  length c = length (index (result_frame lib F spread_col lookback entry_z cost_per_trade)).
Proof.
  intros Hin.
  assert (Hrows : length (index (result_frame lib F spread_col lookback entry_z
                                   cost_per_trade))
                  = length (sorted_series F spread_col)).
  { unfold result_frame, sorted_frame, sorted_series. rewrite !index_set_col.
    cbn [index]. now rewrite !length_reindex. }
  rewrite Hrows. unfold derived_columns in Hin.
  repeat (apply elem_of_cons in Hin as [-> | Hin]);
    [ .. | now apply elem_of_nil in Hin ];
    unfold result_frame; solve_col; intros [= <-];
    unfold mean_col, std_col, price_change;
    rewrite ?length_rolling, ?length_diff, ?length_z_score, ?length_signal,
      ?length_position, ?length_gross_pnl, ?length_trades, ?length_costs,
      ?length_net_pnl, ?length_cumulative_pnl;
    reflexivity.
Qed.

(** C10.  A call changes no object that was in the store before it, the
    frame it was given among them: the columns are added to a new object,
    the one it returns. *)
Theorem backtest_leaves_input_unchanged lib df spread_col lookback entry_z cost_per_trade st :
  let run := backtest_crush_spread lib df spread_col lookback entry_z cost_per_trade st in
  heap st ⊆ heap (snd run) /\
  heap (snd run) !! df = heap st !! df /\
  (forall data, fst run = Ok data -> heap st !! data = None).
Proof.
  intros run.
  pose proof (backtest_keeps lib (heap st) df spread_col lookback entry_z cost_per_trade st
                (reflexivity _)) as H.
  fold run in H.
  assert (Hsub : heap st ⊆ heap run.2).
  { destruct run as [[data|e] st']; simpl in *; tauto. }
  split; [exact Hsub|]. split.
  - destruct (heap st !! df) as [F|] eqn:HF.
    + eapply lookup_weaken; eauto.
    + subst run. unfold backtest_crush_spread, bind at 1, df_copy, bind, get_frame.
      now rewrite HF.
  - intros data Hd. destruct run as [[data'|e] st']; simpl in *; [|discriminate].
    injection Hd as ->. tauto.
Qed.

(** When the Dickey-Fuller test refuses the series, the call ends at
    line 143 with the header of the validation block printed. *)
Lemma run_adfuller_refuses lib df spread_col lookback entry_z cost_per_trade st F dates
    spread :
  heap st !! df = Some F ->
  cols F !! "Date"%string = Some dates ->
  cols F !! spread_col = Some spread ->
  spread_col <> "Date"%string ->
  adfuller lib (sorted_series F spread_col) = None ->
  let run := backtest_crush_spread lib df spread_col lookback entry_z cost_per_trade st in
  fst run = Raise (LibraryError "adfuller") /\
  out (snd run) = out st ++ [Text "--- 1. STATISTICAL VALIDATION ---"].
Proof.
  intros Hdf Hdates Hspread Hne Hadf run. unfold run, backtest_crush_spread.
  erewrite bind_ok.
  2:{ unfold df_copy, bind, get_frame, alloc. rewrite Hdf. reflexivity. }
  erewrite bind_ok.
  2:{ unfold set_index, bind, get_frame, alloc. cbn [heap out].
      rewrite lookup_insert_eq, Hdates. cbn [heap out]. reflexivity. }
  erewrite bind_ok; [|apply run_sort_index].
  erewrite bind_ok; [|apply run_emit].
  erewrite bind_ok.
  2:{ apply run_getitem. unfold sort_frame. cbn [cols index].
      rewrite lookup_fmap, lookup_delete_ne by done. rewrite Hspread. reflexivity. }
  assert (Hs : sorted_series F spread_col = reindex (argsort dates) spread).
  { unfold sorted_series, date_order. now rewrite Hdates, Hspread. }
  rewrite Hs in Hadf.
  erewrite bind_raise; [| rewrite Hadf; reflexivity ].
  split; reflexivity.
Qed.

(** C2 (as the code has it).  The program validates nothing and never
    raises [InvalidParameterError] (nor any exception of the
    specification).  Given a frame with a 'Date' and a spread column:
    when the Dickey-Fuller test refuses the series, as statsmodels does
    for no rows, for fewer than four and for a constant series, the call
    ends with the exception of the library, after the frame was copied
    and sorted and the header was printed; when the library calls answer,
    a negative window raises [ValueError] from [rolling], after the
    validation block was printed, and every other call on at least one
    row returns, whatever [entry_z] and [cost_per_trade] are (zero and
    negative included), for a window of 0 or 1 as well, and in any order
    of the dates: the rows are sorted, not refused. *)
Theorem backtest_does_not_validate lib df spread_col lookback entry_z cost_per_trade st :
  let run := backtest_crush_spread lib df spread_col lookback entry_z cost_per_trade st in
  (forall e, fst run = Raise e -> raised_by_program e) /\
  (forall F dates spread,
     heap st !! df = Some F ->
     cols F !! "Date"%string = Some dates ->
     cols F !! spread_col = Some spread ->
     spread_col <> "Date"%string ->
     (adfuller lib (sorted_series F spread_col) = None ->
        fst run = Raise (LibraryError "adfuller") /\
        out (snd run) = out st ++ [Text "--- 1. STATISTICAL VALIDATION ---"]) /\
     (forall adf pf,
        spread_col ∉ derived_columns ->
        adfuller lib (sorted_series F spread_col) = Some adf ->
        polyfit lib (map (fun lag => flog lib (of_nat lag)) lags)
                    (map (flog lib) (tau lib (sorted_series F spread_col))) = Some pf ->
        let validation := validation_report adf (fmul (fst pf) (Fin 2)) in
        ((lookback < 0)%Z ->
           fst run = Raise ValueError /\ out (snd run) = out st ++ validation) /\
        ((0 <= lookback)%Z -> dates <> [] ->
           exists data,
             fst run = Ok data /\
             heap (snd run) !! data
             = Some (result_frame lib F spread_col (Z.to_nat lookback) entry_z
                       cost_per_trade)))).
Proof.
  intros run. split.
  - intros e He.
    pose proof (backtest_keeps lib (heap st) df spread_col lookback entry_z cost_per_trade st
                  (reflexivity _)) as H.
    fold run in H. destruct run as [[data|e'] st']; simpl in *; [discriminate|].
    injection He as ->. tauto.
  - intros F dates spread Hdf Hdates Hspread Hne. split.
    { intros Hadf.
      exact (run_adfuller_refuses lib df spread_col lookback entry_z cost_per_trade st F
               dates spread Hdf Hdates Hspread Hne Hadf). }
    intros adf pf Hfresh Hadf Hpf validation.
    destruct (backtest_run lib df spread_col lookback entry_z cost_per_trade st F dates
                spread adf pf Hdf Hdates Hspread Hne Hfresh Hadf Hpf) as (q & _ & Hrun).
    cbv zeta in Hrun. fold run in Hrun. fold validation in Hrun.
    split.
    + intros Hneg. destruct (Z.ltb_spec lookback 0); [|lia]. now rewrite Hrun.
    + intros Hpos Hrows. destruct (Z.ltb_spec lookback 0); [lia|].
      destruct (total_return lib _ _ _ _) as [total|] eqn:Htotal.
      * eexists. rewrite Hrun. simpl. split; [reflexivity|]. apply lookup_insert_eq.
      * exfalso. apply total_return_None in Htotal.
        now apply (sorted_series_empty F spread_col dates Hdates) in Htotal.
Qed.

(** C3 (as the code has it).  A call that returns hands back one object,
    a new frame: the rows in date order with the columns of the input but
    'Date' and the eleven columns of the back-test.  The total return, the
    Sharpe ratio, the maximal drawdown and the number of trades are not
    returned: they are printed, between the validation block and the
    plots. *)
Theorem backtest_returns_frame_prints_metrics lib df spread_col lookback entry_z
    cost_per_trade st F dates spread adf pf :
  heap st !! df = Some F ->
  cols F !! "Date"%string = Some dates ->
  cols F !! spread_col = Some spread ->
  spread_col <> "Date"%string ->
  spread_col ∉ derived_columns ->
  adfuller lib (sorted_series F spread_col) = Some adf ->
  polyfit lib (map (fun lag => flog lib (of_nat lag)) lags)
              (map (flog lib) (tau lib (sorted_series F spread_col))) = Some pf ->
  (0 <= lookback)%Z ->
  dates <> [] ->
  let run := backtest_crush_spread lib df spread_col lookback entry_z cost_per_trade st in
  let n := Z.to_nat lookback in
  let result := result_frame lib F spread_col n entry_z cost_per_trade in
  exists data total n_trades,
    fst run = Ok data /\
    heap st !! data = None /\
    heap (snd run) !! data = Some result /\
    dom (cols result) = dom (cols F) ∖ {["Date"%string]} ∪ list_to_set derived_columns /\
    total_return lib (sorted_series F spread_col) n entry_z cost_per_trade = Some total /\
    total_trades lib F spread_col n entry_z = Fin n_trades /\
    out (snd run)
    = out st ++ validation_report adf (fmul (fst pf) (Fin 2))
      ++ metrics_report lib F spread_col n entry_z cost_per_trade total (truncate n_trades)
      ++ plots lib F spread_col n entry_z cost_per_trade.
Proof.
  intros Hdf Hdates Hspread Hne Hfresh Hadf Hpf Hpos Hrows run n result.
  destruct (backtest_run lib df spread_col lookback entry_z cost_per_trade st F dates
              spread adf pf Hdf Hdates Hspread Hne Hfresh Hadf Hpf) as (q & Hq & Hrun).
  cbv zeta in Hrun. fold run in Hrun.
  destruct (Z.ltb_spec lookback 0); [lia|].
  destruct (total_return lib _ _ _ _) as [total|] eqn:Htotal.
  2:{ exfalso. apply total_return_None in Htotal.
      now apply (sorted_series_empty F spread_col dates Hdates) in Htotal. }
  eexists _, total, q. rewrite Hrun. cbn [fst snd heap out].
  split; [reflexivity|]. split.
  { apply not_elem_of_dom. intros Hin.
    apply (is_fresh (dom (<[fresh (dom (heap st)) := F]> (heap st)))).
    eapply elem_of_weaken; [exact Hin | apply dom_insert_subseteq]. }
  split; [apply lookup_insert_eq|]. split; [apply dom_result_frame|].
  split; [reflexivity|]. split; [exact Hq|]. reflexivity.
Qed.

(** ** The validation block *)

Lemma Qred_zero q : q == 0 -> Qred q = 0.
Proof. intros H. now rewrite (Qred_complete q 0 H). Qed.

(** The population deviation of a single value is zero, or NaN when the
    value is not finite. *)
Lemma np_std_singleton lib d :
  np_sqrt lib 0 == 0 -> np_std lib [d] = NaN \/ np_std lib [d] = Fin 0.
Proof.
  intros Hsqrt. destruct d as [| | |q]; try (left; reflexivity).
  right. unfold np_std, var_obs, mean_obs, fsum. simpl.
  set (dev := Qred (q + - Qred (Qred (0 + q) / inject_Z (Z.of_nat 1)))).
  assert (Hdev : dev == 0).
  { unfold dev. rewrite !Qred_correct. change (inject_Z (Z.of_nat 1)) with 1. field. }
  assert (Hv : Qred (Qred (0 + Qred (dev * dev)) / inject_Z (Z.of_nat 1)) = 0).
  { apply Qred_zero. rewrite !Qred_correct, Hdev. reflexivity. }
  rewrite Hv. simpl. now rewrite (Qred_zero _ Hsqrt).
Qed.

Lemma last_lags : last lags = Some 99%nat.
Proof. reflexivity. Qed.

(** With at most 100 prices the largest lag has no difference, or a
    single one: its [tau] is NaN or zero, and the logarithm handed to
    [polyfit] is NaN or minus infinity. *)
Lemma log_tau_short lib series :
  np_sqrt lib 0 == 0 -> (length series <= 100)%nat ->
  last (map (flog lib) (tau lib series)) = Some NaN \/
  last (map (flog lib) (tau lib series)) = Some NInf.
Proof.
  intros Hsqrt Hlen. unfold tau.
  change (map ?f ?l) with (f <$> l). rewrite !fmap_last, last_lags. simpl.
  destruct (decide (length series <= 99)%nat) as [Hshort|Hfull].
  - left. unfold lagged_diff, col_sub.
    replace (length series - 99)%nat with 0%nat by lia.
    change (take 0 series) with (@nil float). rewrite zip_with_nil_r. reflexivity.
  - assert (H100 : length series = 100%nat) by lia.
    unfold lagged_diff, col_sub. rewrite H100. simpl Nat.sub.
    destruct series as [|y r]; [discriminate|].
    destruct (drop 99 (y :: r)) as [|x [|x' r']] eqn:Hdrop.
    + apply (f_equal length) in Hdrop. rewrite length_drop, H100 in Hdrop. discriminate.
    + change (take 1 (y :: r)) with [y]. change (zip_with fsub [x] [y]) with [fsub x y].
      destruct (np_std_singleton lib (fsub x y) Hsqrt) as [-> | ->].
      * left. reflexivity.
      * right. simpl. rewrite (Qred_zero _ Hsqrt). reflexivity.
    + apply (f_equal length) in Hdrop. rewrite length_drop, H100 in Hdrop. discriminate.
Qed.

Lemma backtest_raises lib df spread_col lookback entry_z cost_per_trade st e :
  fst (backtest_crush_spread lib df spread_col lookback entry_z cost_per_trade st) = Raise e ->
  raised_by_program e.
Proof.
  intros He.
  pose proof (backtest_keeps lib (heap st) df spread_col lookback entry_z cost_per_trade st
                (reflexivity _)) as H.
  destruct (backtest_crush_spread _ _ _ _ _ _ _) as [[data|e'] st']; simpl in *;
    [discriminate|].
  injection He as ->. tauto.
Qed.

(** C4 (as the code has it).  The program has no minimum length and no
    guard on [tau]: it never raises [InsufficientDataError] or
    [NumericDegeneracyError]; [calculate_hurst] hands the logarithms to
    [polyfit] whatever they are and returns twice the slope, failing only
    if [polyfit] does; with at most 100 prices the last logarithm is NaN or
    minus infinity; the logarithm of a [tau] that is zero is minus
    infinity; and a Hurst exponent that is NaN is printed and classified
    as "Trending or Random Walk" like any other. *)
Theorem validation_has_no_guard lib :
  (forall df spread_col lookback entry_z cost_per_trade st e,
     fst (backtest_crush_spread lib df spread_col lookback entry_z cost_per_trade st)
       = Raise e ->
     e <> InsufficientDataError /\ e <> NumericDegeneracyError) /\
  (forall series st,
     calculate_hurst lib series st
     = (match polyfit lib (map (fun lag => flog lib (of_nat lag)) lags)
                          (map (flog lib) (tau lib series)) with
        | Some poly => Ok (fmul (fst poly) (Fin 2))
        | None => Raise (LibraryError "polyfit")
        end, st)) /\
  (np_sqrt lib 0 == 0 ->
   forall series, (length series <= 100)%nat ->
     last (map (flog lib) (tau lib series)) = Some NaN \/
     last (map (flog lib) (tau lib series)) = Some NInf) /\
  (forall t, is_zero t -> flog lib t = NInf) /\
  (forall adf,
     validation_report adf NaN !! 4%nat = Some (Value "Hurst Exponent" NaN) /\
     validation_report adf NaN !! 5%nat
       = Some (Text ">> RESULT: Series is Trending or Random Walk")).
Proof.
  split; [|split; [|split; [|split]]].
  - intros df spread_col lookback entry_z cost_per_trade st e He.
    apply backtest_raises in He. split; intros ->; exact He.
  - intros series st. unfold calculate_hurst, bind, call.
    now destruct (polyfit lib _ _).
  - intros Hsqrt series. now apply log_tau_short.
  - intros [| | |q] Hq; try contradiction. simpl in *.
    apply Qeq_alt in Hq. now rewrite Hq.
  - intros adf. split; reflexivity.
Qed.

(** *** Concrete calls *)

(** C2, counterexample.  Six rows out of date order, a window of 1,
    [entry_z] = -1 and a cost of -1/50: the call returns a frame, with the
    rows in date order.  A frame without rows is not refused before any
    computation either: the call ends inside the Dickey-Fuller test, with
    the header printed.  No library behaviour makes either call raise
    [InvalidParameterError]. *)
Lemma bad_parameters_are_accepted :
  let run lib :=
    backtest_crush_spread lib 0%nat "Spread" 1 (Fin (-1)) (Fin (-1 # 50)) unordered_store in
  let none lib :=
    backtest_crush_spread lib 0%nat "Spread" 30 (Fin 2) (Fin (1 # 50)) empty_store in
  fst (run ref_lib) = Ok 2%nat /\
  index <$> heap (snd (run ref_lib)) !! 2%nat = Some (floats [1; 2; 3; 4; 5; 6]) /\
  (heap (snd (run ref_lib)) !! 2%nat ≫= fun G => cols G !! "Spread"%string)
    = Some (floats [1; 12 # 10; 8 # 10; 15 # 10; 5 # 10; 11 # 10]) /\
  fst (none ref_lib) = Raise (LibraryError "adfuller") /\
  out (snd (none ref_lib)) = [Text "--- 1. STATISTICAL VALIDATION ---"] /\
  ~ (exists lib, fst (run lib) = Raise InvalidParameterError) /\
  ~ (exists lib, fst (none lib) = Raise InvalidParameterError).
Proof.
  intros run none.
  split; [vm_compute; reflexivity|]. split; [vm_compute; reflexivity|].
  split; [vm_compute; reflexivity|]. split; [vm_compute; reflexivity|].
  split; [vm_compute; reflexivity|].
  split; intros [lib H]; exact (backtest_raises _ _ _ _ _ _ _ _ H).
Qed.

(** C3, counterexample.  On the scenario the call returns the reference
    of one frame; none of its twelve columns is a metric, and the total
    return 9/25 is in the output. *)
Lemma one_frame_is_returned :
  let run :=
    backtest_crush_spread ref_lib 0%nat "Spread" 3 (Fin 1) (Fin (1 # 50)) scenario_store in
  fst run = Ok 2%nat /\
  (map fst <$> (map_to_list <$> (cols <$> heap (snd run) !! 2%nat)))
    = Some ["gross_pnl"; "signal"; "std"; "Spread"; "costs"; "cumulative_pnl"; "mean";
            "net_pnl"; "z_score"; "trades"; "position"; "price_change"]%string /\
  out (snd run) !! 7%nat = Some (Value "Total Return ($)" (Fin (9 # 25))) /\
  out (snd run) !! 10%nat = Some (Count "Total Trades" 2).
Proof. intros run. repeat split; vm_compute; reflexivity. Qed.

(** C4, counterexample.  Five rows are fewer than any minimum: the call
    returns, the Hurst exponent it prints is NaN and is classified, and no
    library behaviour makes it raise [InsufficientDataError]. *)
Lemma short_series_is_not_refused :
  let run lib :=
    backtest_crush_spread lib 0%nat "Spread" 4 (Fin 1) (Fin (1 # 50)) spike_store in
  fst (run ref_lib) = Ok 2%nat /\
  fst (calculate_hurst ref_lib (floats spike) spike_store) = Ok NaN /\
  out (snd (run ref_lib)) !! 4%nat = Some (Value "Hurst Exponent" NaN) /\
  out (snd (run ref_lib)) !! 5%nat
    = Some (Text ">> RESULT: Series is Trending or Random Walk") /\
  ~ exists lib, fst (run lib) = Raise InsufficientDataError.
Proof.
  intros run.
  split; [vm_compute; reflexivity|]. split; [vm_compute; reflexivity|].
  split; [vm_compute; reflexivity|]. split; [vm_compute; reflexivity|].
  intros [lib H]. exact (backtest_raises _ _ _ _ _ _ _ _ H).
Qed.

Lemma not_derived (key : string) :
  Forall (fun k => key <> k) derived_columns -> key ∉ derived_columns.
Proof.
  intros H Hin. rewrite Forall_forall in H. exact (H key Hin eq_refl).
Qed.

Lemma Spread_not_derived : "Spread"%string ∉ derived_columns.
Proof. apply not_derived. repeat constructor; discriminate. Qed.

Lemma backtest_does_not_validate_witness :
  exists data,
    fst (backtest_crush_spread ref_lib 0%nat "Spread" 1 (Fin (-1)) (Fin (-1 # 50))
           unordered_store) = Ok data.
Proof.
  destruct (backtest_does_not_validate ref_lib 0%nat "Spread" 1 (Fin (-1)) (Fin (-1 # 50))
              unordered_store) as [_ H].
  edestruct (H (frame_of [3; 1; 2; 6; 4; 5] [8 # 10; 1; 12 # 10; 11 # 10; 15 # 10; 5 # 10])
               (floats [3; 1; 2; 6; 4; 5])
               (floats [8 # 10; 1; 12 # 10; 11 # 10; 15 # 10; 5 # 10]))
    as (_ & Hanswer); [ reflexivity | reflexivity | reflexivity | discriminate | ].
  edestruct (Hanswer (NaN, NaN)) as (_ & Hok);
    [ apply Spread_not_derived | reflexivity | reflexivity | ].
  destruct Hok as (data & Hdata & _); [lia | discriminate |].
  exists data. exact Hdata.
Defined.

Lemma backtest_returns_frame_prints_metrics_witness :
  exists data total,
    fst (backtest_crush_spread ref_lib 0%nat "Spread" 3 (Fin 1) (Fin (1 # 50))
           scenario_store) = Ok data /\
    heap scenario_store !! data = None /\
    total_return ref_lib
      (sorted_series (frame_of [1; 2; 3; 4; 5; 6; 7; 8; 9; 10] scenario) "Spread")
      3 (Fin 1) (Fin (1 # 50)) = Some total.
Proof.
  edestruct (backtest_returns_frame_prints_metrics ref_lib 0%nat "Spread" 3 (Fin 1)
               (Fin (1 # 50)) scenario_store
               (frame_of [1; 2; 3; 4; 5; 6; 7; 8; 9; 10] scenario)
               (floats [1; 2; 3; 4; 5; 6; 7; 8; 9; 10]) (floats scenario) (NaN, NaN))
    as (data & total & n_trades & Hdata & Hnew & _ & _ & Htotal & _);
    [ reflexivity | reflexivity | reflexivity | discriminate | apply Spread_not_derived
    | reflexivity | reflexivity | lia | discriminate | ].
  exists data, total. split; [exact Hdata|]. split; [exact Hnew|exact Htotal].
Defined.

Lemma sqrt_floor_zero : sqrt_floor 0 == 0.
Proof. reflexivity. Qed.

Lemma validation_has_no_guard_witness :
  (length (floats spike) <= 100)%nat /\
  (last (map (flog ref_lib) (tau ref_lib (floats spike))) = Some NaN \/
   last (map (flog ref_lib) (tau ref_lib (floats spike))) = Some NInf).
Proof.
  destruct (validation_has_no_guard ref_lib) as (_ & _ & Hshort & _).
  assert (Hlen : (length (floats spike) <= 100)%nat) by (vm_compute; lia).
  split; [exact Hlen|]. exact (Hshort sqrt_floor_zero (floats spike) Hlen).
Defined.

Lemma backtest_leaves_input_unchanged_witness :
  heap (snd (backtest_crush_spread ref_lib 0%nat "Spread" 3 (Fin 1) (Fin (1 # 50))
               scenario_store)) !! 0%nat
  = heap scenario_store !! 0%nat.
Proof.
  exact (proj1 (proj2 (backtest_leaves_input_unchanged ref_lib 0%nat "Spread" 3 (Fin 1)
                         (Fin (1 # 50)) scenario_store))).
Defined.

(* ================================================================== *)
(** * Further properties of the back-test *)

(** ** Rows without a z-score *)

Lemma signal_of_nan_z lib series lookback entry_z i :
  z_score lib series lookback !! i = Some NaN ->
  signal lib series lookback entry_z !! i = Some NaN.
Proof.
  intros Hz. rewrite (signal_lookup lib series lookback entry_z i NaN Hz). simpl.
  unfold fgtb. now rewrite fltb_nan_r.
Qed.

(** While no row has had a z-score, the position is flat. *)
Lemma position_flat lib series lookback entry_z i :
  (i < length series)%nat ->
  (forall j, (j <= i)%nat -> z_score lib series lookback !! j = Some NaN) ->
  position lib series lookback entry_z !! i = Some (Fin 0).
Proof.
  intros Hi Hz. rewrite position_lookup by done.
  assert (Hl : last_defined (signal lib series lookback entry_z) i = None).
  { apply last_defined_None. intros k y Hk Hy.
    rewrite (signal_of_nan_z lib series lookback entry_z k (Hz k Hk)) in Hy.
    now injection Hy as <-. }
  now rewrite Hl.
Qed.

Lemma z_score_of_nan_std lib series lookback i x :
  series !! i = Some x -> std_col lib series lookback !! i = Some NaN ->
  z_score lib series lookback !! i = Some NaN.
Proof.
  intros Hx Hs. unfold z_score, col_div, col_sub, mean_col.
  rewrite !lookup_zip_with, Hx, Hs. simpl.
  rewrite (rolling_lookup _ _ _ _ _ Hx). simpl. apply f_equal, fdiv_nan_r.
Qed.

Lemma rolling_warm_up n agg c i x :
  c !! i = Some x -> (S i < n)%nat -> rolling n agg c !! i = Some NaN.
Proof.
  intros Hx Hi. rewrite (rolling_lookup _ _ _ _ _ Hx).
  destruct (decide _) as [|Hge]; [done|]. exfalso.
  pose proof (length_window n i c) as [_ Hw].
  pose proof (length_dropna (window n i c)). lia.
Qed.

Lemma trades_flat lib series lookback entry_z j :
  position lib series lookback entry_z !! j = Some (Fin 0) ->
  position lib series lookback entry_z !! S j = Some (Fin 0) ->
  trades lib series lookback entry_z !! S j = Some (Fin 0).
Proof.
  intros H0 H1. now rewrite (trades_lookup_S lib series lookback entry_z j _ _ H0 H1).
Qed.

(** X1.  Warm-up.  On the rows before the first full window (row numbers
    below [lookback - 1]) the rolling mean, the rolling deviation, the
    z-score and the raw signal are NaN and the position is 0; below row 0
    such a row trades nothing. *)
Theorem warm_up_rows lib series lookback entry_z i x :
  series !! i = Some x -> (S i < lookback)%nat ->
  mean_col series lookback !! i = Some NaN /\
  std_col lib series lookback !! i = Some NaN /\
  z_score lib series lookback !! i = Some NaN /\
  signal lib series lookback entry_z !! i = Some NaN /\
  position lib series lookback entry_z !! i = Some (Fin 0) /\
  (forall j, i = S j -> trades lib series lookback entry_z !! i = Some (Fin 0)).
Proof.
  intros Hx Hi.
  assert (Hlen : (i < length series)%nat) by (eapply lookup_lt_Some; eauto).
  assert (Hz : forall j, (j <= i)%nat -> z_score lib series lookback !! j = Some NaN).
  { intros j Hj. destruct (lookup_lt_is_Some_2 series j) as [y Hy]; [lia|].
    apply (z_score_of_nan_std lib series lookback j y Hy).
    unfold std_col. apply (rolling_warm_up _ _ _ _ y Hy). lia. }
  split; [unfold mean_col; now apply (rolling_warm_up _ _ _ _ x)|].
  split; [unfold std_col; now apply (rolling_warm_up _ _ _ _ x)|].
  split; [apply Hz; lia|].
  split; [apply signal_of_nan_z, Hz; lia|].
  split; [now apply position_flat|].
  intros j ->.
  apply trades_flat; apply position_flat; try lia; intros k Hk; apply Hz; lia.
Qed.

Lemma warm_up_rows_witness :
  mean_col (floats scenario) 3 !! 1%nat = Some NaN /\
  position ref_lib (floats scenario) 3 (Fin 1) !! 1%nat = Some (Fin 0) /\
  trades ref_lib (floats scenario) 3 (Fin 1) !! 1%nat = Some (Fin 0).
Proof.
  destruct (warm_up_rows ref_lib (floats scenario) 3 (Fin 1) 1 (Fin (12 # 10)))
    as (Hm & _ & _ & _ & Hp & Ht); [reflexivity | lia |].
  split; [exact Hm|]. split; [exact Hp|]. exact (Ht 0%nat eq_refl).
Defined.

(** X2.  A window of 0 or 1 never trades: the sample deviation of fewer than
    two values is NaN, so no row has a z-score, every position is 0 and
    every trade below row 0 is 0. *)
Theorem window_below_two_never_trades lib series lookback entry_z i x :
  (lookback <= 1)%nat -> series !! i = Some x ->
  std_col lib series lookback !! i = Some NaN /\
  z_score lib series lookback !! i = Some NaN /\
  position lib series lookback entry_z !! i = Some (Fin 0) /\
  (forall j, i = S j -> trades lib series lookback entry_z !! i = Some (Fin 0)).
Proof.
  intros Hn Hx.
  assert (Hlen : (i < length series)%nat) by (eapply lookup_lt_Some; eauto).
  assert (Hstd : forall j y, series !! j = Some y ->
                   std_col lib series lookback !! j = Some NaN).
  { intros j y Hy. unfold std_col. rewrite (rolling_lookup _ _ _ _ _ Hy).
    destruct (decide _); [done|]. rewrite std_obs_short; [done|].
    pose proof (length_window lookback j series) as [Hw _].
    pose proof (length_dropna (window lookback j series)). lia. }
  assert (Hz : forall j, (j < length series)%nat ->
                 z_score lib series lookback !! j = Some NaN).
  { intros j Hj. destruct (lookup_lt_is_Some_2 series j Hj) as [y Hy].
    apply (z_score_of_nan_std lib series lookback j y Hy), (Hstd j y Hy). }
  split; [exact (Hstd i x Hx)|]. split; [apply Hz, Hlen|].
  split; [apply position_flat; [done|intros j Hj; apply Hz; lia]|].
  intros j ->.
  apply trades_flat; apply position_flat; try lia; intros k Hk; apply Hz; lia.
Qed.

Lemma window_below_two_never_trades_witness :
  position ref_lib (floats scenario) 1 (Fin (1 # 10)) !! 9%nat = Some (Fin 0) /\
  trades ref_lib (floats scenario) 1 (Fin (1 # 10)) !! 9%nat = Some (Fin 0).
Proof.
  destruct (window_below_two_never_trades ref_lib (floats scenario) 1 (Fin (1 # 10)) 9 (Fin 1))
    as (_ & _ & Hp & Ht); [lia | reflexivity |].
  split; [exact Hp|]. exact (Ht 8%nat eq_refl).
Defined.

(** ** No column looks ahead *)

(** X3.  Row [i] of the z-score, the raw signal, the position, the trades, the
    net PnL and the cumulative PnL is the same for two series that agree
    on the rows up to [i]. *)
Theorem columns_do_not_look_ahead lib series series' lookback entry_z cost_per_trade i :
  take (S i) series' = take (S i) series ->
  z_score lib series' lookback !! i = z_score lib series lookback !! i /\
  signal lib series' lookback entry_z !! i = signal lib series lookback entry_z !! i /\
  position lib series' lookback entry_z !! i = position lib series lookback entry_z !! i /\
  trades lib series' lookback entry_z !! i = trades lib series lookback entry_z !! i /\
  net_pnl lib series' lookback entry_z cost_per_trade !! i
    = net_pnl lib series lookback entry_z cost_per_trade !! i /\
  cumulative_pnl lib series' lookback entry_z cost_per_trade !! i
    = cumulative_pnl lib series lookback entry_z cost_per_trade !! i.
Proof.
  intros Heq. repeat split.
  - apply (prefix_determines (fun s => z_score lib s lookback)); [|exact Heq].
    intros k s. apply take_z_score.
  - apply (prefix_determines (fun s => signal lib s lookback entry_z)); [|exact Heq].
    intros k s. apply take_signal.
  - apply (prefix_determines (fun s => position lib s lookback entry_z)); [|exact Heq].
    intros k s. apply take_position.
  - apply (prefix_determines (fun s => trades lib s lookback entry_z)); [|exact Heq].
    intros k s. apply take_trades.
  - apply (prefix_determines (fun s => net_pnl lib s lookback entry_z cost_per_trade));
      [|exact Heq].
    intros k s. apply take_net_pnl.
  - apply (prefix_determines (fun s => cumulative_pnl lib s lookback entry_z cost_per_trade));
      [|exact Heq].
    intros k s. apply take_cumulative_pnl.
Qed.

Lemma columns_do_not_look_ahead_witness :
  position ref_lib (floats (take 8 scenario ++ [50; 60; 70])) 3 (Fin 1) !! 7%nat
    = position ref_lib (floats scenario) 3 (Fin 1) !! 7%nat /\
  cumulative_pnl ref_lib (floats (take 8 scenario ++ [50; 60; 70])) 3 (Fin 1) (Fin (1 # 50))
    !! 7%nat
    = cumulative_pnl ref_lib (floats scenario) 3 (Fin 1) (Fin (1 # 50)) !! 7%nat.
Proof.
  destruct (columns_do_not_look_ahead ref_lib (floats scenario)
              (floats (take 8 scenario ++ [50; 60; 70])) 3 (Fin 1) (Fin (1 # 50)) 7)
    as (_ & _ & Hp & _ & _ & Hc); [reflexivity|].
  split; [exact Hp | exact Hc].
Defined.

(** ** Costs *)

(** X4.  Without a cost per trade the net PnL is the gross PnL, row by row. *)
Theorem zero_cost_net_is_gross lib series lookback entry_z i g :
  gross_pnl lib series lookback entry_z !! i = Some g ->
  exists n, net_pnl lib series lookback entry_z (Fin 0) !! i = Some n /\ feq n g.
Proof.
  intros Hg.
  assert (Hi : (i < length series)%nat).
  { rewrite <- (length_gross_pnl lib series lookback entry_z). eapply lookup_lt_Some; eauto. }
  destruct (lookup_lt_is_Some_2 (trades lib series lookback entry_z) i) as [t Ht].
  { now rewrite length_trades. }
  exists (fsub g (fmul t (Fin 0))). split.
  { apply net_pnl_lookup; [exact Hg|]. now apply costs_lookup. }
  destruct i as [|j].
  - destruct (lookup_lt_is_Some_2 series 0 Hi) as [x Hx].
    rewrite (gross_pnl_lookup_0 lib series lookback entry_z x Hx) in Hg.
    now injection Hg as <-.
  - destruct (lookup_lt_is_Some_2 (position lib series lookback entry_z) j) as [p0 Hp0];
      [rewrite length_position; lia|].
    destruct (lookup_lt_is_Some_2 (position lib series lookback entry_z) (S j)) as [p1 Hp1];
      [rewrite length_position; lia|].
    rewrite (trades_lookup_S lib series lookback entry_z j p0 p1 Hp0 Hp1) in Ht.
    injection Ht as <-.
    destruct (in_trades_flip p0 p1 (position_values _ _ _ _ _ _ Hp0)
                (position_values _ _ _ _ _ _ Hp1)) as [-> | [-> | ->]];
      destruct g as [| | |q]; simpl; auto; rewrite !Qred_correct; ring.
Qed.

Lemma zero_cost_net_is_gross_witness :
  exists n, net_pnl ref_lib (floats scenario) 3 (Fin 1) (Fin 0) !! 8%nat = Some n /\
            feq n (Fin (2 # 5)).
Proof.
  apply (zero_cost_net_is_gross ref_lib (floats scenario) 3 (Fin 1) 8 (Fin (2 # 5))).
  vm_compute. reflexivity.
Defined.

(** ** The maximal drawdown *)

(** A value that is not above zero (NaN is not). *)
Ltac compare_cases :=
  repeat match goal with
         | |- context [?p ?= ?q] => destruct (Qcompare_spec p q); simpl
         end;
  try rewrite Qred_correct in *;
  first [ done | split; done | exfalso; lra ].

Lemma fmax_bounds a x :
  is_nan a = false -> is_nan x = false ->
  is_nan (fmax a x) = false /\ fltb (fmax a x) x = false.
Proof.
  destruct a as [| | |a], x as [| | |x]; simpl; try discriminate; auto;
    intros _ _; compare_cases.
Qed.

Lemma fltb_irrefl x : fltb x x = false.
Proof. destruct x as [| | |q]; simpl; auto. compare_cases. Qed.

Lemma running_max_bounds l i x m :
  Forall (fun y => is_nan y = false) l ->
  l !! i = Some x -> accumulate fmax l !! i = Some m ->
  is_nan m = false /\ fltb m x = false.
Proof.
  intros Hl. revert x m. induction i as [|i IH]; intros x m Hx Hm.
  - rewrite accumulate_lookup_0, Hx in Hm. injection Hm as <-.
    split; [exact (proj1 (Forall_lookup _ l) Hl 0%nat x Hx) | apply fltb_irrefl].
  - destruct (lookup_lt_is_Some_2 l i) as [y Hy]; [apply lookup_lt_Some in Hx; lia|].
    destruct (lookup_lt_is_Some_2 (accumulate fmax l) i) as [a Ha].
    { rewrite length_accumulate. apply lookup_lt_Some in Hx. lia. }
    rewrite (accumulate_lookup_S _ _ _ _ _ Ha Hx) in Hm. injection Hm as <-.
    apply fmax_bounds; [exact (proj1 (IH y a Hy Ha))|].
    exact (proj1 (Forall_lookup _ l) Hl (S i) x Hx).
Qed.

Lemma fsub_not_above x m :
  is_nan x = false -> is_nan m = false -> fltb m x = false ->
  fltb (Fin 0) (fsub x m) = false.
Proof.
  destruct x as [| | |x], m as [| | |m]; simpl; try discriminate; auto.
  intros _ _. destruct (Qcompare_spec m x); try discriminate; intros _; compare_cases.
Qed.

Lemma drawdown_rows c i d :
  col_sub c (cummax c) !! i = Some d -> fltb (Fin 0) d = false.
Proof.
  unfold col_sub, cummax, restore_nan. rewrite !lookup_zip_with.
  destruct (c !! i) as [x|] eqn:Hx; [|discriminate]. simpl.
  destruct (accumulate fmax (fillna NInf c) !! i) as [m|] eqn:Hm; [|discriminate].
  simpl. intros [= <-].
  destruct (is_nan x) eqn:Hn; [now destruct x|].
  assert (Hfill : Forall (fun y => is_nan y = false) (fillna NInf c)).
  { apply Forall_forall. intros y Hy. unfold fillna in Hy.
    apply list_elem_of_fmap in Hy as (z & -> & _). now destruct z. }
  pose proof (fillna_lookup NInf c i x Hx) as Hfx. rewrite Hn in Hfx.
  destruct (running_max_bounds _ _ _ _ Hfill Hfx Hm) as [Hm1 Hm2].
  now apply fsub_not_above.
Qed.

Lemma fmin_not_above x y :
  fltb (Fin 0) x = false -> fltb (Fin 0) y = false -> fltb (Fin 0) (fmin x y) = false.
Proof.
  intros Hx Hy. unfold fmin.
  destruct x as [| | |x], y as [| | |y]; try done;
    match goal with |- context [if ?b then _ else _] => destruct b end; done.
Qed.

Lemma foldl_fmin_not_above a l :
  fltb (Fin 0) a = false -> Forall (fun d => fltb (Fin 0) d = false) l ->
  fltb (Fin 0) (foldl fmin a l) = false.
Proof.
  revert a. induction l as [|x r IH]; intros a Ha Hl; simpl; [exact Ha|].
  inversion Hl; subst. apply IH; [now apply fmin_not_above|assumption].
Qed.

(** X6.  The maximal drawdown of line 233 is never above zero, whatever the
    cumulative PnL is: each row of [cumulative_pnl - cummax] is at most
    zero or NaN, and so is their minimum. *)
Theorem max_drawdown_is_never_positive cum :
  fgtb (max_drawdown_of cum) (Fin 0) = false.
Proof.
  unfold fgtb, max_drawdown_of, series_min.
  assert (H : Forall (fun d => fltb (Fin 0) d = false) (dropna (col_sub cum (cummax cum)))).
  { apply Forall_forall. intros d Hd. unfold dropna in Hd.
    apply list_elem_of_filter in Hd as [_ Hd].
    apply list_elem_of_lookup in Hd as [i Hi]. exact (drawdown_rows cum i d Hi). }
  destruct (dropna _) as [|x r]; [reflexivity|].
  inversion H; subst. now apply foldl_fmin_not_above.
Qed.

(** ** Calls that fail *)

(** X7.  A frame without a 'Date' column: [set_index] raises [KeyError] on
    line 134, before anything is printed; the only new object is the copy
    of the frame. *)
Theorem missing_date_column_raises lib df spread_col lookback entry_z cost_per_trade st F :
  heap st !! df = Some F ->
  cols F !! "Date"%string = None ->
  backtest_crush_spread lib df spread_col lookback entry_z cost_per_trade st
  = (Raise (KeyError "Date"),
     {| heap := <[fresh (dom (heap st)) := F]> (heap st); out := out st |}).
Proof.
  intros Hdf Hd. unfold backtest_crush_spread.
  erewrite bind_ok.
  2:{ unfold df_copy, bind, get_frame, alloc. rewrite Hdf. reflexivity. }
  erewrite bind_raise; [reflexivity|].
  unfold set_index, bind, get_frame. cbn [heap out].
  now rewrite lookup_insert_eq, Hd.
Qed.

(** The state on line 140, after the header of the validation block. *)
Lemma run_to_header {A} (rest : ref -> M A) df st F dates :
  heap st !! df = Some F ->
  cols F !! "Date"%string = Some dates ->
  let copy := fresh (dom (heap st)) in
  let data := fresh (dom (<[copy := F]> (heap st))) in
  (copy <- df_copy df ;;
   data <- set_index copy "Date" ;;
   sort_index data ;;
   emit (Text "--- 1. STATISTICAL VALIDATION ---") ;;
   rest data) st
  = rest data {| heap := <[data := sorted_frame F]> (<[copy := F]> (heap st));
                 out := out st ++ [Text "--- 1. STATISTICAL VALIDATION ---"] |}.
Proof.
  intros Hdf Hdates copy data.
  erewrite bind_ok.
  2:{ unfold df_copy, bind, get_frame, alloc. rewrite Hdf. reflexivity. }
  fold copy.
  erewrite bind_ok.
  2:{ unfold set_index, bind, get_frame, alloc. cbn [heap out].
      rewrite lookup_insert_eq, Hdates. cbn [heap out]. reflexivity. }
  fold data.
  erewrite bind_ok; [|apply run_sort_index].
  replace (sort_frame _) with (sorted_frame F).
  2:{ unfold sort_frame, sorted_frame, date_order. simpl. now rewrite Hdates. }
  erewrite bind_ok; [|apply run_emit]. reflexivity.
Qed.

Lemma cols_sorted_frame F key :
  cols (sorted_frame F) !! key
  = if decide (key = "Date"%string) then None
    else reindex (date_order F) <$> cols F !! key.
Proof.
  unfold sorted_frame. cbn [cols]. rewrite lookup_fmap.
  destruct (decide _) as [->|Hne].
  - now rewrite lookup_delete_eq.
  - now rewrite lookup_delete_ne.
Qed.

(** X8.  A frame without the spread column, or a call with 'Date' as the
    spread column (which [set_index] has moved out of the columns):
    [data[spread_col]] raises [KeyError] on line 143, after the header of
    the validation block; the frame made so far has no new column. *)
Theorem missing_spread_column_raises lib df spread_col lookback entry_z cost_per_trade
    st F dates :
  heap st !! df = Some F ->
  cols F !! "Date"%string = Some dates ->
  cols F !! spread_col = None \/ spread_col = "Date"%string ->
  let copy := fresh (dom (heap st)) in
  let data := fresh (dom (<[copy := F]> (heap st))) in
  backtest_crush_spread lib df spread_col lookback entry_z cost_per_trade st
  = (Raise (KeyError spread_col),
     {| heap := <[data := sorted_frame F]> (<[copy := F]> (heap st));
        out := out st ++ [Text "--- 1. STATISTICAL VALIDATION ---"] |}).
Proof.
  intros Hdf Hdates Hmiss copy data. unfold backtest_crush_spread.
  rewrite (run_to_header _ df st F dates Hdf Hdates). cbv zeta. fold copy data.
  erewrite bind_raise; [reflexivity|].
  unfold getitem, bind, get_frame. cbn [heap out].
  rewrite lookup_insert_eq, cols_sorted_frame.
  destruct (decide _) as [|Hne]; [reflexivity|].
  destruct Hmiss as [-> | ?]; [reflexivity | contradiction].
Qed.

(** X9.  The program catches nothing.  When the Dickey-Fuller test raises,
    the call ends there with the header printed; when [polyfit] raises
    inside [calculate_hurst], it ends after the three lines of the test.
    In both cases no column has been added to the frame. *)
Theorem library_failure_is_not_caught lib df spread_col lookback entry_z cost_per_trade
    st F dates spread :
  heap st !! df = Some F ->
  cols F !! "Date"%string = Some dates ->
  cols F !! spread_col = Some spread ->
  spread_col <> "Date"%string ->
  let copy := fresh (dom (heap st)) in
  let data := fresh (dom (<[copy := F]> (heap st))) in
  let run := backtest_crush_spread lib df spread_col lookback entry_z cost_per_trade st in
  let s := sorted_series F spread_col in
  (adfuller lib s = None ->
   run = (Raise (LibraryError "adfuller"),
          {| heap := <[data := sorted_frame F]> (<[copy := F]> (heap st));
             out := out st ++ [Text "--- 1. STATISTICAL VALIDATION ---"] |})) /\
  (forall adf,
     adfuller lib s = Some adf ->
     polyfit lib (map (fun lag => flog lib (of_nat lag)) lags)
                 (map (flog lib) (tau lib s)) = None ->
     run = (Raise (LibraryError "polyfit"),
            {| heap := <[data := sorted_frame F]> (<[copy := F]> (heap st));
               out := out st ++ take 4 (validation_report adf NaN) |})).
Proof.
  intros Hdf Hdates Hspread Hne copy data run s.
  assert (Hsorted : cols (sorted_frame F) !! spread_col = Some s).
  { rewrite cols_sorted_frame. destruct (decide _); [contradiction|].
    unfold s, sorted_series. now rewrite Hspread. }
  split.
  - intros Hadf. unfold run, backtest_crush_spread.
    rewrite (run_to_header _ df st F dates Hdf Hdates). cbv zeta. fold copy data.
    erewrite bind_ok; [|apply run_getitem, Hsorted].
    erewrite bind_raise; [reflexivity|]. now rewrite Hadf.
  - intros adf Hadf Hpf. unfold run, backtest_crush_spread.
    rewrite (run_to_header _ df st F dates Hdf Hdates). cbv zeta. fold copy data.
    erewrite bind_ok; [|apply run_getitem, Hsorted].
    erewrite bind_ok; [|rewrite Hadf; reflexivity].
    do 3 run_step.
    erewrite bind_ok; [|apply run_getitem, Hsorted].
    erewrite bind_raise.
    2:{ unfold calculate_hurst. erewrite bind_raise; [reflexivity|].
        rewrite Hpf. reflexivity. }
    rewrite <- !app_assoc. reflexivity.
Qed.

Lemma missing_date_column_raises_witness :
  fst (backtest_crush_spread ref_lib 0%nat "Spread" 3 (Fin 1) (Fin (1 # 50))
         (store_of {| index := []; cols := <["Spread"%string := floats scenario]> ∅ |}))
  = Raise (KeyError "Date").
Proof.
  rewrite (missing_date_column_raises ref_lib 0%nat "Spread" 3 (Fin 1) (Fin (1 # 50))
             (store_of {| index := []; cols := <["Spread"%string := floats scenario]> ∅ |})
             {| index := []; cols := <["Spread"%string := floats scenario]> ∅ |});
    reflexivity.
Defined.

Lemma missing_spread_column_raises_witness :
  fst (backtest_crush_spread ref_lib 0%nat "Crush" 3 (Fin 1) (Fin (1 # 50)) scenario_store)
  = Raise (KeyError "Crush") /\
  fst (backtest_crush_spread ref_lib 0%nat "Date" 3 (Fin 1) (Fin (1 # 50)) scenario_store)
  = Raise (KeyError "Date").
Proof.
  split.
  - rewrite (missing_spread_column_raises ref_lib 0%nat "Crush" 3 (Fin 1) (Fin (1 # 50))
               scenario_store _ _ eq_refl eq_refl); [reflexivity|].
    left. reflexivity.
  - rewrite (missing_spread_column_raises ref_lib 0%nat "Date" 3 (Fin 1) (Fin (1 # 50))
               scenario_store _ _ eq_refl eq_refl); [reflexivity|].
    right. reflexivity.
Defined.

Lemma library_failure_is_not_caught_witness :
  fst (backtest_crush_spread strict_lib 0%nat "Spread" 3 (Fin 1) (Fin (1 # 50)) scenario_store)
  = Raise (LibraryError "adfuller").
Proof.
  destruct (library_failure_is_not_caught strict_lib 0%nat "Spread" 3 (Fin 1) (Fin (1 # 50))
              scenario_store _ _ _ eq_refl eq_refl eq_refl ltac:(discriminate)) as [H _].
  rewrite (H eq_refl). reflexivity.
Defined.

(** ** The validation block decides nothing *)

Section SameRoot.

Variables lib lib' : library.
Hypothesis Hsqrt : forall q, np_sqrt lib q == np_sqrt lib' q.

Lemma fsqrt_ext x : fsqrt lib x = fsqrt lib' x.
Proof using Hsqrt.
  destruct x as [| | |q]; simpl; try reflexivity.
  destruct (q ?= 0); try reflexivity; f_equal; apply Qred_complete, Hsqrt.
Qed.

Lemma std_col_ext s n : std_col lib s n = std_col lib' s n.
Proof using Hsqrt.
  unfold std_col, rolling. apply imap_ext. intros i x _. simpl.
  destruct (decide _); [reflexivity|]. unfold std_obs. apply fsqrt_ext.
Qed.

Lemma z_score_ext s n : z_score lib s n = z_score lib' s n.
Proof using Hsqrt. unfold z_score. now rewrite std_col_ext. Qed.

Lemma signal_ext s n e : signal lib s n e = signal lib' s n e.
Proof using Hsqrt.
  unfold signal, cross_zero, z_sign, signal_entry, signal_short.
  now rewrite !z_score_ext.
Qed.

Lemma position_ext s n e : position lib s n e = position lib' s n e.
Proof using Hsqrt. unfold position. now rewrite signal_ext. Qed.

Lemma gross_pnl_ext s n e : gross_pnl lib s n e = gross_pnl lib' s n e.
Proof using Hsqrt. unfold gross_pnl. now rewrite position_ext. Qed.

Lemma trades_ext s n e : trades lib s n e = trades lib' s n e.
Proof using Hsqrt. unfold trades. now rewrite position_ext. Qed.

Lemma costs_ext s n e c : costs lib s n e c = costs lib' s n e c.
Proof using Hsqrt. unfold costs. now rewrite trades_ext. Qed.

Lemma net_pnl_ext s n e c : net_pnl lib s n e c = net_pnl lib' s n e c.
Proof using Hsqrt. unfold net_pnl. now rewrite gross_pnl_ext, costs_ext. Qed.

Lemma cumulative_pnl_ext s n e c : cumulative_pnl lib s n e c = cumulative_pnl lib' s n e c.
Proof using Hsqrt. unfold cumulative_pnl. now rewrite net_pnl_ext. Qed.

Lemma result_frame_ext F key n e c :
  result_frame lib F key n e c = result_frame lib' F key n e c.
Proof using Hsqrt.
  unfold result_frame.
  now rewrite std_col_ext, z_score_ext, signal_ext, position_ext, gross_pnl_ext,
    trades_ext, costs_ext, net_pnl_ext, cumulative_pnl_ext.
Qed.

Lemma metrics_report_ext F key n e c total k :
  metrics_report lib F key n e c total k = metrics_report lib' F key n e c total k.
Proof using Hsqrt.
  unfold metrics_report, sharpe, max_drawdown, sharpe_of, std_obs.
  now rewrite net_pnl_ext, cumulative_pnl_ext, !fsqrt_ext.
Qed.

Lemma plots_ext F key n e c : plots lib F key n e c = plots lib' F key n e c.
Proof using Hsqrt. unfold plots. now rewrite std_col_ext, cumulative_pnl_ext. Qed.

End SameRoot.

(** X10.  The Dickey-Fuller test and the Hurst exponent are printed and
    nothing else.  Two libraries with the same square root, whatever
    their tests, their line fit and their logarithm answer, give the same
    outcome (the same frame returned, or the same exception), the same
    store, and the same output after the validation block. *)
Theorem validation_is_diagnostic_only lib lib' df spread_col lookback entry_z
    cost_per_trade st F dates spread adf pf adf' pf' :
  heap st !! df = Some F ->
  cols F !! "Date"%string = Some dates ->
  cols F !! spread_col = Some spread ->
  spread_col <> "Date"%string ->
  spread_col ∉ derived_columns ->
  (forall q, np_sqrt lib q == np_sqrt lib' q) ->
  adfuller lib (sorted_series F spread_col) = Some adf ->
  polyfit lib (map (fun lag => flog lib (of_nat lag)) lags)
              (map (flog lib) (tau lib (sorted_series F spread_col))) = Some pf ->
  adfuller lib' (sorted_series F spread_col) = Some adf' ->
  polyfit lib' (map (fun lag => flog lib' (of_nat lag)) lags)
               (map (flog lib') (tau lib' (sorted_series F spread_col))) = Some pf' ->
  let run := backtest_crush_spread lib df spread_col lookback entry_z cost_per_trade st in
  let run' := backtest_crush_spread lib' df spread_col lookback entry_z cost_per_trade st in
  fst run = fst run' /\
  heap (snd run) = heap (snd run') /\
  exists rest,
    out (snd run) = out st ++ validation_report adf (fmul (fst pf) (Fin 2)) ++ rest /\
    out (snd run') = out st ++ validation_report adf' (fmul (fst pf') (Fin 2)) ++ rest.
Proof.
  intros Hdf Hdates Hspread Hne Hfresh Hsqrt Hadf Hpf Hadf' Hpf' run run'.
  destruct (backtest_run lib df spread_col lookback entry_z cost_per_trade st F dates
              spread adf pf Hdf Hdates Hspread Hne Hfresh Hadf Hpf) as (q & Hq & Hrun).
  destruct (backtest_run lib' df spread_col lookback entry_z cost_per_trade st F dates
              spread adf' pf' Hdf Hdates Hspread Hne Hfresh Hadf' Hpf') as (q' & Hq' & Hrun').
  cbv zeta in Hrun, Hrun'. fold run in Hrun. fold run' in Hrun'.
  assert (q' = q) as ->.
  { unfold total_trades in Hq, Hq'. rewrite <- (trades_ext lib lib' Hsqrt) in Hq'.
    congruence. }
  unfold total_return in Hrun, Hrun'.
  rewrite <- (cumulative_pnl_ext lib lib' Hsqrt), <- (result_frame_ext lib lib' Hsqrt),
    <- (plots_ext lib lib' Hsqrt) in Hrun'.
  destruct (lookback <? 0)%Z.
  - rewrite Hrun, Hrun'.
    split; [reflexivity|]. split; [reflexivity|]. exists []. now rewrite !app_nil_r.
  - destruct (last _) as [total|].
    + rewrite <- (metrics_report_ext lib lib' Hsqrt) in Hrun'. rewrite Hrun, Hrun'.
      split; [reflexivity|]. split; [reflexivity|]. eexists. split; reflexivity.
    + rewrite Hrun, Hrun'.
      split; [reflexivity|]. split; [reflexivity|]. eexists. split; reflexivity.
Qed.

Lemma validation_is_diagnostic_only_witness :
  let run := backtest_crush_spread ref_lib 0%nat "Spread" 3 (Fin 1) (Fin (1 # 50))
               scenario_store in
  let run' := backtest_crush_spread keen_lib 0%nat "Spread" 3 (Fin 1) (Fin (1 # 50))
                scenario_store in
  fst run = fst run' /\ heap (snd run) = heap (snd run') /\
  out (snd run) !! 5%nat = Some (Text ">> RESULT: Series is Trending or Random Walk") /\
  out (snd run') !! 5%nat = Some (Text ">> RESULT: Series is MEAN REVERTING").
Proof.
  intros run run'.
  destruct (validation_is_diagnostic_only ref_lib keen_lib 0%nat "Spread" 3 (Fin 1)
              (Fin (1 # 50)) scenario_store _ _ _ _ _ _ _
              eq_refl eq_refl eq_refl ltac:(discriminate) Spread_not_derived
              (fun q => Qeq_refl _) eq_refl eq_refl eq_refl eq_refl) as (H1 & H2 & _).
  split; [exact H1|]. split; [exact H2|]. split; vm_compute; reflexivity.
Defined.

(** ** The frame that is returned *)

(** A call that meets no exception returns an object whose frame is
    [result_frame]. *)
Lemma backtest_returns lib df spread_col lookback entry_z cost_per_trade st F dates spread
    adf pf :
  heap st !! df = Some F ->
  cols F !! "Date"%string = Some dates ->
  cols F !! spread_col = Some spread ->
  spread_col <> "Date"%string ->
  spread_col ∉ derived_columns ->
  adfuller lib (sorted_series F spread_col) = Some adf ->
  polyfit lib (map (fun lag => flog lib (of_nat lag)) lags)
              (map (flog lib) (tau lib (sorted_series F spread_col))) = Some pf ->
  (0 <= lookback)%Z ->
  dates <> [] ->
  let run := backtest_crush_spread lib df spread_col lookback entry_z cost_per_trade st in
  exists data,
    fst run = Ok data /\
    heap (snd run) !! data
    = Some (result_frame lib F spread_col (Z.to_nat lookback) entry_z cost_per_trade).
Proof.
  intros Hdf Hdates Hspread Hne Hfresh Hadf Hpf Hpos Hrows run.
  destruct (backtest_run lib df spread_col lookback entry_z cost_per_trade st F dates
              spread adf pf Hdf Hdates Hspread Hne Hfresh Hadf Hpf) as (q & Hq & Hrun).
  cbv zeta in Hrun. fold run in Hrun.
  destruct (Z.ltb_spec lookback 0); [lia|].
  destruct (total_return lib _ _ _ _) as [total|] eqn:Htotal.
  2:{ exfalso. apply total_return_None in Htotal.
      now apply (sorted_series_empty F spread_col dates Hdates) in Htotal. }
  eexists. rewrite Hrun. cbn [fst snd heap]. split; [reflexivity|]. apply lookup_insert_eq.
Qed.

Lemma cols_result_frame_other lib F spread_col n entry_z cost_per_trade key :
  key ∉ derived_columns ->
  cols (result_frame lib F spread_col n entry_z cost_per_trade) !! key
  = cols (sorted_frame F) !! key.
Proof.
  intros Hkey. unfold derived_columns in Hkey. rewrite !not_elem_of_cons in Hkey.
  destruct Hkey as (N1 & N2 & N3 & N4 & N5 & N6 & N7 & N8 & N9 & N10 & N11 & _).
  unfold result_frame. now rewrite !cols_set_col_ne by congruence.
Qed.

Lemma Date_not_derived : "Date"%string ∉ derived_columns.
Proof. apply not_derived. repeat constructor; discriminate. Qed.

(** The frame without its column [key]. *)
Lemma sorted_series_delete F spread_col key :
  key <> "Date"%string -> key <> spread_col ->
  sorted_series {| index := index F; cols := delete key (cols F) |} spread_col
  = sorted_series F spread_col.
Proof.
  intros H1 H2. unfold sorted_series, date_order. cbn [cols].
  now rewrite !lookup_delete_ne by done.
Qed.

(** X11.  What becomes of the columns of the input.  'Date' is no column of
    the returned frame (it is the index); every other column that the
    back-test does not compute is carried over, its rows in date order;
    and a column of the input that has the name of a computed column is
    overwritten: the returned column is the one a call without it
    returns. *)
Theorem input_columns_carried_or_overwritten lib df spread_col lookback entry_z
    cost_per_trade st F dates spread adf pf :
  heap st !! df = Some F ->
  cols F !! "Date"%string = Some dates ->
  cols F !! spread_col = Some spread ->
  spread_col <> "Date"%string ->
  spread_col ∉ derived_columns ->
  adfuller lib (sorted_series F spread_col) = Some adf ->
  polyfit lib (map (fun lag => flog lib (of_nat lag)) lags)
              (map (flog lib) (tau lib (sorted_series F spread_col))) = Some pf ->
  (0 <= lookback)%Z ->
  dates <> [] ->
  let run := backtest_crush_spread lib df spread_col lookback entry_z cost_per_trade st in
  exists data G,
    fst run = Ok data /\ heap (snd run) !! data = Some G /\
    index G = reindex (date_order F) dates /\
    cols G !! "Date"%string = None /\
    (forall key, key <> "Date"%string -> key ∉ derived_columns ->
       cols G !! key = reindex (date_order F) <$> cols F !! key) /\
    (forall key, key ∈ derived_columns ->
       is_Some (cols G !! key) /\
       cols G !! key
       = cols (result_frame lib {| index := index F; cols := delete key (cols F) |}
                 spread_col (Z.to_nat lookback) entry_z cost_per_trade) !! key).
Proof.
  intros Hdf Hdates Hspread Hne Hfresh Hadf Hpf Hpos Hrows run.
  destruct (backtest_returns lib df spread_col lookback entry_z cost_per_trade st F dates
              spread adf pf Hdf Hdates Hspread Hne Hfresh Hadf Hpf Hpos Hrows)
    as (data & Hok & Hheap).
  exists data, (result_frame lib F spread_col (Z.to_nat lookback) entry_z cost_per_trade).
  split; [exact Hok|]. split; [exact Hheap|]. split.
  { unfold result_frame. rewrite !index_set_col. unfold sorted_frame. cbn [index].
    now rewrite Hdates. }
  split.
  { rewrite cols_result_frame_other by apply Date_not_derived.
    rewrite cols_sorted_frame. now destruct (decide _). }
  split.
  { intros key Hk Hd. rewrite cols_result_frame_other by done.
    rewrite cols_sorted_frame. now destruct (decide _). }
  intros key Hkey.
  assert (Hs : sorted_series {| index := index F; cols := delete key (cols F) |} spread_col
               = sorted_series F spread_col).
  { apply sorted_series_delete.
    - intros ->. now apply Date_not_derived.
    - intros ->. now apply Hfresh. }
  unfold derived_columns in Hkey. rewrite !elem_of_cons, elem_of_nil in Hkey.
  unfold result_frame. rewrite Hs.
  destruct Hkey as [->|[->|[->|[->|[->|[->|[->|[->|[->|[->|[->|[]]]]]]]]]]]];
    (split; [eexists|]; solve_col).
Qed.

Lemma input_columns_carried_or_overwritten_witness :
  let F := {| index := [];
              cols := <["Date"%string := floats [2; 1; 4; 3; 6; 5]]>
                      (<["Spread"%string :=
                          floats [12 # 10; 1; 15 # 10; 8 # 10; 11 # 10; 5 # 10]]>
                       (<["Volume"%string := floats [20; 10; 40; 30; 60; 50]]>
                        (<["signal"%string := floats [9; 9; 9; 9; 9; 9]]> ∅))) |} in
  let run := backtest_crush_spread ref_lib 0%nat "Spread" 2 (Fin 1) (Fin (1 # 50))
               (store_of F) in
  exists data G,
    fst run = Ok data /\ heap (snd run) !! data = Some G /\
    index G = floats [1; 2; 3; 4; 5; 6] /\
    cols G !! "Date"%string = None /\
    cols G !! "Volume"%string = Some (floats [10; 20; 30; 40; 50; 60]) /\
    cols G !! "signal"%string
    = Some (signal ref_lib (floats [1; 12 # 10; 8 # 10; 15 # 10; 5 # 10; 11 # 10]) 2 (Fin 1)).
Proof.
  intros F run.
  edestruct (input_columns_carried_or_overwritten ref_lib 0%nat "Spread" 2 (Fin 1)
              (Fin (1 # 50)) (store_of F) F (floats [2; 1; 4; 3; 6; 5])
              (floats [12 # 10; 1; 15 # 10; 8 # 10; 11 # 10; 5 # 10]) (NaN, NaN))
    as (data & G & Hok & Hheap & Hidx & Hdate & Hother & Hder);
    [ reflexivity | reflexivity | reflexivity | discriminate | apply Spread_not_derived
    | reflexivity | reflexivity | lia | discriminate | ].
  exists data, G. split; [exact Hok|]. split; [exact Hheap|].
  split; [rewrite Hidx; vm_compute; reflexivity|]. split; [exact Hdate|]. split.
  - rewrite (Hother "Volume"%string);
      [ vm_compute; reflexivity | discriminate
      | apply not_derived; repeat constructor; discriminate ].
  - destruct (Hder "signal"%string) as [_ ->];
      [unfold derived_columns; rewrite !elem_of_cons; tauto|].
    vm_compute. reflexivity.
Defined.

(** ** The order of the rows *)

Lemma index_le_total x y : index_le x y = false -> index_le y x = true.
Proof.
  destruct x as [| | |x], y as [| | |y]; simpl; try done. compare_cases.
Qed.

Lemma time_ordered_cons x y l :
  index_le x y = true -> time_ordered (y :: l) -> time_ordered (x :: y :: l).
Proof.
  intros Hxy Hl [|i] a b Ha Hb; simpl in *.
  - now injection Ha as <-; injection Hb as <-.
  - exact (Hl i a b Ha Hb).
Qed.

Lemma time_ordered_head x y l : time_ordered (x :: y :: l) -> index_le x y = true.
Proof. intros H. exact (H 0%nat x y eq_refl eq_refl). Qed.

Lemma time_ordered_one x : time_ordered [x].
Proof. intros [|i] a b Ha Hb; discriminate. Qed.

Lemma insert_row_ordered x l :
  time_ordered (fst <$> l) -> time_ordered (fst <$> insert_row x l).
Proof.
  induction l as [|y r IH]; intros Hl; simpl; [apply time_ordered_one|].
  destruct (index_le x.1 y.1) eqn:Hxy; [now apply time_ordered_cons|].
  rewrite fmap_cons. specialize (IH (time_ordered_tail _ _ Hl)).
  destruct r as [|z r']; simpl in *.
  - apply time_ordered_cons; [now apply index_le_total | apply time_ordered_one].
  - destruct (index_le x.1 z.1).
    + apply time_ordered_cons; [now apply index_le_total | exact IH].
    + apply time_ordered_cons; [exact (time_ordered_head _ _ _ Hl) | exact IH].
Qed.

Lemma insert_row_perm x l : insert_row x l ≡ₚ x :: l.
Proof.
  induction l as [|y r IH]; simpl; [done|].
  destruct (index_le _ _); [done|]. rewrite IH. apply Permutation_swap.
Qed.

Lemma sort_rows_perm l : foldr insert_row [] l ≡ₚ l.
Proof.
  induction l as [|x r IH]; simpl; [done|]. now rewrite insert_row_perm, IH.
Qed.

Lemma sort_rows_keys l : time_ordered (fst <$> foldr insert_row [] l).
Proof.
  induction l as [|x r IH]; simpl; [intros i a b Ha; discriminate|].
  now apply insert_row_ordered.
Qed.

(** [argsort] lists every row once. *)
Lemma argsort_perm keys : argsort keys ≡ₚ seq 0 (length keys).
Proof.
  unfold argsort. change (map snd ?l) with (snd <$> l).
  rewrite sort_rows_perm. rewrite snd_zip; [done|]. rewrite length_seq. lia.
Qed.

(** The keys in the order of [argsort] are in time order. *)
Lemma reindex_argsort_ordered keys : time_ordered (reindex (argsort keys) keys).
Proof.
  unfold argsort, reindex.
  assert (Hrows : Forall (fun p => keys !! p.2 = Some p.1)
                    (foldr insert_row [] (zip keys (seq 0 (length keys))))).
  { rewrite sort_rows_perm. apply Forall_forall. intros [k i] Hin.
    apply list_elem_of_lookup in Hin as [j Hj]. apply lookup_zip_with_Some in Hj
      as (k' & i' & [= <- <-] & Hk & Hi).
    apply lookup_seq in Hi as [-> _]. exact Hk. }
  replace (map (fun i => default NaN (keys !! i))
             (map snd (foldr insert_row [] (zip keys (seq 0 (length keys))))))
    with (fst <$> foldr insert_row [] (zip keys (seq 0 (length keys)))).
  { apply sort_rows_keys. }
  induction Hrows as [|p l Hp Hl IH]; [done|].
  simpl. rewrite Hp. simpl. f_equal. exact IH.
Qed.

Lemma zip_reindex p (a b : column) :
  zip (reindex p a) (reindex p b)
  = (fun i => (default NaN (a !! i), default NaN (b !! i))) <$> p.
Proof.
  unfold reindex. induction p as [|i p IH]; [done|]. simpl. f_equal. exact IH.
Qed.

Lemma zip_rows (a b : column) :
  length a = length b ->
  (fun i => (default NaN (a !! i), default NaN (b !! i))) <$> seq 0 (length a) = zip a b.
Proof.
  intros Hlen. apply list_eq. intros i. rewrite list_lookup_fmap.
  rewrite lookup_zip_with.
  destruct (a !! i) as [x|] eqn:Hx.
  - rewrite (lookup_seq_lt 0 (length a) i); [|eapply lookup_lt_Some; eauto].
    simpl. rewrite Hx. simpl.
    destruct (lookup_lt_is_Some_2 b i) as [y ->];
      [rewrite <- Hlen; eapply lookup_lt_Some; eauto|]. reflexivity.
  - rewrite lookup_seq_ge; [done|]. now apply lookup_ge_None.
Qed.

(** X12.  The rows of the returned frame are the rows of the input, each date
    with its price, and they are in date order (missing dates last),
    whatever the order of the input. *)
Theorem rows_are_sorted_by_date lib df spread_col lookback entry_z cost_per_trade st F
    dates spread adf pf :
  heap st !! df = Some F ->
  cols F !! "Date"%string = Some dates ->
  cols F !! spread_col = Some spread ->
  spread_col <> "Date"%string ->
  spread_col ∉ derived_columns ->
  adfuller lib (sorted_series F spread_col) = Some adf ->
  polyfit lib (map (fun lag => flog lib (of_nat lag)) lags)
              (map (flog lib) (tau lib (sorted_series F spread_col))) = Some pf ->
  (0 <= lookback)%Z ->
  dates <> [] ->
  length spread = length dates ->
  let run := backtest_crush_spread lib df spread_col lookback entry_z cost_per_trade st in
  exists data G prices,
    fst run = Ok data /\ heap (snd run) !! data = Some G /\
    cols G !! spread_col = Some prices /\
    time_ordered (index G) /\
    zip (index G) prices ≡ₚ zip dates spread.
Proof.
  intros Hdf Hdates Hspread Hne Hfresh Hadf Hpf Hpos Hrows Hlen run.
  destruct (backtest_returns lib df spread_col lookback entry_z cost_per_trade st F dates
              spread adf pf Hdf Hdates Hspread Hne Hfresh Hadf Hpf Hpos Hrows)
    as (data & Hok & Hheap).
  exists data, (result_frame lib F spread_col (Z.to_nat lookback) entry_z cost_per_trade),
    (reindex (argsort dates) spread).
  split; [exact Hok|]. split; [exact Hheap|].
  assert (Hidx : index (result_frame lib F spread_col (Z.to_nat lookback) entry_z
                          cost_per_trade) = reindex (argsort dates) dates).
  { unfold result_frame. rewrite !index_set_col. unfold sorted_frame, date_order.
    cbn [index]. now rewrite Hdates. }
  split.
  { rewrite cols_result_frame_other by done. rewrite cols_sorted_frame.
    destruct (decide _); [contradiction|]. unfold date_order. now rewrite Hdates, Hspread. }
  rewrite Hidx. split; [apply reindex_argsort_ordered|].
  rewrite zip_reindex, argsort_perm. now rewrite zip_rows.
Qed.

Lemma rows_are_sorted_by_date_witness :
  exists data G prices,
    fst (backtest_crush_spread ref_lib 0%nat "Spread" 1 (Fin (-1)) (Fin (-1 # 50))
           unordered_store) = Ok data /\
    heap (snd (backtest_crush_spread ref_lib 0%nat "Spread" 1 (Fin (-1)) (Fin (-1 # 50))
                 unordered_store)) !! data = Some G /\
    cols G !! "Spread"%string = Some prices /\
    time_ordered (index G) /\
    zip (index G) prices
    ≡ₚ zip (floats [3; 1; 2; 6; 4; 5])
         (floats [8 # 10; 1; 12 # 10; 11 # 10; 15 # 10; 5 # 10]).
Proof.
  edestruct (rows_are_sorted_by_date ref_lib 0%nat "Spread" 1 (Fin (-1)) (Fin (-1 # 50))
               unordered_store
               (frame_of [3; 1; 2; 6; 4; 5] [8 # 10; 1; 12 # 10; 11 # 10; 15 # 10; 5 # 10])
               (floats [3; 1; 2; 6; 4; 5])
               (floats [8 # 10; 1; 12 # 10; 11 # 10; 15 # 10; 5 # 10]) (NaN, NaN))
    as (data & G & prices & H);
    [ reflexivity | reflexivity | reflexivity | discriminate | apply Spread_not_derived
    | reflexivity | reflexivity | lia | discriminate | reflexivity | ].
  exists data, G, prices. exact H.
Defined.

(** X13.  Dates that are all there and already in order: [sort_index] moves no
    row, the returned frame has the dates of the input as its index and
    the prices of the input, row for row. *)
Theorem ordered_input_keeps_its_rows lib df spread_col lookback entry_z cost_per_trade st F
    dates spread adf pf :
  heap st !! df = Some F ->
  cols F !! "Date"%string = Some dates ->
  cols F !! spread_col = Some spread ->
  spread_col <> "Date"%string ->
  spread_col ∉ derived_columns ->
  adfuller lib (sorted_series F spread_col) = Some adf ->
  polyfit lib (map (fun lag => flog lib (of_nat lag)) lags)
              (map (flog lib) (tau lib (sorted_series F spread_col))) = Some pf ->
  (0 <= lookback)%Z ->
  dates <> [] ->
  length spread = length dates ->
  Forall (fun d => is_nan d = false) dates ->
  time_ordered dates ->
  let run := backtest_crush_spread lib df spread_col lookback entry_z cost_per_trade st in
  exists data G,
    fst run = Ok data /\ heap (snd run) !! data = Some G /\
    index G = dates /\
    cols G !! spread_col = Some spread /\
    cols G !! "z_score"%string = Some (z_score lib spread (Z.to_nat lookback)) /\
    cols G !! "position"%string = Some (position lib spread (Z.to_nat lookback) entry_z).
Proof.
  intros Hdf Hdates Hspread Hne Hfresh Hadf Hpf Hpos Hrows Hlen _ Hord run.
  destruct (backtest_returns lib df spread_col lookback entry_z cost_per_trade st F dates
              spread adf pf Hdf Hdates Hspread Hne Hfresh Hadf Hpf Hpos Hrows)
    as (data & Hok & Hheap).
  exists data, (result_frame lib F spread_col (Z.to_nat lookback) entry_z cost_per_trade).
  split; [exact Hok|]. split; [exact Hheap|].
  pose proof (sorted_series_ordered F spread_col dates spread Hdates Hspread Hlen Hord) as Hs.
  split.
  { unfold result_frame. rewrite !index_set_col. unfold sorted_frame, date_order.
    cbn [index]. rewrite Hdates. simpl. rewrite (argsort_ordered dates Hord).
    apply reindex_seq. }
  split.
  { rewrite cols_result_frame_other by done. rewrite cols_sorted_frame.
    destruct (decide _); [contradiction|]. unfold date_order.
    rewrite Hdates, Hspread. simpl. rewrite (argsort_ordered dates Hord), <- Hlen.
    now rewrite reindex_seq. }
  unfold result_frame. rewrite Hs. split; solve_col.
Qed.

Lemma ordered_input_keeps_its_rows_witness :
  exists data G,
    fst (backtest_crush_spread ref_lib 0%nat "Spread" 3 (Fin 1) (Fin (1 # 50))
           scenario_store) = Ok data /\
    heap (snd (backtest_crush_spread ref_lib 0%nat "Spread" 3 (Fin 1) (Fin (1 # 50))
                 scenario_store)) !! data = Some G /\
    index G = floats [1; 2; 3; 4; 5; 6; 7; 8; 9; 10] /\
    cols G !! "Spread"%string = Some (floats scenario).
Proof.
  edestruct (ordered_input_keeps_its_rows ref_lib 0%nat "Spread" 3 (Fin 1) (Fin (1 # 50))
               scenario_store (frame_of [1; 2; 3; 4; 5; 6; 7; 8; 9; 10] scenario)
               (floats [1; 2; 3; 4; 5; 6; 7; 8; 9; 10]) (floats scenario) (NaN, NaN))
    as (data & G & Hok & Hheap & Hidx & Hcol & _);
    [ reflexivity | reflexivity | reflexivity | discriminate | apply Spread_not_derived
    | reflexivity | reflexivity | lia | discriminate | reflexivity
    | apply Forall_forall; intros d Hd; unfold floats in Hd;
      apply list_elem_of_fmap in Hd as (q & -> & _); reflexivity
    | intros i x y Hx Hy;
      do 10 (destruct i as [|i];
             [ vm_compute in Hx, Hy;
               first [ discriminate
                     | injection Hx as <-; injection Hy as <-; reflexivity ] |]);
      vm_compute in Hx; discriminate
    | ].
  exists data, G. split; [exact Hok|]. split; [exact Hheap|]. split; [exact Hidx|exact Hcol].
Defined.

(** ** A series that does not move *)

Lemma foldl_fadd_replicate a k q :
  exists t, foldl fadd (Fin a) (replicate k (Fin q)) = Fin t /\
            t == a + inject_Z (Z.of_nat k) * q.
Proof.
  revert a. induction k as [|k IH]; intros a.
  - exists a. split; [reflexivity|]. simpl. ring.
  - simpl replicate. simpl foldl. destruct (IH (Qred (a + q))) as (t & Ht & Heq).
    exists t. split; [exact Ht|]. rewrite Heq, Qred_correct, Nat2Z.inj_succ.
    unfold Z.succ. rewrite inject_Z_plus. ring.
Qed.


Lemma inject_nat_nonzero k : (0 < k)%nat -> ~ inject_Z (Z.of_nat k) == 0.
Proof.
  intros Hk H. apply Qeq_alt in H. now rewrite (of_nat_positive k Hk) in H.
Qed.

(** The mean of [k] copies of a value is the value. *)
Lemma mean_obs_replicate k q :
  (0 < k)%nat ->
  exists m, mean_obs (replicate k (Fin q)) = Fin m /\ m == q.
Proof.
  intros Hk. unfold mean_obs, fsum.
  destruct (foldl_fadd_replicate 0 k q) as (t & Ht & Heq).
  destruct k as [|k]; [lia|]. rewrite length_replicate.
  change (Fin q :: replicate k (Fin q)) with (replicate (S k) (Fin q)). rewrite Ht.
  unfold of_nat, fdiv. rewrite (of_nat_positive (S k)) by lia.
  eexists. split; [reflexivity|]. rewrite Qred_correct, Heq.
  field. now apply inject_nat_nonzero.
Qed.

(** Their variance is zero, for any [ddof] below their number. *)
Lemma var_obs_replicate ddof k q :
  (ddof < k)%nat -> var_obs ddof (replicate k (Fin q)) = Fin 0.
Proof.
  intros Hk. unfold var_obs. rewrite length_replicate.
  destruct (decide _) as [|_]; [lia|].
  destruct (mean_obs_replicate k q) as (m & -> & Hm); [lia|].
  assert (Hdev : map (fun x => fsqr (fsub x (Fin m))) (replicate k (Fin q))
                 = replicate k (Fin 0)).
  { change (map ?f ?l) with (f <$> l). rewrite fmap_replicate. f_equal.
    simpl. rewrite (Qred_zero (q + - m)) by (rewrite Hm; ring). reflexivity. }
  rewrite Hdev. unfold fsum.
  destruct (foldl_fadd_replicate 0 k 0) as (t & -> & Ht).
  unfold of_nat, fdiv. rewrite (of_nat_positive (k - ddof)) by lia.
  f_equal. apply Qred_zero. rewrite Ht. field. apply inject_nat_nonzero. lia.
Qed.

Lemma fsqrt_zero lib : np_sqrt lib 0 == 0 -> fsqrt lib (Fin 0) = Fin 0.
Proof. intros H. simpl. now rewrite (Qred_zero _ H). Qed.

Lemma lagged_diff_constant k q lag :
  lagged_diff (replicate k (Fin q)) lag = replicate (k - lag) (Fin 0).
Proof.
  unfold lagged_diff, col_sub. rewrite length_replicate, drop_replicate, take_replicate.
  replace (Nat.min (k - lag) k) with (k - lag)%nat by lia.
  induction (k - lag)%nat as [|j IH]; [reflexivity|]. simpl. rewrite IH.
  f_equal. f_equal. apply Qred_zero. ring.
Qed.

(** X14.  A constant series in [calculate_hurst].  With a square root
    that is 0 at 0, every lagged difference is zero, so [tau] is zero and
    the logarithm handed to [polyfit] is minus infinity for every lag
    below the length of the series; no logarithm is a number. *)
Theorem constant_series_log_tau lib k q :
  np_sqrt lib 0 == 0 ->
  let series := replicate k (Fin q) in
  (forall j lag, lags !! j = Some lag -> (lag < k)%nat ->
     tau lib series !! j = Some (Fin 0) /\
     map (flog lib) (tau lib series) !! j = Some NInf) /\
  (forall y, y ∈ map (flog lib) (tau lib series) -> y = NInf \/ y = NaN).
Proof.
  intros Hsqrt series.
  assert (Htau : forall lag,
            fsqrt lib (np_std lib (lagged_diff series lag))
            = if decide (lag < k)%nat then Fin 0 else NaN).
  { intros lag. unfold series. rewrite lagged_diff_constant.
    destruct (decide _) as [Hlt|Hge].
    - destruct (k - lag)%nat as [|j] eqn:Hj; [lia|].
      unfold np_std. simpl replicate. cbv iota.
      change (Fin 0 :: replicate j (Fin 0)) with (replicate (S j) (Fin 0)).
      rewrite var_obs_replicate by lia. now rewrite !(fsqrt_zero lib Hsqrt).
    - replace (k - lag)%nat with 0%nat by lia. reflexivity. }
  split.
  - intros j lag Hj Hlt.
    assert (Ht : tau lib series !! j = Some (Fin 0)).
    { unfold tau. change (map ?f ?l) with (f <$> l).
      rewrite list_lookup_fmap, Hj. simpl. rewrite Htau.
      now destruct (decide _). }
    split; [exact Ht|]. change (map ?f ?l) with (f <$> l).
    rewrite list_lookup_fmap, Ht. reflexivity.
  - intros y Hy. change (map ?f ?l) with (f <$> l) in Hy.
    apply list_elem_of_fmap in Hy as (t & -> & Ht). unfold tau in Ht.
    change (map ?f ?l) with (f <$> l) in Ht.
    apply list_elem_of_fmap in Ht as (lag & -> & _). rewrite Htau.
    destruct (decide _); [left|right]; reflexivity.
Qed.

Lemma constant_series_log_tau_witness :
  map (flog ref_lib) (tau ref_lib (replicate 8 (Fin (3 # 2)))) !! 0%nat = Some NInf /\
  (forall y, y ∈ map (flog ref_lib) (tau ref_lib (replicate 8 (Fin (3 # 2)))) ->
     y = NInf \/ y = NaN).
Proof.
  destruct (constant_series_log_tau ref_lib 8 (3 # 2) sqrt_floor_zero) as [Hlag Hall].
  split; [|exact Hall]. destruct (Hlag 0%nat 2%nat) as [_ H]; [reflexivity|lia|exact H].
Defined.

(** ** The lags of the Hurst estimate *)

(** X15.  A lag that reaches the length of the series leaves no difference:
    its [tau] is NaN and so is the logarithm handed to [polyfit].  With
    fewer than 100 prices this is the case of every lag from the length
    on. *)
Theorem tau_of_long_lag_is_nan lib series k lag :
  lags !! k = Some lag -> (length series <= lag)%nat ->
  tau lib series !! k = Some NaN /\
  map (flog lib) (tau lib series) !! k = Some NaN.
Proof.
  intros Hk Hlen.
  assert (Ht : tau lib series !! k = Some NaN).
  { unfold tau. change (map ?f ?l) with (f <$> l). rewrite list_lookup_fmap, Hk. simpl.
    unfold lagged_diff, col_sub. rewrite drop_ge by lia. reflexivity. }
  split; [exact Ht|].
  change (map ?f ?l) with (f <$> l). now rewrite list_lookup_fmap, Ht.
Qed.

Lemma tau_of_long_lag_is_nan_witness :
  tau ref_lib (floats scenario) !! 8%nat = Some NaN /\
  map (flog ref_lib) (tau ref_lib (floats scenario)) !! 8%nat = Some NaN.
Proof.
  apply (tau_of_long_lag_is_nan ref_lib (floats scenario) 8 10); [reflexivity|].
  vm_compute. lia.
Defined.

(** ** The count of trades *)

Lemma trades_values lib series lookback entry_z i t :
  trades lib series lookback entry_z !! S i = Some t -> in_trades t.
Proof.
  intros Ht.
  assert (Hi : (S i < length series)%nat).
  { rewrite <- (length_trades lib series lookback entry_z). eapply lookup_lt_Some; eauto. }
  destruct (lookup_lt_is_Some_2 (position lib series lookback entry_z) i) as [p0 Hp0].
  { rewrite length_position; lia. }
  destruct (lookup_lt_is_Some_2 (position lib series lookback entry_z) (S i)) as [p1 Hp1].
  { rewrite length_position; lia. }
  rewrite (trades_lookup_S lib series lookback entry_z i p0 p1 Hp0 Hp1) in Ht.
  injection Ht as <-. apply in_trades_flip; eapply position_values; eauto.
Qed.

Lemma Qred_inject_Z z : Qred (inject_Z z) = inject_Z z.
Proof.
  unfold Qred, inject_Z.
  pose proof (Z.ggcd_gcd z 1) as Hg. pose proof (Z.ggcd_correct_divisors z 1) as Hd.
  destruct (Z.ggcd z 1) as [g [p q]]. simpl in *. rewrite Z.gcd_1_r in Hg. subst g.
  destruct Hd as [-> Hq]. rewrite Z.mul_1_l in Hq. subst q.
  now rewrite Z.mul_1_l.
Qed.

Lemma fsum_in_trades_count l z :
  (0 <= z)%Z -> Forall in_trades l ->
  exists k, (0 <= k)%Z /\ foldl fadd (Fin (inject_Z z)) l = Fin (inject_Z k).
Proof.
  revert z. induction l as [|x r IH]; intros z Hz Hl; [exists z; auto|].
  inversion Hl as [|? ? Hx Hr]; subst. cbn [foldl].
  assert (Hstep : exists z', (0 <= z')%Z /\ fadd (Fin (inject_Z z)) x = Fin (inject_Z z')).
  { destruct Hx as [->|[->| ->]]; [exists z | exists (z + 1)%Z | exists (z + 2)%Z];
      (split; [lia|]); simpl; f_equal;
      (etransitivity; [|apply Qred_inject_Z]); apply Qred_complete;
      rewrite ?inject_Z_plus; unfold inject_Z; ring. }
  destruct Hstep as (z' & Hz' & ->). now apply IH.
Qed.

(** X18.  The number printed as total trades is a count: the sum of the
    trades is a whole number that is not negative, so [int] neither
    raises nor rounds. *)
Theorem total_trades_is_a_count lib series lookback entry_z st :
  exists k : nat,
    series_sum (trades lib series lookback entry_z) = Fin (inject_Z (Z.of_nat k)) /\
    to_int (series_sum (trades lib series lookback entry_z)) st = (Ok (Z.of_nat k), st).
Proof.
  assert (Hl : Forall in_trades (dropna (trades lib series lookback entry_z))).
  { apply Forall_forall. intros t Ht. unfold dropna in Ht.
    apply list_elem_of_filter in Ht as [Hn Ht].
    apply list_elem_of_lookup in Ht as [[|i] Hi].
    - assert (H0 : (0 < length series)%nat).
      { rewrite <- (length_trades lib series lookback entry_z). eapply lookup_lt_Some; eauto. }
      destruct (lookup_lt_is_Some_2 series 0 H0) as [x Hx].
      rewrite (trades_lookup_0 lib series lookback entry_z x Hx) in Hi.
      injection Hi as <-. discriminate.
    - exact (trades_values lib series lookback entry_z i t Hi). }
  destruct (fsum_in_trades_count _ 0 ltac:(lia) Hl) as (k & Hk & Hsum).
  exists (Z.to_nat k). rewrite Z2Nat.id by exact Hk.
  unfold series_sum, fsum. change (Fin 0) with (Fin (inject_Z 0)). rewrite Hsum.
  split; [reflexivity|]. unfold to_int, ret, truncate. simpl. now rewrite Z.quot_1_r.
Qed.

(** ** The mock data of the example *)

Lemma length_append_prices last draws :
  length (append_prices last draws) = length draws.
Proof.
  revert last. induction draws as [|e r IH]; intros last; simpl; [done|]. now rewrite IH.
Qed.

Lemma length_mock_prices n normal : length (mock_prices n normal) = Nat.max 1 n.
Proof.
  unfold mock_prices. simpl. rewrite length_append_prices, length_map, length_seq. lia.
Qed.

(** X19.  The loop of the example appends one price for every date but the
    first, so with at least one date there is a price for each date and
    the frame is built, its first price being 1.50; without any date there
    is still the one starting price, and the frame is refused. *)
Theorem mock_prices_fit_the_dates dates normal :
  (dates <> [] ->
   exists F prices,
     df_mock dates normal = Ok F /\
     cols F !! "Date"%string = Some dates /\
     cols F !! "Spread"%string = Some prices /\
     length prices = length dates /\
     prices !! 0%nat = Some (Fin (3 # 2))) /\
  (dates = [] -> df_mock dates normal = Raise ValueError).
Proof.
  split.
  - intros Hne. unfold df_mock.
    destruct (decide _) as [Hlen|Hlen].
    + eexists _, (mock_prices (length dates) normal).
      split; [reflexivity|]. cbn [cols].
      split; [apply lookup_insert_eq|].
      split; [rewrite lookup_insert_ne by discriminate; apply lookup_insert_eq|].
      split; [exact Hlen | reflexivity].
    + exfalso. apply Hlen. rewrite length_mock_prices.
      destruct dates; [contradiction|]. simpl. lia.
  - intros ->. reflexivity.
Qed.

Lemma mock_prices_fit_the_dates_witness :
  exists F prices,
    df_mock (floats [1; 2; 3; 4; 5; 6]) alternating = Ok F /\
    cols F !! "Spread"%string = Some prices /\
    length prices = length (floats [1; 2; 3; 4; 5; 6]).
Proof.
  destruct (mock_prices_fit_the_dates (floats [1; 2; 3; 4; 5; 6]) alternating) as [H _].
  destruct (H ltac:(discriminate)) as (F & prices & HF & _ & Hp & Hlen & _).
  exists F, prices. split; [exact HF|]. split; [exact Hp | exact Hlen].
Defined.

(** X21.  The call of the example (line 287) meets none of the exceptions of
    the back-test.  A mock frame that was built has a 'Date' and a
    'Spread' column and at least one row, and the window of 30 is not
    negative: when the Dickey-Fuller test and [polyfit] answer, the call
    returns a frame with one row for each date. *)
Theorem example_call_returns lib dates normal F adf pf :
  df_mock dates normal = Ok F ->
  adfuller lib (sorted_series F "Spread") = Some adf ->
  polyfit lib (map (fun lag => flog lib (of_nat lag)) lags)
              (map (flog lib) (tau lib (sorted_series F "Spread"))) = Some pf ->
  let run := backtest_crush_spread lib 0%nat "Spread" 30 (Fin 2) (Fin (1 # 50)) (store_of F) in
  exists data G,
    fst run = Ok data /\ heap (snd run) !! data = Some G /\
    length (index G) = length dates /\
    forall key c, key ∈ derived_columns -> cols G !! key = Some c ->
      length c = length dates.
Proof.
  intros HF Hadf Hpf run. unfold df_mock in HF.
  destruct (decide _) as [Hlen|]; [|discriminate]. injection HF as <-.
  rewrite length_mock_prices in Hlen.
  assert (Hne : dates <> []) by (intros ->; simpl in Hlen; lia).
  set (F := {| index := map of_nat (seq 0 (length dates));
               cols := <["Date"%string := dates]>
                       (<["Spread"%string := mock_prices (length dates) normal]> ∅) |}) in *.
  assert (Hdates : cols F !! "Date"%string = Some dates) by apply lookup_insert_eq.
  assert (Hspread : cols F !! "Spread"%string = Some (mock_prices (length dates) normal)).
  { unfold F. cbn [cols]. rewrite lookup_insert_ne by discriminate. apply lookup_insert_eq. }
  destruct (backtest_returns lib 0%nat "Spread" 30 (Fin 2) (Fin (1 # 50)) (store_of F) F
              dates (mock_prices (length dates) normal) adf pf)
    as (data & Hok & Hheap);
    [ apply lookup_insert_eq | exact Hdates | exact Hspread | discriminate
    | apply Spread_not_derived | exact Hadf | exact Hpf | lia | exact Hne | ].
  exists data, (result_frame lib F "Spread" (Z.to_nat 30) (Fin 2) (Fin (1 # 50))).
  split; [exact Hok|]. split; [exact Hheap|].
  assert (Hidx : length (index (result_frame lib F "Spread" (Z.to_nat 30) (Fin 2)
                                  (Fin (1 # 50)))) = length dates).
  { unfold result_frame. rewrite !index_set_col. unfold sorted_frame, date_order.
    cbn [index]. rewrite Hdates. simpl. now rewrite length_reindex, length_argsort. }
  split; [exact Hidx|].
  intros key c Hkey Hc. rewrite <- Hidx. exact (derived_columns_fit _ _ _ _ _ _ _ _ Hkey Hc).
Qed.

Lemma example_call_returns_witness :
  exists F data G,
    df_mock (floats [1; 2; 3; 4; 5; 6]) alternating = Ok F /\
    fst (backtest_crush_spread ref_lib 0%nat "Spread" 30 (Fin 2) (Fin (1 # 50)) (store_of F))
      = Ok data /\
    heap (snd (backtest_crush_spread ref_lib 0%nat "Spread" 30 (Fin 2) (Fin (1 # 50))
                 (store_of F))) !! data = Some G /\
    length (index G) = 6%nat.
Proof.
  eexists. 
  edestruct (example_call_returns ref_lib (floats [1; 2; 3; 4; 5; 6]) alternating)
    as (data & G & Hok & Hheap & Hidx & _);
    [ reflexivity | reflexivity | reflexivity | ].
  exists data, G. split; [reflexivity|]. split; [exact Hok|]. split; [exact Hheap|exact Hidx].
Defined.

(** ** A z-score that stays inside the band *)

(** X23.  When no z-score is above [entry_z] or below [-entry_z] (a threshold
    that is NaN or infinite among the cases), no entry is ever recorded:
    the position is 0 on every row and every trade from row 1 on is 0. *)
Theorem inside_band_never_trades lib series lookback entry_z :
  (forall i z, z_score lib series lookback !! i = Some z ->
     fgtb z entry_z = false /\ fltb z (fneg entry_z) = false) ->
  forall i, (i < length series)%nat ->
    position lib series lookback entry_z !! i = Some (Fin 0) /\
    (forall j, i = S j -> trades lib series lookback entry_z !! i = Some (Fin 0)).
Proof.
  intros Hband.
  assert (Hsig : forall j y, signal lib series lookback entry_z !! j = Some y ->
                   is_nan y = false -> y = Fin 0).
  { intros j y Hy Hn.
    destruct (lookup_lt_is_Some_2 (z_score lib series lookback) j) as [z Hz].
    { rewrite length_z_score, <- (length_signal lib series lookback entry_z).
      eapply lookup_lt_Some; eauto. }
    rewrite (signal_lookup lib series lookback entry_z j z Hz) in Hy.
    destruct (Hband j z Hz) as [Hgt Hlt]. rewrite Hgt, Hlt in Hy.
    destruct (fltb _ (Fin 0)); injection Hy as <-; [reflexivity|discriminate]. }
  assert (Hp : forall i, (i < length series)%nat ->
                 position lib series lookback entry_z !! i = Some (Fin 0)).
  { intros i Hi. rewrite position_lookup by done.
    destruct (last_defined _ i) as [y|] eqn:Hl; [|reflexivity].
    apply last_defined_Some in Hl as (j & _ & Hy & Hn & _).
    now rewrite (Hsig j y Hy Hn). }
  intros i Hi. split; [now apply Hp|].
  intros j ->. apply trades_flat; apply Hp; lia.
Qed.

Lemma inside_band_never_trades_witness :
  position ref_lib (floats scenario) 3 NaN !! 9%nat = Some (Fin 0) /\
  trades ref_lib (floats scenario) 3 NaN !! 9%nat = Some (Fin 0).
Proof.
  destruct (inside_band_never_trades ref_lib (floats scenario) 3 NaN) with (i := 9%nat)
    as [Hp Ht].
  - intros i z _. unfold fgtb. simpl fneg. now rewrite !fltb_nan_r; destruct z.
  - vm_compute. lia.
  - split; [exact Hp | exact (Ht 8%nat eq_refl)].
Defined.

(** ** Calls in a row *)

Lemma set_index_fails lib df spread_col lookback entry_z cost_per_trade st F :
  heap st !! df = Some F ->
  cols F !! "Date"%string = None ->
  fst (backtest_crush_spread lib df spread_col lookback entry_z cost_per_trade st)
  = Raise (KeyError "Date").
Proof.
  intros Hdf Hd. unfold backtest_crush_spread.
  erewrite bind_ok.
  2:{ unfold df_copy, bind, get_frame, alloc. rewrite Hdf. reflexivity. }
  erewrite bind_raise; [reflexivity|].
  unfold set_index, bind, get_frame. cbn [heap out].
  now rewrite lookup_insert_eq, Hd.
Qed.

(** X24.  The frame that a call returns cannot be handed to the back-test
    again: 'Date' is its index and no column, so a call on it raises
    [KeyError] at [set_index], whatever its other arguments. *)
Theorem result_cannot_be_fed_back lib df spread_col lookback entry_z cost_per_trade st F
    dates spread adf pf :
  heap st !! df = Some F ->
  cols F !! "Date"%string = Some dates ->
  cols F !! spread_col = Some spread ->
  spread_col <> "Date"%string ->
  spread_col ∉ derived_columns ->
  adfuller lib (sorted_series F spread_col) = Some adf ->
  polyfit lib (map (fun lag => flog lib (of_nat lag)) lags)
              (map (flog lib) (tau lib (sorted_series F spread_col))) = Some pf ->
  (0 <= lookback)%Z ->
  dates <> [] ->
  let run := backtest_crush_spread lib df spread_col lookback entry_z cost_per_trade st in
  exists data,
    fst run = Ok data /\
    forall lib' spread_col' lookback' entry_z' cost_per_trade',
      fst (backtest_crush_spread lib' data spread_col' lookback' entry_z' cost_per_trade'
             (snd run))
      = Raise (KeyError "Date").
Proof.
  intros Hdf Hdates Hspread Hne Hfresh Hadf Hpf Hpos Hrows run.
  destruct (backtest_returns lib df spread_col lookback entry_z cost_per_trade st F dates
              spread adf pf Hdf Hdates Hspread Hne Hfresh Hadf Hpf Hpos Hrows)
    as (data & Hok & Hheap).
  exists data. split; [exact Hok|]. intros lib' spread_col' lookback' entry_z' cost'.
  apply (set_index_fails _ _ _ _ _ _ _ _ Hheap).
  rewrite cols_result_frame_other by apply Date_not_derived.
  rewrite cols_sorted_frame. now destruct (decide _).
Qed.

Lemma result_cannot_be_fed_back_witness :
  exists data,
    fst (backtest_crush_spread ref_lib 0%nat "Spread" 3 (Fin 1) (Fin (1 # 50))
           scenario_store) = Ok data /\
    fst (backtest_crush_spread ref_lib data "Spread" 3 (Fin 1) (Fin (1 # 50))
           (snd (backtest_crush_spread ref_lib 0%nat "Spread" 3 (Fin 1) (Fin (1 # 50))
                   scenario_store)))
    = Raise (KeyError "Date").
Proof.
  edestruct (result_cannot_be_fed_back ref_lib 0%nat "Spread" 3 (Fin 1) (Fin (1 # 50))
               scenario_store (frame_of [1; 2; 3; 4; 5; 6; 7; 8; 9; 10] scenario)
               (floats [1; 2; 3; 4; 5; 6; 7; 8; 9; 10]) (floats scenario) (NaN, NaN))
    as (data & Hok & Hagain);
    [ reflexivity | reflexivity | reflexivity | discriminate | apply Spread_not_derived
    | reflexivity | reflexivity | lia | discriminate | ].
  exists data. split; [exact Hok | apply Hagain].
Defined.

(** X25.  A second call on the same frame with the same arguments returns a
    second object with the same frame: the first call left the input as
    it was, and its result is still in the store. *)
Theorem second_call_gives_same_frame lib df spread_col lookback entry_z cost_per_trade st F
    dates spread adf pf :
  heap st !! df = Some F ->
  cols F !! "Date"%string = Some dates ->
  cols F !! spread_col = Some spread ->
  spread_col <> "Date"%string ->
  spread_col ∉ derived_columns ->
  adfuller lib (sorted_series F spread_col) = Some adf ->
  polyfit lib (map (fun lag => flog lib (of_nat lag)) lags)
              (map (flog lib) (tau lib (sorted_series F spread_col))) = Some pf ->
  (0 <= lookback)%Z ->
  dates <> [] ->
  let run1 := backtest_crush_spread lib df spread_col lookback entry_z cost_per_trade st in
  let run2 := backtest_crush_spread lib df spread_col lookback entry_z cost_per_trade
                (snd run1) in
  exists first second G,
    fst run1 = Ok first /\ fst run2 = Ok second /\ first <> second /\
    heap (snd run2) !! first = Some G /\ heap (snd run2) !! second = Some G /\
    heap (snd run2) !! df = Some F.
Proof.
  intros Hdf Hdates Hspread Hne Hfresh Hadf Hpf Hpos Hrows run1 run2.
  destruct (backtest_returns lib df spread_col lookback entry_z cost_per_trade st F dates
              spread adf pf Hdf Hdates Hspread Hne Hfresh Hadf Hpf Hpos Hrows)
    as (d1 & Hok1 & Hheap1).
  fold run1 in Hok1, Hheap1.
  pose proof (backtest_keeps lib (heap st) df spread_col lookback entry_z cost_per_trade st
                (reflexivity _)) as K1.
  fold run1 in K1. destruct run1 as [r1 s1] eqn:E1. simpl in Hok1, Hheap1. subst r1.
  destruct K1 as [Hsub1 _].
  assert (Hdf1 : heap s1 !! df = Some F) by (eapply lookup_weaken; eauto).
  destruct (backtest_returns lib df spread_col lookback entry_z cost_per_trade s1 F dates
              spread adf pf Hdf1 Hdates Hspread Hne Hfresh Hadf Hpf Hpos Hrows)
    as (d2 & Hok2 & Hheap2).
  pose proof (backtest_keeps lib (heap s1) df spread_col lookback entry_z cost_per_trade s1
                (reflexivity _)) as K2.
  subst run2. cbn [snd] in *.
  destruct (backtest_crush_spread lib df spread_col lookback entry_z cost_per_trade s1)
    as [r2 s2]. simpl in Hok2, Hheap2. subst r2. destruct K2 as [Hsub2 Hnew].
  exists d1, d2, (result_frame lib F spread_col (Z.to_nat lookback) entry_z cost_per_trade).
  split; [reflexivity|]. split; [reflexivity|]. split.
  { intros ->. rewrite Hheap1 in Hnew. discriminate. }
  split; [eapply lookup_weaken; eauto|]. split; [exact Hheap2|].
  eapply lookup_weaken; eauto.
Qed.

Lemma second_call_gives_same_frame_witness :
  let run1 := backtest_crush_spread ref_lib 0%nat "Spread" 3 (Fin 1) (Fin (1 # 50))
                scenario_store in
  let run2 := backtest_crush_spread ref_lib 0%nat "Spread" 3 (Fin 1) (Fin (1 # 50))
                (snd run1) in
  exists first second G,
    fst run1 = Ok first /\ fst run2 = Ok second /\ first <> second /\
    heap (snd run2) !! first = Some G /\ heap (snd run2) !! second = Some G.
Proof.
  intros run1 run2.
  edestruct (second_call_gives_same_frame ref_lib 0%nat "Spread" 3 (Fin 1) (Fin (1 # 50))
               scenario_store (frame_of [1; 2; 3; 4; 5; 6; 7; 8; 9; 10] scenario)
               (floats [1; 2; 3; 4; 5; 6; 7; 8; 9; 10]) (floats scenario) (NaN, NaN))
    as (d1 & d2 & G & H1 & H2 & Hne & Hg1 & Hg2 & _);
    [ reflexivity | reflexivity | reflexivity | discriminate | apply Spread_not_derived
    | reflexivity | reflexivity | lia | discriminate | ].
  exists d1, d2, G. repeat split; assumption.
Defined.

(** ** The Sharpe ratio of a run that never trades *)




